(** * Street View tile downloader: filename codec, acquisition and reconciliation

    A shallow embedding of [pano/download_images.py] and
    [pano/download_images_r2.py].  Python values read from the puzzle JSON
    files are modelled by [pyval]; Python floats are IEEE 754 binary64 values
    ([spec_float] of the Standard Library) with the exact rounding that
    CPython performs; exceptions are an error monad; the file system, the
    browser pool and the network are an explicit world threaded through the
    asynchronous functions, which the program awaits one at a time. *)

From Stdlib Require Import ZArith String Ascii List DecimalString Lia Bool.
From Stdlib Require Import Floats.SpecFloat.
From stdpp Require Import base option strings gmap sets list.

Set Warnings "-register-all,-clear-no-such-hyp".
Local Open Scope string_scope.
Local Open Scope list_scope.
Local Open Scope Z_scope.

(** ** Exceptions *)

Inductive exn :=
| ValueError
| TypeError
| AttributeError
| OverflowError
| UnboundLocalError
| OSError
| PlaywrightError.

Inductive result (A : Type) :=
| Ok (a : A)
| Raise (e : exn).
Arguments Ok {A} a.
Arguments Raise {A} e.

#[global] Instance result_ret : MRet result := fun _ a => Ok a.
#[global] Instance result_bind : MBind result := fun _ _ f m =>
  match m with
  | Ok a => f a
  | Raise e => Raise e
  end.

#[global] Instance result_fmap : FMap result := fun _ _ f m =>
  match m with
  | Ok a => Ok (f a)
  | Raise e => Raise e
  end.

Definition is_ok {A} (r : result A) : bool :=
  match r with Ok _ => true | Raise _ => false end.

(** ** Python floats *)

Module Float.

Abbreviation float := spec_float.

(** Nearest integer to [p / q], ties to even ([0 <= p], [0 < q]). *)
Definition rnd_half_even (p q : Z) : Z :=
  let f := p / q in
  let r2 := 2 * (p mod q) in
  if r2 <? q then f
  else if q <? r2 then f + 1
  else if Z.even f then f else f + 1.

(** The fraction [(p / q) / 2^e]. *)
Definition scale2 (p q e : Z) : Z * Z :=
  if 0 <=? e then (p, q * 2 ^ e) else (p * 2 ^ (- e), q).

(** The fraction [(p / q) * 10^k]. *)
Definition scale10 (p q k : Z) : Z * Z :=
  if 0 <=? k then (p * 10 ^ k, q) else (p, q * 10 ^ (- k)).

(** The binary64 value nearest to [(-1)^neg * p / q], ties to even
    ([0 <= p], [0 < q]); overflow gives an infinity. *)
Definition of_ratio (neg : bool) (p q : Z) : float :=
  if p =? 0 then S754_zero neg
  else
    let e0 := Z.log2 p - Z.log2 q - 53 in
    let '(p0, q0) := scale2 p q e0 in
    let e1 := if 2 ^ 53 * q0 <=? p0 then e0 + 1 else e0 in
    let e := Z.max e1 (-1074) in
    let '(p1, q1) := scale2 p q e in
    let m := rnd_half_even p1 q1 in
    let '(m, e) := if m =? 2 ^ 53 then (2 ^ 52, e + 1) else (m, e) in
    if m =? 0 then S754_zero neg
    else if 971 <? e then S754_infinity neg
    else S754_finite neg (Z.to_pos m) e.

(** [float(n)] for a Python int: correctly rounded. *)
Definition of_Z (n : Z) : float := of_ratio (n <? 0) (Z.abs n) 1.

(** The float denoted by the decimal literal [d * 10^k]. *)
Definition of_decimal (d k : Z) : float :=
  let '(p, q) := scale10 (Z.abs d) 1 k in of_ratio (d <? 0) p q.

Definition is_finite (x : float) : bool :=
  match x with
  | S754_zero _ | S754_finite _ _ _ => true
  | _ => false
  end.

Definition sign (x : float) : bool :=
  match x with
  | S754_zero s | S754_infinity s | S754_finite s _ _ => s
  | S754_nan => false
  end.

(** Magnitude of a finite float as a fraction. *)
Definition abs_ratio (x : float) : Z * Z :=
  match x with
  | S754_finite _ m e => scale2 (Z.pos m) 1 (- e)
  | _ => (0, 1)
  end.

Definition is_zero (x : float) : bool :=
  match x with S754_zero _ => true | _ => false end.

(** [x == int(x)] for a finite float. *)
Definition is_whole (x : float) : bool :=
  let '(p, q) := abs_ratio x in p mod q =? 0.

(** [int(x)] for a finite float: truncation towards zero. *)
Definition trunc (x : float) : Z :=
  let '(p, q) := abs_ratio x in
  if sign x then - (p / q) else p / q.

(** The largest finite float, and the floats that are binary64 values:
    a mantissa below [2^53] and an exponent of at most 971. *)
Definition max_float : Z := (2 ^ 53 - 1) * 2 ^ 971.

Definition valid (x : float) : bool :=
  match x with
  | S754_finite _ m e => (Z.pos m <? 2 ^ 53) && (e <=? 971)
  | _ => true
  end.

(** [p / q < 2^k] *)
Definition lt_pow2 (p q k : Z) : Prop :=
  p * 2 ^ Z.max 0 (- k) < q * 2 ^ Z.max 0 k.

(** [x == i] for a float and a Python int: an exact comparison. *)
Definition eq_Z (x : float) (i : Z) : bool :=
  is_finite x &&
  let '(p, q) := abs_ratio x in
  (if sign x then - p else p) =? i * q.

Definition eqb (x y : float) : bool :=
  match x, y with
  | S754_zero _, S754_zero _ => true
  | S754_infinity s, S754_infinity s' => Bool.eqb s s'
  | S754_finite s m e, S754_finite s' m' e' =>
      Bool.eqb s s' && (Z.pos m =? Z.pos m') && (e =? e')
  | _, _ => false
  end.

(** [round(x, ndigits)]: CPython prints [x] correctly rounded (ties to
    even on the exact binary value) to [ndigits] places after the point
    and reads the decimal string back as a float. *)
Definition ndigits_max : Z := 323.
Definition ndigits_min : Z := -308.

Definition round (x : float) (ndigits : Z) : result float :=
  match x with
  | S754_finite s _ _ =>
      if ndigits_max <? ndigits then Ok x
      else if ndigits <? ndigits_min then Ok (S754_zero s)
      else
        let '(p, q) := abs_ratio x in
        let '(p', q') := scale10 p q ndigits in
        let k := rnd_half_even p' q' in
        let '(p'', q'') := scale10 k 1 (- ndigits) in
        let r := of_ratio s p'' q'' in
        if is_finite r then Ok r else Raise OverflowError
  | _ => Ok x
  end.

(** *** [str(x)]: the shortest decimal string that reads back as [x] *)

Definition str_of_Z (z : Z) : string := NilZero.string_of_int (Z.to_int z).

Fixpoint ilog10_up (fuel : nat) (p q t : Z) : Z :=
  match fuel with
  | O => t
  | S fuel' =>
      let '(a, b) := scale10 p q (- (t + 1)) in
      if b <=? a then ilog10_up fuel' p q (t + 1) else t
  end.

(** The largest [t] with [10^t <= p / q] ([0 < p], [0 < q]). *)
Definition ilog10 (p q : Z) : Z :=
  ilog10_up 8 p q ((Z.log2 p - Z.log2 q - 1) * 30103 / 100000 - 1).

Definition reads_back (x : float) (d s : Z) : bool :=
  let '(p, q) := scale10 d 1 s in eqb (of_ratio (sign x) p q) x.

(** Digits [d] and exponent [s] of the shortest decimal [d * 10^s] that
    reads back as [x], the closest to [x] among the shortest; [n] is the
    number of digits tried next and [t = ilog10 |x|]. *)
Fixpoint shortest_go (fuel : nat) (x : float) (p q t n : Z) : Z * Z :=
  let s := t - (n - 1) in
  let '(a, b) := scale10 p q (- s) in
  let lo := a / b in
  let hi := lo + 1 in
  let nearest := rnd_half_even a b in
  match fuel with
  | O => (nearest, s)
  | S fuel' =>
      match reads_back x lo s, reads_back x hi s with
      | true, true => (nearest, s)
      | true, false => (lo, s)
      | false, true => (hi, s)
      | false, false => shortest_go fuel' x p q t (n + 1)
      end
  end.

Fixpoint strip_zeros (fuel : nat) (d s : Z) : Z * Z :=
  match fuel with
  | O => (d, s)
  | S fuel' =>
      if (d mod 10 =? 0) && negb (d =? 0) then strip_zeros fuel' (d / 10) (s + 1)
      else (d, s)
  end.

Definition shortest (x : float) : Z * Z :=
  let '(p, q) := abs_ratio x in
  let '(d, s) := shortest_go 16 x p q (ilog10 p q) 1 in
  strip_zeros 20 d s.

Fixpoint zeros (n : nat) : string :=
  match n with
  | O => ""
  | S n' => String "0" (zeros n')
  end.

Definition exponent_str (e : Z) : string :=
  let a := str_of_Z (Z.abs e) in
  (if e <? 0 then "-" else "+") +:+ (if Z.abs e <? 10 then "0" else "") +:+ a.

Definition repr_finite (x : float) : string :=
  let '(d, s) := shortest x in
  let ds := str_of_Z d in
  let nd := Z.of_nat (String.length ds) in
  let decpt := nd + s in
  if (decpt <=? -4) || (16 <? decpt) then
    substring 0 1 ds
    +:+ (if 1 <? nd then "." +:+ substring 1 (Z.to_nat (nd - 1)) ds else "")
    +:+ "e" +:+ exponent_str (decpt - 1)
  else if decpt <=? 0 then "0." +:+ zeros (Z.to_nat (- decpt)) +:+ ds
  else if nd <=? decpt then ds +:+ zeros (Z.to_nat (decpt - nd)) +:+ ".0"
  else substring 0 (Z.to_nat decpt) ds
       +:+ "." +:+ substring (Z.to_nat decpt) (Z.to_nat (nd - decpt)) ds.

Definition repr (x : float) : string :=
  match x with
  | S754_nan => "nan"
  | S754_infinity s => if s then "-inf" else "inf"
  | S754_zero s => if s then "-0.0" else "0.0"
  | S754_finite s _ _ => (if s then "-" else "") +:+ repr_finite x
  end.

End Float.

(** ** Python values

    The values that [json.load] produces: a tile record is a [dict] with
    string keys. *)

Inductive pyval :=
| PNone
| PBool (b : bool)
| PInt (z : Z)
| PFloat (f : Float.float)
| PStr (s : string)
| PList (l : list pyval)
| PDict (d : gmap string pyval).

Abbreviation tile := (gmap string pyval).

(** Conversions of the interpreter that the embedding leaves abstract:
    [float(s)] and [int(s)] of a [str] ([None] stands for [ValueError]) and
    [str] of a container. *)
Class PyRuntime := {
  float_of_str : string -> option Float.float;
  int_of_str : string -> option Z;
  str_of_list : list pyval -> string;
  str_of_dict : gmap string pyval -> string;
}.

(** Truth value of an object, as tested by [not], [or] and [if]. *)
Definition truthy (v : pyval) : bool :=
  match v with
  | PNone => false
  | PBool b => b
  | PInt z => negb (z =? 0)
  | PFloat f => negb (Float.is_zero f)
  | PStr s => negb (String.eqb s "")
  | PList l => match l with [] => false | _ => true end
  | PDict d => negb (bool_decide (d = ∅))
  end.

(** [d.get(key, dflt)] on a dict. *)
Definition dict_get (d : gmap string pyval) (key : string) (dflt : pyval) : pyval :=
  default dflt (d !! key).

(** [v.get(key, dflt)] on any object: only dicts have the method. *)
Definition py_get (v : pyval) (key : string) (dflt : pyval) : result pyval :=
  match v with
  | PDict d => Ok (dict_get d key dflt)
  | _ => Raise AttributeError
  end.

Section Codec.
Context `{PyRuntime}.

(** [float(v)] *)
Definition py_float (v : pyval) : result Float.float :=
  match v with
  | PFloat f => Ok f
  | PInt z =>
      let f := Float.of_Z z in
      if Float.is_finite f then Ok f else Raise OverflowError
  | PBool b => Ok (Float.of_Z (if b then 1 else 0))
  | PStr s =>
      match float_of_str s with
      | Some f => Ok f
      | None => Raise ValueError
      end
  | PNone | PList _ | PDict _ => Raise TypeError
  end.

(** [int(v)] *)
Definition py_int (v : pyval) : result Z :=
  match v with
  | PInt z => Ok z
  | PBool b => Ok (if b then 1 else 0)
  | PFloat f =>
      match f with
      | S754_nan => Raise ValueError
      | S754_infinity _ => Raise OverflowError
      | _ => Ok (Float.trunc f)
      end
  | PStr s =>
      match int_of_str s with
      | Some z => Ok z
      | None => Raise ValueError
      end
  | PNone | PList _ | PDict _ => Raise TypeError
  end.

(** [str(v)], which is what an f-string field [{v}] prints. *)
Definition py_str (v : pyval) : string :=
  match v with
  | PNone => "None"
  | PBool b => if b then "True" else "False"
  | PInt z => Float.str_of_Z z
  | PFloat f => Float.repr f
  | PStr s => s
  | PList l => str_of_list l
  | PDict d => str_of_dict d
  end.

(** [round_number(num, decimals)]; every call site leaves [decimals] at
    its default, 2. *)
Definition round_number (num : pyval) (decimals : Z) : result string :=
  x ← py_float num;
  rounded ← Float.round x decimals;
  i ← py_int (PFloat rounded);
  if Float.eq_Z rounded i then Ok (py_str (PInt i))
  else Ok (py_str (PFloat rounded)).

(** [tile.get('panoId') or tile.get('extra', {}).get('panoId')] *)
Definition lookup_pano_id (t : tile) : result pyval :=
  let top := dict_get t "panoId" PNone in
  if truthy top then Ok top
  else py_get (dict_get t "extra" (PDict ∅)) "panoId" PNone.

Definition fallback_date : string := "2024-01".

(** [create_new_filename(tile)]; the warning printed when the date is
    missing is not part of the result. *)
Definition create_new_filename (t : tile) : result string :=
  pano_id ← lookup_pano_id t;
  if negb (truthy pano_id) then Raise ValueError
  else
    date ← py_get (dict_get t "extra" (PDict ∅)) "panoDate" (PStr fallback_date);
    let date := if negb (truthy date) then PStr fallback_date else date in
    heading ← round_number (dict_get t "heading" (PInt 0)) 2;
    pitch ← round_number (dict_get t "pitch" (PInt 0)) 2;
    zoom ← py_int (dict_get t "zoom" (PInt 0));
    Ok (py_str pano_id +:+ "~d" +:+ py_str date +:+ "~h" +:+ heading
        +:+ "~p" +:+ pitch +:+ "~z" +:+ py_str (PInt zoom) +:+ ".jpg").

End Codec.

(** [s.replace(old, new)]: every occurrence of [old], scanning from the
    left without overlap. *)
Fixpoint replace_go (old new : string) (skip : nat) (s : string) : string :=
  match s with
  | EmptyString => EmptyString
  | String c s' =>
      match skip with
      | S k => replace_go old new k s'
      | O =>
          if String.prefix old s
          then new +:+ replace_go old new (Nat.pred (String.length old)) s'
          else String c (replace_go old new O s')
      end
  end.

Fixpoint interleave (new s : string) : string :=
  match s with
  | EmptyString => EmptyString
  | String c s' => String c (new +:+ interleave new s')
  end.

Definition py_replace (s old new : string) : string :=
  match old with
  | EmptyString => new +:+ interleave new s
  | _ => replace_go old new O s
  end.

(** [base_filename.replace('.jpg', '~thumb.jpg')] *)
Definition thumb_filename (base_filename : string) : string :=
  py_replace base_filename ".jpg" "~thumb.jpg".

(** ** The world of the asynchronous functions

    The program awaits its coroutines one after the other, so a run is a
    sequence of calls to the outside (network, browser, disk), each answered
    by the environment.  The world records the names present in the image
    directory, the browsers waiting in the pool's queue and the calls made
    so far, the most recent first; what is printed is collected
    separately. *)

Definition browser := nat.

Inductive http_response :=
| HttpResponse (status_code : Z) (content_type : string) (content : string).

(** The query arguments given to [download.html]. *)
Record render_params := RenderParams {
  rp_key : string;
  rp_heading : pyval;
  rp_pitch : pyval;
  rp_zoom : pyval;
  rp_pano : pyval;
}.

(** A puzzle file as [json.load] returns it: a list of tile records, or a
    dict whose recognised keys hold such a list. *)
Inductive puzzle_json :=
| JsonList (tiles : list tile)
| JsonDict (fields : gmap string (list tile)).

Inductive call : Type -> Type :=
| HttpGet (url : string) : call http_response
| WriteFile (name : string) : call unit
| OpenImage (name : string) : call bool
| SaveThumb (name : string) : call unit
| Launch : call browser
| CloseBrowser (b : browser) : call unit
| NewPage (b : browser) : call unit
| SetViewportSize : call unit
| Goto (port : Z) (params : render_params) : call unit
| WaitForSelector : call unit
| WaitForFunction : call unit
| QuerySelector : call bool
| Screenshot (name : string) : call unit
| ClosePage : call unit
| LoadJson (file : string) : call puzzle_json
| Mkdir : call unit.

Inductive event :=
| Called {R : Type} (c : call R) (r : result R).

(** What the environment answers to a call, given the calls before it
    (the most recent first), whether a write that fails leaves a file
    behind, and the [OSError] that [Path.exists] lets through for a name
    the file system refuses to look up (a name longer than it allows,
    say); [exists] swallows the error of a name that is merely absent. *)
Record env := {
  reply : forall R, list event -> call R -> result R;
  partial_write : list event -> string -> bool;
  exists_error : string -> option exn;
}.
Arguments reply _ {R} _ _.

Inductive message :=
| MsgHttpStatus (status_code : Z)
| MsgNotAnImage (content_type : string)
| MsgRequestError (e : exn)
| MsgNoDirectDownload
| MsgNoPanoId
| MsgNoPanoDate
| MsgDirectSaveError (e : exn)
| MsgDirectFailed
| MsgMissingPanoId
| MsgNavigationFailed (e : exn)
| MsgMayNotHaveLoaded (e : exn)
| MsgFilenameError (e : exn)
| MsgDarkScreenshot
| MsgNoPanoElement
| MsgDownloadError (e : exn)
| MsgSkippingTile
| MsgThumbError (e : exn)
| MsgUnknownStructure
| MsgNoTiles
| MsgAllExist
| MsgFileError (file : string) (e : exn)
| MsgSaved (full thumb : string)
| MsgGenerated (thumb : string).

Record world := World {
  files : gset string;
  available : list browser;
  trace : list event;
}.

Inductive outcome (A : Type) :=
| Done (a : A)
| Throw (e : exn)
| Hang.
Arguments Done {A} a.
Arguments Throw {A} e.
Arguments Hang {A}.

Definition M (A : Type) : Type := world -> outcome A * world * list message.

#[global] Instance M_ret : MRet M := fun _ a w => (Done a, w, []).
#[global] Instance M_bind : MBind M := fun _ _ f m w =>
  let '(o, w1, out1) := m w in
  match o with
  | Done a => let '(o2, w2, out2) := f a w1 in (o2, w2, out1 ++ out2)
  | Throw e => (Throw e, w1, out1)
  | Hang => (Hang, w1, out1)
  end.

Definition throw {A} (e : exn) : M A := fun w => (Throw e, w, []).

Definition lift {A} (r : result A) : M A :=
  match r with
  | Ok a => mret a
  | Raise e => throw e
  end.

Definition print (m : message) : M unit := fun w => (Done tt, w, [m]).

(** [try: body except Exception as e: handler e] *)
Definition try_except {A} (body : M A) (handler : exn -> M A) : M A := fun w =>
  let '(o, w1, out1) := body w in
  match o with
  | Throw e => let '(o2, w2, out2) := handler e w1 in (o2, w2, out1 ++ out2)
  | _ => (o, w1, out1)
  end.

(** [try: body finally: fin]: [fin] runs however [body] ends; what [body]
    returned or raised stands unless [fin] raises itself. *)
Definition try_finally {A} (body : M A) (fin : M unit) : M A := fun w =>
  let '(o, w1, out1) := body w in
  match o with
  | Hang => (Hang, w1, out1)
  | _ =>
      let '(o2, w2, out2) := fin w1 in
      (match o2 with
       | Done _ => o
       | Throw e => Throw e
       | Hang => Hang
       end, w2, out1 ++ out2)
  end.

(** Names that a call leaves in the image directory. *)
Definition written {R} (c : call R) : option string :=
  match c with
  | WriteFile name | SaveThumb name | Screenshot name => Some name
  | _ => None
  end.

Section Effects.
Context (E : env).

Definition perform {R} (c : call R) : M R := fun w =>
  let r := reply E (trace w) c in
  let fs :=
    match written c with
    | Some name =>
        if is_ok r || partial_write E (trace w) name
        then {[name]} ∪ files w else files w
    | None => files w
    end in
  let w' := World fs (available w) (Called c r :: trace w) in
  (match r with Ok a => Done a | Raise e => Throw e end, w', []).

(** [(output_dir / name).exists()]: [True] for a name of the directory;
    for another name [False], unless the file system refuses the name and
    the [OSError] of [stat] comes through. *)
Definition exists_file (name : string) : M bool := fun w =>
  if bool_decide (name ∈ files w) then (Done true, w, [])
  else
    match exists_error E name with
    | Some e => (Throw e, w, [])
    | None => (Done false, w, [])
    end.

(** *** [BrowserPool] over an [asyncio.Queue] *)

(** [await self.available.get()]: with nothing queued the caller waits,
    and no other task is there to put a browser back. *)
Definition get_browser : M browser := fun w =>
  match available w with
  | b :: rest => (Done b, World (files w) rest (trace w), [])
  | [] => (Hang, w, [])
  end.

(** [await self.available.put(browser)] *)
Definition return_browser (b : browser) : M unit := fun w =>
  (Done tt, World (files w) (available w ++ [b]) (trace w), []).

Fixpoint initialize (max_browsers : nat) : M (list browser) :=
  match max_browsers with
  | O => mret []
  | S n =>
      b ← perform Launch;
      _ ← return_browser b;
      bs ← initialize n;
      mret (b :: bs)
  end.

Fixpoint close_all (browsers : list browser) : M unit :=
  match browsers with
  | [] => mret tt
  | b :: bs => _ ← perform (CloseBrowser b); close_all bs
  end.

End Effects.

(** ** Acquisition: direct download, then the browser *)

(** [needle in s] for two strings, as in ['image' in content_type] *)
Fixpoint contains (needle s : string) : bool :=
  String.prefix needle s
  || match s with
     | EmptyString => false
     | String _ s' => contains needle s'
     end.

(** A key that is in the dict with a value that is neither [None] nor
    falsy. *)
Definition present_and_truthy (d : gmap string pyval) (key : string) : option pyval :=
  match d !! key with
  | Some PNone => None
  | Some v => if truthy v then Some v else None
  | None => None
  end.

(** The identifier as [download_pano_image] and [process_json_file_async]
    look it up: the top-level field, else [extra.panoId] when [extra] is a
    dict. *)
Definition careful_pano_id (t : tile) : option pyval :=
  match present_and_truthy t "panoId" with
  | Some v => Some v
  | None =>
      match t !! "extra" with
      | Some (PDict extra) => present_and_truthy extra "panoId"
      | _ => None
      end
  end.

Section Download.
Context `{PyRuntime} (E : env).

Definition direct_url (pano_id : pyval) (heading pitch : string) (zoom : Z)
    (date : pyval) : string :=
  "https://geonections.com/pano/img/" +:+ py_str pano_id +:+ "~d" +:+ py_str date
  +:+ "~h" +:+ heading +:+ "~p" +:+ pitch +:+ "~z" +:+ py_str (PInt zoom) +:+ ".jpg".

(** The loop of [try_direct_download] over [test_urls]. *)
Fixpoint try_urls (test_urls : list string) : M (option (string * string)) :=
  match test_urls with
  | [] => _ ← print MsgNoDirectDownload; mret None
  | url :: rest =>
      found ← try_except
        (response ← perform E (HttpGet url);
         let '(HttpResponse status_code content_type content) := response in
         if status_code =? 200 then
           if contains "image" content_type then mret (Some (url, content))
           else _ ← print (MsgNotAnImage content_type); mret None
         else _ ← print (MsgHttpStatus status_code); mret None)
        (fun e => _ ← print (MsgRequestError e); mret None);
      match found with
      | Some r => mret (Some r)
      | None => try_urls rest
      end
  end.

Definition try_direct_download (pano_id : pyval) (heading pitch : string)
    (zoom : Z) (date : pyval) : M (option (string * string)) :=
  let test_urls := [direct_url pano_id heading pitch zoom date] in
  try_urls test_urls.

Definition download_pano_image_direct (t : tile) : M (option (list string)) :=
  pano_id ← lift (lookup_pano_id t);
  if negb (truthy pano_id) then _ ← print MsgNoPanoId; mret None
  else
    heading ← lift (round_number (dict_get t "heading" (PInt 0)) 2);
    pitch ← lift (round_number (dict_get t "pitch" (PInt 0)) 2);
    zoom ← lift (py_int (dict_get t "zoom" (PInt 0)));
    date ← lift (py_get (dict_get t "extra" (PDict ∅)) "panoDate" (PStr fallback_date));
    date ← (if negb (truthy date)
            then _ ← print MsgNoPanoDate; mret (PStr fallback_date)
            else mret date);
    found ← try_direct_download pano_id heading pitch zoom date;
    match found with
    | Some (url, content) =>
        if truthy (PStr url) && truthy (PStr content) then
          try_except
            (base_filename ← lift (create_new_filename t);
             let full_filename := base_filename in
             let thumb_filename := thumb_filename base_filename in
             _ ← perform E (WriteFile full_filename);
             _ ← perform E (OpenImage full_filename);
             _ ← perform E (SaveThumb thumb_filename);
             _ ← print (MsgSaved full_filename thumb_filename);
             mret (Some [full_filename; thumb_filename]))
            (fun e => _ ← print (MsgDirectSaveError e); mret None)
        else mret None
    | None => mret None
    end.

(** The body of the [try] block of [download_pano_image] once the page
    exists. *)
Definition render_and_capture (t : tile) (api_key : string) (http_port : Z)
    : M (option (list string)) :=
  _ ← perform E SetViewportSize;
  let params := RenderParams api_key (dict_get t "heading" (PInt 0))
                  (dict_get t "pitch" (PInt 0)) (dict_get t "zoom" (PInt 0)) in
  match careful_pano_id t with
  | None => _ ← print MsgMissingPanoId; throw ValueError
  | Some pano_id =>
      navigated ← try_except
        (_ ← perform E (Goto http_port (params pano_id)); mret true)
        (fun e => _ ← print (MsgNavigationFailed e); mret false);
      if negb navigated then mret None
      else
        _ ← perform E WaitForSelector;
        _ ← try_except (perform E WaitForFunction)
              (fun e => print (MsgMayNotHaveLoaded e));
        names ← try_except
          (base_filename ← lift (create_new_filename t);
           mret (Some (base_filename, thumb_filename base_filename)))
          (fun e => _ ← print (MsgFilenameError e); mret None);
        match names with
        | None => mret None
        | Some (full_filename, thumb_filename) =>
            pano_element ← perform E QuerySelector;
            if (pano_element : bool) then
              _ ← perform E (Screenshot full_filename);
              dark ← perform E (OpenImage full_filename);
              _ ← (if (dark : bool) then print MsgDarkScreenshot else mret tt);
              _ ← perform E (SaveThumb thumb_filename);
              _ ← print (MsgSaved full_filename thumb_filename);
              mret (Some [full_filename; thumb_filename])
            else _ ← print MsgNoPanoElement; mret None
        end
  end.

Definition on_download_error (e : exn) : M (option (list string)) :=
  _ ← print (MsgDownloadError e); mret None.

(** The [finally] clause: [await page.close()] and then
    [await browser_pool.return_browser(browser)].  The local [page] is
    bound only when [browser.new_page()] has returned. *)
Definition release (page_bound : bool) (b : browser) : M unit :=
  _ ← (if page_bound then perform E ClosePage else throw UnboundLocalError);
  return_browser b.

(** The fallback of [download_pano_image], from
    [browser = await browser_pool.get_browser()] on. *)
Definition browser_method (t : tile) (api_key : string) (http_port : Z)
    : M (option (list string)) :=
  b ← get_browser;
  page ← try_except (A := result unit)
            (_ ← perform E (NewPage b); mret (Ok tt))
            (fun e => mret (Raise e));
  match page with
  | Ok _ =>
      try_finally
        (try_except (render_and_capture t api_key http_port) on_download_error)
        (release true b)
  | Raise e =>
      try_finally (on_download_error e) (release false b)
  end.

Definition download_pano_image (t : tile) (api_key : string) (http_port : Z)
    (skip_direct_download : bool) : M (option (list string)) :=
  direct_result ←
    (if negb skip_direct_download then download_pano_image_direct t
     else mret None);
  match direct_result with
  | Some (f :: fs) => mret (Some (f :: fs))
  | _ =>
      _ ← (if negb skip_direct_download then print MsgDirectFailed else mret tt);
      browser_method t api_key http_port
  end.

End Download.

(** ** Processing a puzzle file (local disk) *)

(** The tiles of a puzzle file: the list itself, or what is under the
    first of the recognised keys. *)
Definition extract_tiles (data : puzzle_json) : option (list tile) :=
  match data with
  | JsonList tiles => Some tiles
  | JsonDict d =>
      match d !! "customCoordinates" with
      | Some tiles => Some tiles
      | None =>
          match d !! "tiles" with
          | Some tiles => Some tiles
          | None => d !! "data"
          end
      end
  end.

Section Process.
Context `{PyRuntime} (E : env).
Context (api_key : string) (http_port : Z) (skip_direct_download : bool).

(** The first loop of [process_json_file_async]: which tiles need a
    download and which only a thumbnail. *)
Fixpoint classify (tiles needed_tiles thumb_only_tiles : list tile)
    : M (list tile * list tile) :=
  match tiles with
  | [] => mret (needed_tiles, thumb_only_tiles)
  | t :: rest =>
      match careful_pano_id t with
      | None =>
          _ ← print MsgSkippingTile;
          classify rest needed_tiles thumb_only_tiles
      | Some _ =>
          match create_new_filename t with
          | Raise e =>
              _ ← print (MsgFilenameError e);
              classify rest needed_tiles thumb_only_tiles
          | Ok base_filename =>
              full_exists ← exists_file E base_filename;
              thumb_exists ← exists_file E (thumb_filename base_filename);
              if negb full_exists && negb thumb_exists then
                classify rest (needed_tiles ++ [t]) thumb_only_tiles
              else if negb full_exists && thumb_exists then
                classify rest (needed_tiles ++ [t]) thumb_only_tiles
              else if full_exists && negb thumb_exists then
                classify rest needed_tiles (thumb_only_tiles ++ [t])
              else classify rest needed_tiles thumb_only_tiles
          end
      end
  end.

(** [for tile in needed_tiles: downloaded.extend(...)] *)
Fixpoint download_needed (needed_tiles : list tile) (downloaded : list string)
    : M (list string) :=
  match needed_tiles with
  | [] => mret downloaded
  | t :: rest =>
      filenames ← download_pano_image E t api_key http_port skip_direct_download;
      match filenames with
      | Some (f :: fs) => download_needed rest (downloaded ++ f :: fs)
      | _ => download_needed rest downloaded
      end
  end.

(** [for tile in thumb_only_tiles: ...] *)
Fixpoint generate_thumbs (thumb_only_tiles : list tile) (downloaded : list string)
    : M (list string) :=
  match thumb_only_tiles with
  | [] => mret downloaded
  | t :: rest =>
      made ← try_except
        (base_filename ← lift (create_new_filename t);
         let thumb := thumb_filename base_filename in
         _ ← perform E (OpenImage base_filename);
         _ ← perform E (SaveThumb thumb);
         _ ← print (MsgGenerated thumb);
         mret (Some thumb))
        (fun e =>
           let top := dict_get t "panoId" PNone in
           _ ← lift (if truthy top then Ok top
                     else py_get (dict_get t "extra" (PDict ∅)) "panoId" (PStr "unknown"));
           _ ← print (MsgThumbError e);
           mret None);
      match made with
      | Some thumb => generate_thumbs rest (downloaded ++ [thumb])
      | None => generate_thumbs rest downloaded
      end
  end.

Definition process_tiles (tiles : list tile) : M (list string) :=
  _ ← perform E Mkdir;
  '(needed_tiles, thumb_only_tiles) ← classify tiles [] [];
  match needed_tiles, thumb_only_tiles with
  | [], [] => _ ← print MsgAllExist; mret []
  | _, _ =>
      downloaded ← download_needed needed_tiles [];
      generate_thumbs thumb_only_tiles downloaded
  end.

Definition process_json_file_async (json_file : string) : M (list string) :=
  try_except
    (data ← perform E (LoadJson json_file);
     match extract_tiles data with
     | None => _ ← print MsgUnknownStructure; mret []
     | Some [] => _ ← print MsgNoTiles; mret []
     | Some tiles => process_tiles tiles
     end)
    (fun e => _ ← print (MsgFileError json_file e); mret []).

(** The loop of [main_async] over the puzzle files. *)
Fixpoint process_all (json_files : list string) (all_downloaded : list string)
    : M (list string) :=
  match json_files with
  | [] => mret all_downloaded
  | json_file :: rest =>
      result ← try_except (process_json_file_async json_file)
                 (fun e => _ ← print (MsgFileError json_file e); mret []);
      process_all rest (all_downloaded ++ result)
  end.

(** [main_async] from the creation of the pool on. *)
Definition run_batch (max_browsers : nat) (json_files : list string)
    : M (list string) :=
  browsers ← initialize E max_browsers;
  try_finally (process_all json_files []) (close_all E browsers).

End Process.

(** ** Reconciliation: [dry_run] and [prune_orphaned_images] *)

Section Reconciliation.
Context `{PyRuntime}.

(** The loop that fills [expected_files] from the tiles of one file.  The
    set is shared by all files: when the lookup of the identifier raises,
    the rest of the file is given up and what was added stays. *)
Fixpoint add_expected (tiles : list tile) (expected_files : gset string)
    : gset string * option exn :=
  match tiles with
  | [] => (expected_files, None)
  | t :: rest =>
      match lookup_pano_id t with
      | Raise e => (expected_files, Some e)
      | Ok pano_id =>
          if negb (truthy pano_id) then add_expected rest expected_files
          else
            match create_new_filename t with
            | Ok expected_filename =>
                add_expected rest
                  ({[thumb_filename expected_filename]}
                   ∪ ({[expected_filename]} ∪ expected_files))
            | Raise _ => add_expected rest expected_files
            end
      end
  end.

(** The loop over the puzzle files; a file that cannot be read, or whose
    structure is not recognised, adds nothing. *)
Fixpoint scan_puzzles (puzzles : list (result puzzle_json))
    (expected_files : gset string) : gset string :=
  match puzzles with
  | [] => expected_files
  | Raise _ :: rest => scan_puzzles rest expected_files
  | Ok data :: rest =>
      let tiles := default [] (extract_tiles data) in
      scan_puzzles rest (fst (add_expected tiles expected_files))
  end.

(** [missing_files = expected_files - actual_files] *)
Definition missing_files (expected_files actual_files : gset string) : gset string :=
  expected_files ∖ actual_files.

(** [orphaned_files = actual_files - expected_files] in [dry_run]. *)
Definition orphaned_files (expected_files actual_files : gset string) : gset string :=
  actual_files ∖ expected_files.

(** The loop of [prune_orphaned_images] over the names found on disk. *)
Fixpoint prune_orphans (actual_files : list string) (expected_files : gset string)
    (orphaned : list string) : list string :=
  match actual_files with
  | [] => orphaned
  | filename :: rest =>
      if bool_decide (filename ∈ expected_files)
      then prune_orphans rest expected_files orphaned
      else prune_orphans rest expected_files (orphaned ++ [filename])
  end.

End Reconciliation.

(** ** The browser pool shared by several callers *)

Module Pool.

Definition task := nat.

Inductive status :=
| Idle
| Waiting
| Woken
| Holding (b : browser).

(** Modelled from the spec: [asyncio.Queue], which [BrowserPool] uses and
    the repository does not define.  Acquire suspends the caller until an
    instance becomes available; release makes it available to the next
    waiter.  [items] are the queued browsers, [getters] the suspended
    callers in arrival order, and a caller that was woken looks at the
    queue again when it runs. *)
Record queue := Queue {
  items : list browser;
  getters : list task;
}.

Record state := State {
  available : queue;
  callers : task -> status;
}.

Definition set_status (st : task -> status) (t : task) (s : status) : task -> status :=
  fun t' => if Nat.eqb t' t then s else st t'.

(** [BrowserPool(max_browsers)] after [initialize]: the browsers
    [0 .. max_browsers - 1] are queued and nobody waits. *)
Definition initialize (max_browsers : nat) : state :=
  State (Queue (seq 0 max_browsers) []) (fun _ => Idle).

Inductive action :=
| GetBrowser (t : task)
| ReturnBrowser (t : task)
| Resume (t : task).

(** [take t s]: caller [t] runs the loop of [Queue.get]: it takes the
    first item, or suspends at the end of the getters. *)
Definition take (t : task) (s : state) : state :=
  match items (available s) with
  | b :: rest =>
      State (Queue rest (getters (available s)))
            (set_status (callers s) t (Holding b))
  | [] =>
      State (Queue [] (getters (available s) ++ [t]))
            (set_status (callers s) t Waiting)
  end.

(** One step of the pool; [None] when the caller cannot take the action
    in its current status. *)
Definition step (a : action) (s : state) : option state :=
  match a with
  | GetBrowser t =>
      match callers s t with
      | Idle => Some (take t s)
      | _ => None
      end
  | ReturnBrowser t =>
      match callers s t with
      | Holding b =>
          let st := set_status (callers s) t Idle in
          match getters (available s) with
          | g :: gs =>
              Some (State (Queue (items (available s) ++ [b]) gs)
                          (set_status st g Woken))
          | [] =>
              Some (State (Queue (items (available s) ++ [b]) []) st)
          end
      | _ => None
      end
  | Resume t =>
      match callers s t with
      | Woken => Some (take t s)
      | _ => None
      end
  end.

Fixpoint run (acts : list action) (s : state) : option state :=
  match acts with
  | [] => Some s
  | a :: rest =>
      match step a s with
      | Some s' => run rest s'
      | None => None
      end
  end.

Definition holds (s : state) (t : task) : option browser :=
  match callers s t with
  | Holding b => Some b
  | _ => None
  end.

(** The browsers that the callers [ts] hold. *)
Definition handed_out (s : state) (ts : list task) : list browser :=
  omap (holds s) ts.

(** The scenario of three pending [get_browser] calls. *)
Definition three_acquires : list action :=
  [GetBrowser 0%nat; GetBrowser 1%nat; GetBrowser 2%nat].

(** Every browser is in one place: queued once, or held by one caller. *)
Record pool_inv (n : nat) (s : state) : Prop := PoolInv {
  inv_queue : NoDup (items (available s));
  inv_range : forall b, b ∈ items (available s) -> (b < n)%nat;
  inv_held : forall t b, holds s t = Some b -> (b < n)%nat /\ b ∉ items (available s);
  inv_owner : forall t t' b, holds s t = Some b -> holds s t' = Some b -> t = t';
}.

(** While nobody returns a browser to the emptied pool of the scenario,
    nothing is queued, nobody is woken, only the first two callers hold
    a browser and the third one waits. *)
Record starved (s : state) : Prop := Starved {
  starved_items : items (available s) = [];
  starved_woken : forall t, callers s t <> Woken;
  starved_held : forall t b, holds s t = Some b -> t = 0%nat \/ t = 1%nat;
  starved_third : callers s 2%nat = Waiting;
}.

End Pool.
(** ** Tile records as the data model types them *)

(** A runtime that reads no [str] as a number, for closed examples. *)
Definition plain_runtime : PyRuntime := {|
  float_of_str := fun _ => None;
  int_of_str := fun _ => None;
  str_of_list := fun _ => "[...]";
  str_of_dict := fun _ => "{...}";
|}.

(** A number of the JSON file that [float] accepts: an int in the range of
    the floats, or a finite float. *)
Definition is_number (v : pyval) : bool :=
  match v with
  | PInt z => Z.abs z <=? Float.max_float
  | PFloat x => Float.valid x && Float.is_finite x
  | _ => false
  end.

(** [k / 100] is a two-decimal number nearest to [|x|]. *)
Definition nearest_hundredth (x : Float.float) (k : Z) : Prop :=
  let '(p, q) := Float.abs_ratio x in
  0 <= k /\ 2 * Z.abs (100 * p - k * q) <= q.

(** A field that holds a non-empty string. *)
Definition field_str (d : gmap string pyval) (key : string) : option string :=
  match d !! key with
  | Some (PStr s) => if String.eqb s "" then None else Some s
  | _ => None
  end.

(** A field that is missing, [null] or a string. *)
Definition optional_str (d : gmap string pyval) (key : string) : bool :=
  match d !! key with
  | None | Some PNone | Some (PStr _) => true
  | _ => false
  end.

Definition extra_of (t : tile) : gmap string pyval :=
  match t !! "extra" with
  | Some (PDict extra) => extra
  | _ => ∅
  end.

(** [extra] is missing or an object. *)
Definition extra_is_object (t : tile) : bool :=
  match t !! "extra" with
  | None | Some (PDict _) => true
  | _ => false
  end.

Definition well_typed (t : tile) : bool :=
  optional_str t "panoId" && extra_is_object t
  && optional_str (extra_of t) "panoId" && optional_str (extra_of t) "panoDate"
  && is_number (dict_get t "heading" (PInt 0))
  && is_number (dict_get t "pitch" (PInt 0))
  && is_number (dict_get t "zoom" (PInt 0)).

(** The identifier of a record: at the top level, else under [extra]. *)
Definition record_pano_id (t : tile) : option string :=
  match field_str t "panoId" with
  | Some s => Some s
  | None => field_str (extra_of t) "panoId"
  end.

(** The capture date of a record; a date that is missing, [null] or
    empty counts as absent. *)
Definition record_date (t : tile) : string :=
  default fallback_date (field_str (extra_of t) "panoDate").

(** The float that a number of the JSON file stands for, and its integer
    part. *)
Definition number_value (v : pyval) : option Float.float :=
  match v with
  | PInt z => Some (Float.of_Z z)
  | PFloat x => Some x
  | _ => None
  end.

Definition integer_part (v : pyval) : option Z :=
  match v with
  | PInt z => Some z
  | PFloat x => Some (Float.trunc x)
  | _ => None
  end.

(** What is printed for [x] rounded to two decimals, [k / 100] being a
    two-decimal number nearest to [|x|]: the float nearest to [k / 100],
    with the sign of [x], as an integer when it is whole and else as the
    shortest decimal that reads back. *)
Definition printed_hundredths (x : Float.float) (k : Z) : string :=
  let r := Float.of_ratio (Float.sign x) k 100 in
  if Float.is_whole r then Float.str_of_Z (Float.trunc r) else Float.repr r.

(** A field that is missing or falsy. *)
Definition lacks (d : gmap string pyval) (key : string) : bool :=
  match d !! key with
  | None => true
  | Some v => negb (truthy v)
  end.

(** No identifier at the top level and none under [extra]. *)
Definition no_pano_id (t : tile) : bool :=
  lacks t "panoId" && lacks (extra_of t) "panoId".

Definition scenario_tile : tile :=
  {[ "panoId" := PStr "ABC123"; "heading" := PInt 90; "pitch" := PInt 0;
     "zoom" := PInt 1; "extra" := PDict {[ "panoDate" := PStr "2023-05" ]} ]}.

(** A record whose identifier contains [.jpg]. *)
Definition dotted_tile : tile := {[ "panoId" := PStr "a.jpg" ]}.

(** A record without a date, with the identifier under [extra], a heading
    of 12.3456, a pitch of -0.499 and a zoom of 2.7. *)
Definition undated_tile : tile :=
  {[ "heading" := PFloat (Float.of_decimal 123456 (-4));
     "pitch" := PFloat (Float.of_decimal (-499) (-3));
     "zoom" := PFloat (Float.of_decimal 27 (-1));
     "extra" := PDict {[ "panoId" := PStr "XYZ" ]} ]}.

(** ** Reading a run *)

(** The names a tile contributes to the expected files: its full name and
    its thumbnail. *)
Definition names_of `{PyRuntime} (t : tile) (name : string) : Prop :=
  exists base, create_new_filename t = Ok base
               /\ (name = base \/ name = thumb_filename base).

(** The existence check of a name returns: the name is in the directory,
    or the file system can look it up. *)
Definition lookup_returns (E : env) (fs : gset string) (name : string) : Prop :=
  name ∈ fs \/ exists_error E name = None.

(** The existence checks of the names of the tiles return. *)
Definition checks_return `{PyRuntime} (E : env) (fs : gset string)
    (tiles : list tile) : Prop :=
  forall t name, t ∈ tiles -> create_new_filename t = Ok name ->
    lookup_returns E fs name /\ lookup_returns E fs (thumb_filename name).


(** The kind of a call, whatever its arguments. *)
Inductive kind :=
| KHttpGet | KWriteFile | KOpenImage | KSaveThumb | KLaunch | KCloseBrowser
| KNewPage | KSetViewportSize | KGoto | KWaitForSelector | KWaitForFunction
| KQuerySelector | KScreenshot | KClosePage | KLoadJson | KMkdir.

#[global] Instance kind_eq_dec : EqDecision kind.
Proof. solve_decision. Defined.

Definition kind_of {R} (c : call R) : kind :=
  match c with
  | HttpGet _ => KHttpGet
  | WriteFile _ => KWriteFile
  | OpenImage _ => KOpenImage
  | SaveThumb _ => KSaveThumb
  | Launch => KLaunch
  | CloseBrowser _ => KCloseBrowser
  | NewPage _ => KNewPage
  | SetViewportSize => KSetViewportSize
  | Goto _ _ => KGoto
  | WaitForSelector => KWaitForSelector
  | WaitForFunction => KWaitForFunction
  | QuerySelector => KQuerySelector
  | Screenshot _ => KScreenshot
  | ClosePage => KClosePage
  | LoadJson _ => KLoadJson
  | Mkdir => KMkdir
  end.

Definition kinds (evs : list event) : list kind :=
  map (fun ev => match ev with Called c _ => kind_of c end) evs.

(** The URLs requested, the most recent first. *)
Definition requests (evs : list event) : list string :=
  omap (fun ev => match ev with
                  | Called (HttpGet url) _ => Some url
                  | _ => None
                  end) evs.

(** The browsers on which a page was asked for. *)
Definition page_requests (evs : list event) : list browser :=
  omap (fun ev => match ev with
                  | Called (NewPage b) _ => Some b
                  | _ => None
                  end) evs.

(** The calls a tier may repeat are none: every kind of call is made at
    most once. *)
Definition no_retry (evs : list event) : Prop := NoDup (kinds evs).

(** An environment in which pages can always be opened and closed. *)
Definition pages_work (E : env) : Prop :=
  forall h, (forall b, is_ok (reply E h (NewPage b)) = true)
            /\ is_ok (reply E h ClosePage) = true.

(** The address of the direct download of a file name. *)
Definition pano_img_url (name : string) : string :=
  "https://geonections.com/pano/img/" +:+ name.

(** Every call of a list of events was answered without an exception. *)
Definition all_ok (evs : list event) : Prop :=
  Forall (fun ev => match ev with Called _ r => is_ok r = true end) evs.

(** Every call was answered without an exception, except perhaps the wait
    for the flag that [download.html] sets. *)
Definition all_ok_but_wait (evs : list event) : Prop :=
  Forall (fun ev => match ev with
                    | Called c r => is_ok r = true \/ kind_of c = KWaitForFunction
                    end) evs.

(** Opening or closing the page raised. *)
Definition page_failed (evs : list event) : Prop :=
  Exists (fun ev => match ev with
                    | Called c r =>
                        is_ok r = false
                        /\ (kind_of c = KNewPage \/ kind_of c = KClosePage)
                    end) evs.

(** The events are calls that the environment [E] answered. *)
Definition answered_by (E : env) (evs : list event) : Prop :=
  Forall (fun ev => match ev with
                    | Called c r => exists h, r = reply E h c
                    end) evs.

(** ** Environments for closed examples *)

(** An environment that answers every request with [http], every
    [new_page] with [page], and in which everything else works; each
    puzzle file holds the scenario tile. *)
Definition env_of (http : result http_response) (page : result unit) : env := {|
  reply := fun R _ (c : call R) =>
    match c in call R return result R with
    | HttpGet _ => http
    | NewPage _ => page
    | Launch => Ok 0%nat
    | OpenImage _ => Ok false
    | QuerySelector => Ok true
    | LoadJson _ => Ok (JsonList [scenario_tile])
    | WriteFile _ | SaveThumb _ | CloseBrowser _ | SetViewportSize | Goto _ _
    | WaitForSelector | WaitForFunction | Screenshot _ | ClosePage | Mkdir => Ok tt
    end;
  partial_write := fun _ _ => false;
  exists_error := fun _ => None;
|}.

(** Everything works and the direct download answers with an image. *)
Definition healthy_env : env :=
  env_of (Ok (HttpResponse 200 "image/jpeg" "JFIF")) (Ok tt).

(** The direct download answers 404 and [browser.new_page()] raises. *)
Definition page_crash_env : env :=
  env_of (Ok (HttpResponse 404 "text/html" "")) (Raise PlaywrightError).

(** An empty image directory and a pool of two browsers. *)
Definition start_world : world := World ∅ [0%nat; 1%nat] [].

(** ** Reading the processing of a file *)

Section Needs.
Context `{PyRuntime}.

(** The name of a tile, when the codec returns one. *)
Definition name_of (t : tile) : option string :=
  match create_new_filename t with
  | Ok name => Some name
  | Raise _ => None
  end.

(** The full image of the tile is not among the files [fs]. *)
Definition needs_download (fs : gset string) (t : tile) : bool :=
  match name_of t with
  | Some name => negb (bool_decide (name ∈ fs))
  | None => false
  end.

(** The full image is there and the thumbnail is not. *)
Definition needs_thumb (fs : gset string) (t : tile) : bool :=
  match name_of t with
  | Some name =>
      bool_decide (name ∈ fs) && negb (bool_decide (thumb_filename name ∈ fs))
  | None => false
  end.

End Needs.

(** The images opened, the most recent first. *)
Definition opened (evs : list event) : list string :=
  omap (fun ev => match ev with
                  | Called (OpenImage name) _ => Some name
                  | _ => None
                  end) evs.

(** The puzzle files read, the most recent first. *)
Definition loads (evs : list event) : list string :=
  omap (fun ev => match ev with
                  | Called (LoadJson file) _ => Some file
                  | _ => None
                  end) evs.

(** ** Numbers that [round_number] prints without a fraction *)

(** The value of a number that is whole: an int, or a finite float
    without a fractional part. *)
Definition whole_value (num : pyval) : option Z :=
  match num with
  | PInt n => Some n
  | PFloat x =>
      if Float.is_finite x && Float.is_whole x then Some (Float.trunc x) else None
  | _ => None
  end.

(** [|x| < 0.005]: a float nearer to zero than to a hundredth. *)
Definition below_half_hundredth (x : Float.float) : Prop :=
  let '(p, q) := Float.abs_ratio x in 200 * p < q.

(** ** The report of [dry_run] *)

(** [s.endswith(suffix)] *)
Fixpoint py_endswith (s suffix : string) : bool :=
  String.eqb s suffix
  || match s with
     | EmptyString => false
     | String _ s' => py_endswith s' suffix
     end.

(** The scan of [replace] is inside a match of [.jpg]: [skip] characters
    of it are still to be passed over. *)
Definition inside_match (skip : nat) (s : string) : Prop :=
  match skip with
  | 0%nat => True
  | 1%nat => String.prefix "g" s = true
  | 2%nat => String.prefix "pg" s = true
  | 3%nat => String.prefix "jpg" s = true
  | _ => False
  end.

Section DryRun.
Context `{PyRuntime}.

(** The loop of [dry_run] over the tiles of one file: as in
    [prune_orphaned_images], and every tile looked at is counted. *)
Fixpoint count_expected (tiles : list tile) (expected_files : gset string)
    (total_tiles : nat) : gset string * nat * option exn :=
  match tiles with
  | [] => (expected_files, total_tiles, None)
  | t :: rest =>
      let total_tiles := S total_tiles in
      match lookup_pano_id t with
      | Raise e => (expected_files, total_tiles, Some e)
      | Ok pano_id =>
          if negb (truthy pano_id) then count_expected rest expected_files total_tiles
          else
            match create_new_filename t with
            | Ok expected_filename =>
                count_expected rest
                  ({[thumb_filename expected_filename]}
                   ∪ ({[expected_filename]} ∪ expected_files)) total_tiles
            | Raise _ => count_expected rest expected_files total_tiles
            end
      end
  end.

(** The loop of [dry_run] over the puzzle files. *)
Fixpoint dry_run_scan (puzzles : list (result puzzle_json))
    (expected_files : gset string) (total_tiles : nat) : gset string * nat :=
  match puzzles with
  | [] => (expected_files, total_tiles)
  | Raise _ :: rest => dry_run_scan rest expected_files total_tiles
  | Ok data :: rest =>
      let tiles := default [] (extract_tiles data) in
      let '(expected_files, total_tiles, _) :=
        count_expected tiles expected_files total_tiles in
      dry_run_scan rest expected_files total_tiles
  end.

(** What [dry_run] prints: the numbers of its summary. *)
Record dry_run_report := DryRunReport {
  dr_expected : gset string;
  dr_total_tiles : nat;
  dr_actual : gset string;
  dr_missing : gset string;
  dr_missing_full : nat;
  dr_missing_thumb : nat;
  dr_orphaned : gset string;
}.

(** [dry_run()], given what [json.load] returns for each puzzle file and
    the names of the [*.jpg] files in the image directory; without puzzle
    files there is no report. *)
Definition dry_run (puzzles : list (result puzzle_json)) (actual_files : gset string)
    : option dry_run_report :=
  match puzzles with
  | [] => None
  | _ =>
      let '(expected_files, total_tiles) := dry_run_scan puzzles ∅ 0 in
      let missing := missing_files expected_files actual_files in
      let missing_full :=
        length (List.filter (fun f => negb (py_endswith f "~thumb.jpg")) (elements missing)) in
      let missing_thumb :=
        length (List.filter (fun f => py_endswith f "~thumb.jpg") (elements missing)) in
      Some (DryRunReport expected_files total_tiles actual_files missing
              missing_full missing_thumb (orphaned_files expected_files actual_files))
  end.

End DryRun.

(** ** What a computation calls *)

(** Every call that [m] makes, from whatever world, is of one of the
    kinds [ks]. *)
Definition calls_only {A} (ks : list kind) (m : M A) : Prop :=
  forall w, exists evs, trace (m w).1.2 = evs ++ trace w /\ Forall (.∈ ks) (kinds evs).

(** The calls of the direct download, of the making of a thumbnail, of
    the rendering in a page, and of the processing of the puzzle files. *)
Definition direct_kinds : list kind := [KHttpGet; KWriteFile; KOpenImage; KSaveThumb].
Definition thumb_kinds : list kind := [KOpenImage; KSaveThumb].
Definition page_kinds : list kind :=
  [KNewPage; KSetViewportSize; KGoto; KWaitForSelector; KWaitForFunction;
   KQuerySelector; KScreenshot; KOpenImage; KSaveThumb; KClosePage].
Definition processing_kinds : list kind :=
  [KLoadJson; KMkdir] ++ direct_kinds ++ page_kinds.

(** The browsers launched and the browsers closed, the most recent
    first. *)
Definition launched (evs : list event) : list browser :=
  omap (fun ev => match ev with
                  | Called Launch (Ok b) => Some b
                  | _ => None
                  end) evs.

Definition closed (evs : list event) : list browser :=
  omap (fun ev => match ev with
                  | Called (CloseBrowser b) _ => Some b
                  | _ => None
                  end) evs.

(** Launching and closing browsers always works. *)
Definition browsers_work (E : env) : Prop :=
  forall h, is_ok (reply E h Launch) = true
            /\ forall b, is_ok (reply E h (CloseBrowser b)) = true.

(** The first browser is launched and the launch of the second one
    raises; everything else is as in [healthy_env]. *)
Definition second_launch_fails_env : env := {|
  reply := fun R h (c : call R) =>
    match c in call R return result R with
    | Launch => match h with [] => Ok 0%nat | _ => Raise PlaywrightError end
    | c => reply healthy_env h c
    end;
  partial_write := fun _ _ => false;
  exists_error := fun _ => None;
|}.
(** ** A single panorama: [process_single_pano] *)

(** [v == pano_id] for the string given on the command line. *)
Definition py_eq_str (v : pyval) (s : string) : bool :=
  match v with
  | PStr s' => String.eqb s' s
  | _ => false
  end.

(** [if tile:] for the tile found so far, [None] or a dict. *)
Definition tile_truthy (found : option tile) : bool :=
  match found with
  | Some t => truthy (PDict t)
  | None => false
  end.

(** How [process_single_pano] ends; the function returns nothing, and
    the value stands for the last thing it prints. *)
Inductive single_end :=
| NotFound
| ViaDirect (filenames : list string)
| ViaBrowser (filenames : list string)
| BothFailed
| NoApiKey.

Section Single.
Context `{PyRuntime} (E : env).

(** [t.get('panoId') == pano_id or t.get('extra', {}).get('panoId') == pano_id] *)
Definition has_pano_id (t : tile) (pano_id : string) : result bool :=
  if py_eq_str (dict_get t "panoId" PNone) pano_id then Ok true
  else
    v ← py_get (dict_get t "extra" (PDict ∅)) "panoId" PNone;
    Ok (py_eq_str v pano_id).

(** [for t in tiles: if ...: tile = t; break] *)
Fixpoint find_in_tiles (tiles : list tile) (pano_id : string) : result (option tile) :=
  match tiles with
  | [] => Ok None
  | t :: rest =>
      found ← has_pano_id t pano_id;
      if (found : bool) then Ok (Some t) else find_in_tiles rest pano_id
  end.

(** The loop over the puzzle files that looks the tile up; a file that
    cannot be read, or in which the test raises, is passed over. *)
Fixpoint find_tile (json_files : list string) (pano_id : string)
    (found_so_far : option tile) : M (option tile) :=
  match json_files with
  | [] => mret found_so_far
  | json_file :: rest =>
      step ← try_except
        (data ← perform E (LoadJson json_file);
         let tiles := default [] (extract_tiles data) in
         t ← lift (find_in_tiles tiles pano_id);
         let found := match t with Some t' => Some t' | None => found_so_far end in
         mret (found, tile_truthy found))
        (fun e => _ ← print (MsgFileError json_file e); mret (found_so_far, false));
      let '(found, stop) := step in
      if (stop : bool) then mret found else find_tile rest pano_id found
  end.

(** [process_single_pano(pano_id, api_key, skip_direct_download)], given
    the puzzle files and the port of the local server. *)
Definition process_single_pano (json_files : list string) (pano_id : string)
    (api_key : string) (skip_direct_download : bool) (port : Z) : M single_end :=
  found ← find_tile json_files pano_id None;
  match found with
  | None => mret NotFound
  | Some t =>
      if negb (truthy (PDict t)) then mret NotFound
      else
        _ ← perform E Mkdir;
        direct_result ←
          (if negb skip_direct_download then download_pano_image_direct E t
           else mret None);
        match direct_result with
        | Some (f :: fs) => mret (ViaDirect (f :: fs))
        | _ =>
            if truthy (PStr api_key) then
              browsers ← initialize E 1;
              try_finally
                (filename ← download_pano_image E t api_key port skip_direct_download;
                 mret (match filename with
                       | Some (f :: fs) => ViaBrowser (f :: fs)
                       | _ => BothFailed
                       end))
                (close_all E browsers)
            else mret NoApiKey
        end
  end.

End Single.

(** A direct download that never gives an image and pages in which the
    panorama element is found: everything else works. *)
Definition no_direct_env : env :=
  env_of (Ok (HttpResponse 404 "text/html" "")) (Ok tt).

(** ** An image that cannot be opened *)

(** The direct download of [name] gives an image, the image is written,
    and [Image.open] raises on it, every time; the image directory can be
    created and the thumbnail name looked up. *)
Definition unreadable_image (E : env) (name : string) : Prop :=
  (exists ct content,
     contains "image" ct = true /\ content <> ""
     /\ forall h, reply E h (HttpGet (pano_img_url name)) = Ok (HttpResponse 200 ct content))
  /\ (forall h, reply E h (WriteFile name) = Ok tt)
  /\ (exists e, forall h, reply E h (OpenImage name) = Raise e)
  /\ (forall h, reply E h Mkdir = Ok tt)
  /\ exists_error E (thumb_filename name) = None.

(** The direct download gives something that [Image.open] refuses, and
    everything else works. *)
Definition corrupt_image_env : env := {|
  reply := fun R h (c : call R) =>
    match c in call R return result R with
    | OpenImage _ => Raise OSError
    | c => reply healthy_env h c
    end;
  partial_write := fun _ _ => false;
  exists_error := fun _ => None;
|}.

(** ** Deleting the orphans: the rest of [prune_orphaned_images] *)

(** [str.strip] and [str.lower], which the embedding leaves abstract. *)
Class PyText := {
  py_strip : string -> string;
  py_lower : string -> string;
}.

(** How [prune_orphaned_images] ends: without puzzle files, without
    orphans, after the deletion loop (with its [deleted_count]), after an
    answer other than yes, or with the exception of [input]. *)
Inductive prune_end :=
| NoPuzzleFiles
| NoOrphans
| Deleted (deleted_count : nat)
| NoFilesDeleted
| InputRaised.

Section Prune.
Context `{PyRuntime} `{PyText}.

(** What [file.unlink()] does for each name: it returns, and the file is
    gone, or it raises. *)
Variable unlink : string -> result unit.

(** The loop over [orphaned_files], the same in both branches: an
    [unlink] that raises is reported and the loop goes on. *)
Fixpoint unlink_orphans (orphaned : list string) (files : gset string)
    (deleted_count : nat) : gset string * nat :=
  match orphaned with
  | [] => (files, deleted_count)
  | file :: rest =>
      match unlink file with
      | Ok _ => unlink_orphans rest (files ∖ {[file]}) (S deleted_count)
      | Raise _ => unlink_orphans rest files deleted_count
      end
  end.

(** [prune_orphaned_images(delete_orphans)], given what [json.load]
    returns for each puzzle file, the names of [img_dir.glob] in the order
    the set yields them, the line that [input] would read ([None] when it
    raises) and the [*.jpg] files of the image directory. *)
Definition prune_orphaned_images (delete_orphans : bool)
    (puzzles : list (result puzzle_json)) (actual_files : list string)
    (line : option string) (files : gset string) : prune_end * gset string :=
  match puzzles with
  | [] => (NoPuzzleFiles, files)
  | _ =>
      let expected_files := scan_puzzles puzzles ∅ in
      match prune_orphans actual_files expected_files [] with
      | [] => (NoOrphans, files)
      | orphaned =>
          if delete_orphans then
            let '(files, deleted_count) := unlink_orphans orphaned files 0 in
            (Deleted deleted_count, files)
          else
            match line with
            | None => (InputRaised, files)
            | Some line =>
                let response := py_lower (py_strip line) in
                if bool_decide (response ∈ ["y"; "yes"]) then
                  let '(files, deleted_count) := unlink_orphans orphaned files 0 in
                  (Deleted deleted_count, files)
                else (NoFilesDeleted, files)
            end
      end
  end.

(** Deletion was asked for: by the flag, or by the answer. *)
Definition deletion_confirmed (delete_orphans : bool) (line : option string) : Prop :=
  delete_orphans = true
  \/ (exists l, line = Some l /\ py_lower (py_strip l) ∈ ["y"; "yes"]).

End Prune.

(** [strip] and [lower] on ASCII text, for closed examples. *)
Definition ascii_space (c : ascii) : bool :=
  let n := nat_of_ascii c in
  ((9 <=? n) && (n <=? 13) || (28 <=? n) && (n <=? 32))%nat.

Definition ascii_lower (c : ascii) : ascii :=
  let n := nat_of_ascii c in
  if ((65 <=? n) && (n <=? 90))%nat then ascii_of_nat (n + 32) else c.

Fixpoint lstrip (s : list ascii) : list ascii :=
  match s with
  | c :: s' => if ascii_space c then lstrip s' else s
  | [] => []
  end.

Definition ascii_text : PyText := {|
  py_strip := fun s =>
    string_of_list_ascii (rev (lstrip (rev (lstrip (list_ascii_of_string s)))));
  py_lower := fun s =>
    string_of_list_ascii (map ascii_lower (list_ascii_of_string s));
|}.

(** An [unlink] that refuses one file. *)
Definition unlink_except (locked : string) (file : string) : result unit :=
  if String.eqb file locked then Raise OSError else Ok tt.

(** ** The calls of a tier *)

(** A call of a tier, with the test that its answer lets the tier go
    on. *)
Inductive step :=
| Step {R : Type} (c : call R) (goes_on : result R -> bool).











(** What the thumbnail step returns. *)
Definition made (ok : bool) (name : string) : option string :=
  if ok then Some (thumb_filename name) else None.




(** ** More closed examples *)


(** Every puzzle file holds the scenario tile and then the undated one;
    the direct download of the scenario tile answers 404, any other one
    gives an image; [browser.new_page()] raises and everything else
    works. *)
Definition page_crash_first_env : env := {|
  reply := fun R h (c : call R) =>
    match c in call R return result R with
    | HttpGet url =>
        if String.eqb url (pano_img_url "ABC123~d2023-05~h90~p0~z1.jpg")
        then Ok (HttpResponse 404 "text/html" "")
        else Ok (HttpResponse 200 "image/jpeg" "JFIF")
    | NewPage _ => Raise PlaywrightError
    | LoadJson _ => Ok (JsonList [scenario_tile; undated_tile])
    | Launch => Ok (length (launched h))
    | c => reply healthy_env h c
    end;
  partial_write := fun _ _ => false;
  exists_error := fun _ => None;
|}.

(** The network is down, the navigation times out and [bad.json] cannot
    be parsed; everything else works. *)
Definition failing_env : env := {|
  reply := fun R h (c : call R) =>
    match c in call R return result R with
    | HttpGet _ => Raise OSError
    | Goto _ _ => Raise PlaywrightError
    | LoadJson file =>
        if String.eqb file "bad.json" then Raise ValueError
        else Ok (JsonList [scenario_tile; undated_tile])
    | c => reply healthy_env h c
    end;
  partial_write := fun _ _ => false;
  exists_error := fun _ => None;
|}.

(** * Properties of the float model *)

Module FloatFacts.
Import Float.

Lemma rnd_half_even_lower p q :
  0 <= p -> 0 < q -> (2 * rnd_half_even p q - 1) * q <= 2 * p.
Proof.
  intros Hp Hq. unfold rnd_half_even.
  pose proof (Z.div_mod p q ltac:(lia)) as Hdm.
  pose proof (Z.mod_pos_bound p q Hq) as Hm.
  repeat case_match; rewrite ?Z.ltb_lt, ?Z.ltb_ge in *; nia.
Qed.

Lemma rnd_half_even_upper p q :
  0 <= p -> 0 < q -> 2 * p <= (2 * rnd_half_even p q + 1) * q.
Proof.
  intros Hp Hq. unfold rnd_half_even.
  pose proof (Z.div_mod p q ltac:(lia)) as Hdm.
  pose proof (Z.mod_pos_bound p q Hq) as Hm.
  repeat case_match; rewrite ?Z.ltb_lt, ?Z.ltb_ge in *; nia.
Qed.

Lemma rnd_half_even_nonneg p q : 0 <= p -> 0 < q -> 0 <= rnd_half_even p q.
Proof.
  intros Hp Hq. unfold rnd_half_even.
  pose proof (Z.div_pos p q Hp Hq).
  repeat case_match; lia.
Qed.

Lemma pow2_pos n : 0 < 2 ^ n \/ n < 0.
Proof. destruct (Z.le_gt_cases 0 n); [left; apply Z.pow_pos_nonneg; lia | right; lia]. Qed.

Lemma log2_bounds p : 0 < p -> 2 ^ Z.log2 p <= p < 2 * 2 ^ Z.log2 p.
Proof.
  intros Hp. pose proof (Z.log2_spec p Hp) as Hs.
  rewrite Z.pow_succ_r in Hs by apply Z.log2_nonneg. lia.
Qed.

Lemma exponent_bound p q :
  0 < p -> 0 < q -> p <= max_float * q -> Z.log2 p - Z.log2 q - 53 <= 971.
Proof.
  intros Hp Hq Hle.
  destruct (Z.le_gt_cases (Z.log2 p - Z.log2 q - 53) 971) as [|Hgt]; [done|exfalso].
  pose proof (log2_bounds p Hp) as [Hp1 _].
  pose proof (log2_bounds q Hq) as [_ Hq2].
  pose proof (Z.log2_nonneg q) as Hlq.
  assert (2 ^ (Z.log2 q + 1025) <= 2 ^ Z.log2 p) as Hmono
    by (apply Z.pow_le_mono_r; lia).
  rewrite Z.pow_add_r in Hmono by lia.
  assert (H1024 : 2 ^ 1025 = 2 * (2 ^ 53 * 2 ^ 971)) by (rewrite <- Z.pow_add_r by lia; reflexivity).
  unfold max_float in Hle.
  pose proof (Z.pow_pos_nonneg 2 971 ltac:(lia) ltac:(lia)) as HK.
  pose proof (Z.pow_pos_nonneg 2 (Z.log2 q) ltac:(lia) ltac:(lia)) as HL.
  set (K := 2 ^ 971) in *. set (L := 2 ^ Z.log2 q) in *.
  rewrite H1024 in Hmono. nia.
Qed.

Lemma of_ratio_finite s p q :
  0 <= p -> 0 < q -> p <= max_float * q -> is_finite (of_ratio s p q) = true.
Proof.
  intros Hp Hq Hle. unfold of_ratio.
  destruct (Z.eqb_spec p 0) as [|Hne]; [done|].
  assert (0 < p) as Hp' by lia.
  pose proof (exponent_bound p q Hp' Hq Hle) as He0.
  set (e0 := Z.log2 p - Z.log2 q - 53) in *.
  pose proof (Z.pow_pos_nonneg 2 971 ltac:(lia) ltac:(lia)) as HK.
  assert (H53 : 2 ^ 53 = 9007199254740992) by reflexivity.
  (* the normalised exponent is at most 971 *)
  assert (He1 : (let '(p0, q0) := scale2 p q e0 in
                 if 2 ^ 53 * q0 <=? p0 then e0 + 1 else e0) <= 971).
  { destruct (Z.eq_dec e0 971) as [Heq|]; [|destruct (scale2 p q e0) as [a b]; destruct (2 ^ 53 * b <=? a); lia].
    rewrite Heq. unfold scale2. change (0 <=? 971) with true. cbv iota beta.
    destruct (Z.leb_spec (2 ^ 53 * (q * 2 ^ 971)) p) as [Hc|]; [exfalso|lia].
    unfold max_float in Hle. set (K := 2 ^ 971) in *. rewrite H53 in *. nia. }
  destruct (scale2 p q e0) as [p0 q0].
  set (e1 := if 2 ^ 53 * q0 <=? p0 then e0 + 1 else e0) in *.
  assert (Z.max e1 (-1074) <= 971) as He by lia.
  set (e := Z.max e1 (-1074)) in *.
  destruct (scale2 p q e) as [p1 q1] eqn:Hsc.
  destruct (Z.eqb_spec (rnd_half_even p1 q1) (2 ^ 53)) as [Hcarry|Hnc].
  - simpl. destruct (Z.ltb_spec 971 (e + 1)) as [Hbig|]; [exfalso|done].
    assert (e = 971) as He971 by lia. rewrite He971 in Hsc.
    unfold scale2 in Hsc. change (0 <=? 971) with true in Hsc. cbv iota in Hsc. injection Hsc as <- <-.
    pose proof (rnd_half_even_lower p (q * 2 ^ 971) Hp ltac:(nia)) as Hl.
    rewrite Hcarry in Hl. unfold max_float in Hle.
    set (K := 2 ^ 971) in *. rewrite H53 in *. nia.
  - destruct (rnd_half_even p1 q1 =? 0); [done|].
    destruct (Z.ltb_spec 971 e); [lia|done].
Qed.

Lemma scale2_eq p q e :
  scale2 p q e = (p * 2 ^ Z.max 0 (- e), q * 2 ^ Z.max 0 e).
Proof.
  unfold scale2. destruct (Z.leb_spec 0 e).
  - rewrite Z.max_l, Z.max_r by lia. f_equal; simpl; lia.
  - rewrite Z.max_r, Z.max_l by lia. f_equal; simpl; lia.
Qed.

Lemma pow2_gt0 n : 0 <= n -> 0 < 2 ^ n.
Proof. intros. apply Z.pow_pos_nonneg; lia. Qed.

Lemma lt_pow2_mono p q k k' :
  0 <= p -> 0 < q -> k <= k' -> lt_pow2 p q k -> lt_pow2 p q k'.
Proof.
  unfold lt_pow2. intros Hp Hq Hk Hlt.
  destruct (Z.le_gt_cases 0 k), (Z.le_gt_cases 0 k');
    rewrite ?(Z.max_l 0 (- k)), ?(Z.max_r 0 k), ?(Z.max_r 0 (- k)), ?(Z.max_l 0 k),
            ?(Z.max_l 0 (- k')), ?(Z.max_r 0 k'), ?(Z.max_r 0 (- k')), ?(Z.max_l 0 k') in * by lia;
    try lia.
  - replace k' with (k + (k' - k)) by lia. rewrite Z.pow_add_r by lia.
    pose proof (pow2_gt0 (k' - k)). pose proof (pow2_gt0 k). simpl in *. nia.
  - pose proof (pow2_gt0 (- k)). pose proof (pow2_gt0 k'). simpl in *. nia.
  - replace (- k) with (- k' + (k' - k)) in Hlt by lia.
    rewrite Z.pow_add_r in Hlt by lia.
    pose proof (pow2_gt0 (k' - k)). pose proof (pow2_gt0 (- k')). simpl in *. nia.
Qed.

Lemma lt_pow2_log2 p q :
  0 < p -> 0 < q -> lt_pow2 p q (Z.log2 p - Z.log2 q + 1).
Proof.
  intros Hp Hq. unfold lt_pow2.
  pose proof (log2_bounds p Hp) as [_ Hp2].
  pose proof (log2_bounds q Hq) as [Hq1 _].
  pose proof (Z.log2_nonneg p). pose proof (Z.log2_nonneg q).
  pose proof (pow2_gt0 (Z.log2 p)). pose proof (pow2_gt0 (Z.log2 q)).
  destruct (Z.le_gt_cases 0 (Z.log2 p - Z.log2 q + 1)).
  - rewrite Z.max_l, Z.max_r by lia. simpl (2 ^ 0).
    assert (2 * 2 ^ Z.log2 p = 2 ^ Z.log2 q * 2 ^ (Z.log2 p - Z.log2 q + 1)) as Heq.
    { rewrite <- Z.pow_add_r by lia. rewrite <- Z.pow_succ_r by lia. f_equal. lia. }
    pose proof (pow2_gt0 (Z.log2 p - Z.log2 q + 1)). nia.
  - rewrite Z.max_r, Z.max_l by lia. simpl (2 ^ 0).
    assert (2 * 2 ^ Z.log2 p * 2 ^ (- (Z.log2 p - Z.log2 q + 1)) = 2 ^ Z.log2 q) as Heq.
    { rewrite <- Z.pow_succ_r by lia. rewrite <- Z.pow_add_r by lia. f_equal. lia. }
    pose proof (pow2_gt0 (- (Z.log2 p - Z.log2 q + 1))). nia.
Qed.

Lemma lt_pow2_scale2 p q e :
  0 <= p -> 0 < q ->
  (let '(a, b) := scale2 p q e in a < 2 ^ 53 * b) <-> lt_pow2 p q (e + 53).
Proof.
  intros Hp Hq. rewrite scale2_eq. unfold lt_pow2.
  assert (H53 : 2 ^ 53 = 9007199254740992) by reflexivity.
  destruct (Z.le_gt_cases 0 e); [|destruct (Z.le_gt_cases 0 (e + 53))].
  - rewrite (Z.max_l 0 (- e)), (Z.max_r 0 e), (Z.max_l 0 (- (e + 53))), (Z.max_r 0 (e + 53)) by lia.
    rewrite Z.pow_add_r by lia. simpl (2 ^ 0). lia.
  - rewrite (Z.max_r 0 (- e)), (Z.max_l 0 e), (Z.max_l 0 (- (e + 53))), (Z.max_r 0 (e + 53)) by lia.
    simpl (2 ^ 0).
    assert (2 ^ 53 = 2 ^ (e + 53) * 2 ^ (- e)) as Heq
      by (rewrite <- Z.pow_add_r by lia; f_equal; lia).
    rewrite Heq. pose proof (pow2_gt0 (- e)). pose proof (pow2_gt0 (e + 53)). nia.
  - rewrite (Z.max_r 0 (- e)), (Z.max_l 0 e), (Z.max_r 0 (- (e + 53))), (Z.max_l 0 (e + 53)) by lia.
    simpl (2 ^ 0).
    assert (2 ^ (- e) = 2 ^ (- (e + 53)) * 2 ^ 53) as Heq
      by (rewrite <- Z.pow_add_r by lia; f_equal; lia).
    rewrite Heq. pose proof (pow2_gt0 (- (e + 53))). nia.
Qed.

Lemma scale2_den_pos p q e : 0 < q -> 0 < snd (scale2 p q e).
Proof.
  intros Hq. rewrite scale2_eq. simpl.
  pose proof (pow2_gt0 (Z.max 0 e) ltac:(lia)). nia.
Qed.

Lemma scale2_num_nonneg p q e : 0 <= p -> 0 <= fst (scale2 p q e).
Proof.
  intros Hq. rewrite scale2_eq. simpl.
  pose proof (pow2_gt0 (Z.max 0 (- e)) ltac:(lia)). nia.
Qed.

Lemma of_ratio_valid s p q :
  0 <= p -> 0 < q -> valid (of_ratio s p q) = true.
Proof.
  intros Hp Hq. unfold of_ratio.
  destruct (Z.eqb_spec p 0) as [|Hne]; [done|].
  assert (0 < p) as Hp' by lia.
  set (e0 := Z.log2 p - Z.log2 q - 53) in *.
  assert (H53 : 2 ^ 53 = 9007199254740992) by reflexivity.
  assert (H52 : 2 ^ 52 = 4503599627370496) by reflexivity.
  assert (He1 : lt_pow2 p q
            ((let '(p0, q0) := scale2 p q e0 in
              if 2 ^ 53 * q0 <=? p0 then e0 + 1 else e0) + 53)).
  { pose proof (lt_pow2_scale2 p q e0 Hp Hq) as Hsc.
    destruct (scale2 p q e0) as [p0 q0].
    destruct (Z.leb_spec (2 ^ 53 * q0) p0).
    - replace (e0 + 1 + 53) with (Z.log2 p - Z.log2 q + 1) by (unfold e0; lia).
      by apply lt_pow2_log2.
    - apply Hsc. lia. }
  destruct (scale2 p q e0) as [p0 q0].
  set (e1 := if 2 ^ 53 * q0 <=? p0 then e0 + 1 else e0) in *.
  set (e := Z.max e1 (-1074)) in *.
  assert (lt_pow2 p q (e + 53)) as He
    by (apply (lt_pow2_mono p q (e1 + 53)); [lia..|done]).
  apply lt_pow2_scale2 in He; [|done..].
  pose proof (scale2_den_pos p q e Hq) as Hq1.
  pose proof (scale2_num_nonneg p q e Hp) as Hp1.
  destruct (scale2 p q e) as [p1 q1]. simpl in Hq1, Hp1.
  pose proof (rnd_half_even_lower p1 q1 Hp1 Hq1) as Hl.
  pose proof (rnd_half_even_nonneg p1 q1 Hp1 Hq1) as Hn.
  set (m := rnd_half_even p1 q1) in *.
  assert (m <= 2 ^ 53) as Hm by (rewrite H53 in *; nia).
  destruct (Z.eqb_spec m (2 ^ 53)) as [Hcarry|Hnc].
  - simpl. destruct (Z.ltb_spec 971 (e + 1)); [done|].
    simpl. apply Z.leb_le. lia.
  - destruct (Z.eqb_spec m 0); [done|].
    destruct (Z.ltb_spec 971 e); [done|].
    simpl. rewrite andb_true_iff, Z.ltb_lt, Z.leb_le.
    rewrite Z2Pos.id by lia. lia.
Qed.

Lemma valid_abs_ratio x :
  valid x = true ->
  let '(p, q) := abs_ratio x in 0 <= p /\ 0 < q /\ p <= max_float * q.
Proof.
  destruct x as [| | |s m e]; simpl; try (intros _; unfold max_float; lia).
  rewrite andb_true_iff, Z.ltb_lt, Z.leb_le. intros [Hm He].
  rewrite scale2_eq. rewrite Z.opp_involutive.
  assert (H53 : 2 ^ 53 = 9007199254740992) by reflexivity.
  pose proof (pow2_gt0 971 ltac:(lia)) as HK.
  pose proof (pow2_gt0 (Z.max 0 e) ltac:(lia)) as HA.
  pose proof (pow2_gt0 (Z.max 0 (- e)) ltac:(lia)) as HB.
  assert (2 ^ Z.max 0 e <= 2 ^ 971) as Hmono by (apply Z.pow_le_mono_r; lia).
  unfold max_float. rewrite H53 in *.
  set (K := 2 ^ 971) in *. set (A := 2 ^ Z.max 0 e) in *. set (B := 2 ^ Z.max 0 (- e)) in *.
  split; [lia|]. split; [lia|].
  destruct (Z.le_gt_cases 0 e).
  - assert (B = 1) as -> by (unfold B; rewrite Z.max_l by lia; reflexivity). nia.
  - assert (A = 1) as -> by (unfold A; rewrite Z.max_l by lia; reflexivity). nia.
Qed.

(** Rounding a float to two (or any non-negative number of) places
    returns a float. *)
Lemma round_total x ndigits :
  valid x = true -> 0 <= ndigits ->
  exists r, round x ndigits = Ok r /\ valid r = true /\
            (is_finite x = true -> is_finite r = true).
Proof.
  intros Hv Hnd. destruct x as [s| | |s m e]; try (eexists; split; [reflexivity|done]).
  unfold round.
  destruct (Z.ltb_spec ndigits_max ndigits); [eexists; split; [reflexivity|done]|].
  destruct (Z.ltb_spec ndigits ndigits_min); [unfold ndigits_min in *; lia|].
  pose proof (valid_abs_ratio _ Hv) as Hr.
  destruct (abs_ratio (S754_finite s m e)) as [p q]. destruct Hr as (Hp & Hq & Hle).
  unfold scale10. destruct (Z.leb_spec 0 ndigits); [|lia].
  pose proof (Z.pow_pos_nonneg 10 ndigits ltac:(lia) ltac:(lia)) as HT.
  pose proof (rnd_half_even_lower (p * 10 ^ ndigits) q ltac:(nia) Hq) as Hl.
  pose proof (rnd_half_even_nonneg (p * 10 ^ ndigits) q ltac:(nia) Hq) as Hn.
  set (k := rnd_half_even (p * 10 ^ ndigits) q) in *.
  assert (k <= max_float * 10 ^ ndigits) as Hk.
  { set (T := 10 ^ ndigits) in *. set (Mx := max_float) in *. nia. }
  assert (exists p'' q'', (if 0 <=? - ndigits then (k * 10 ^ (- ndigits), 1)
                           else (k, 1 * 10 ^ (- - ndigits))) = (p'', q'')
                          /\ 0 <= p'' /\ 0 < q'' /\ p'' <= max_float * q'')
    as (p'' & q'' & -> & Hp'' & Hq'' & Hle'').
  { destruct (Z.leb_spec 0 (- ndigits)).
    - assert (ndigits = 0) as -> by lia. exists (k * 10 ^ (- 0)), 1.
      simpl in *. split; [done|]. lia.
    - exists k, (1 * 10 ^ (- - ndigits)). rewrite Z.opp_involutive.
      split; [done|]. lia. }
  rewrite (of_ratio_finite s p'' q'') by done.
  eexists. split; [reflexivity|]. split; [by apply of_ratio_valid|].
  intros _. by apply of_ratio_finite.
Qed.
End FloatFacts.

(** * The numeric formatter *)

Section RoundNumber.
Context `{PyRuntime}.
Import Float FloatFacts.

Lemma eq_Z_trunc r : is_finite r = true -> eq_Z r (trunc r) = is_whole r.
Proof.
  intros Hf. unfold eq_Z, trunc, is_whole. rewrite Hf. simpl.
  assert (0 < snd (abs_ratio r)) as Hq.
  { destruct r; simpl; try lia. by apply scale2_den_pos. }
  destruct (abs_ratio r) as [p q]. simpl in Hq.
  pose proof (Z.div_mod p q ltac:(lia)) as Hdm.
  destruct (sign r);
    destruct (Z.eqb_spec (p mod q) 0); (apply Z.eqb_eq || apply Z.eqb_neq); nia.
Qed.

Lemma py_float_number num :
  is_number num = true ->
  exists x, py_float num = Ok x /\ valid x = true /\ is_finite x = true.
Proof.
  destruct num as [| |z|x| | |]; simpl; try done.
  - rewrite Z.leb_le. intros Hz.
    assert (is_finite (of_Z z) = true) as Hf
      by (apply of_ratio_finite; lia).
    rewrite Hf. eexists. split; [reflexivity|]. split; [|done].
    apply of_ratio_valid; lia.
  - rewrite andb_true_iff. intros [Hv Hf]. by exists x.
Qed.

Lemma round_two_places x :
  valid x = true -> is_finite x = true ->
  exists k, nearest_hundredth x k /\ round x 2 = Ok (of_ratio (sign x) k 100).
Proof.
  intros Hv Hf. destruct x as [s| | |s m e]; try done.
  - exists 0. split; [|done]. unfold nearest_hundredth. simpl. lia.
  - unfold round, nearest_hundredth.
    change (ndigits_max <? 2) with false. change (2 <? ndigits_min) with false.
    cbv iota.
    pose proof (valid_abs_ratio _ Hv) as Hr.
    destruct (abs_ratio (S754_finite s m e)) as [p q]. destruct Hr as (Hp & Hq & Hle).
    unfold scale10. change (0 <=? 2) with true. change (0 <=? Z.opp 2) with false.
    cbv iota zeta. change (1 * 10 ^ (Z.opp (Z.opp 2))) with 100. change (10 ^ 2) with 100.
    change (sign (S754_finite s m e)) with s.
    pose proof (rnd_half_even_lower (p * 100) q ltac:(lia) Hq) as Hl.
    pose proof (rnd_half_even_upper (p * 100) q ltac:(lia) Hq) as Hu.
    pose proof (rnd_half_even_nonneg (p * 100) q ltac:(lia) Hq) as Hn.
    set (k := rnd_half_even (p * 100) q) in *.
    exists k. split; [lia|].
    rewrite of_ratio_finite; [done|lia|lia|].
    set (Mx := max_float) in *. nia.
Qed.

Lemma round_number_number num :
  is_number num = true ->
  exists x k, py_float num = Ok x /\ nearest_hundredth x k /\
    let r := of_ratio (sign x) k 100 in
    round_number num 2 =
      Ok (if is_whole r then py_str (PInt (trunc r)) else py_str (PFloat r)).
Proof.
  intros Hn. destruct (py_float_number num Hn) as (x & Hx & Hv & Hf).
  destruct (round_two_places x Hv Hf) as (k & Hk & Hr).
  exists x, k. split; [done|]. split; [done|].
  unfold round_number. rewrite Hx. cbn [mbind result_bind]. rewrite Hr. cbn [mbind result_bind].
  assert (is_finite (of_ratio (sign x) k 100) = true) as Hfin.
  { destruct (round_total x 2 Hv ltac:(lia)) as (r' & Hr' & _ & Hfin).
    rewrite Hr in Hr'. injection Hr' as <-. by apply Hfin. }
  set (r := of_ratio (sign x) k 100) in *.
  assert (py_int (PFloat r) = Ok (trunc r)) as ->
    by (simpl; destruct r; done).
  cbn [mbind result_bind]. rewrite eq_Z_trunc by done.
  by destruct (is_whole r).
Qed.

(** C6: [round_number] rounds a number to two decimals (to a nearest
    multiple of one hundredth, read back as a float) and prints the
    result as an integer when it is whole, else as the shortest decimal
    that reads back as that float.  In particular [round_number(1.0)] is
    ["1"], [round_number(1.005)] is ["1"] (so one of ["1"] and ["1.0"])
    and [round_number(12.3456)] is ["12.35"]. *)
Theorem round_number_two_decimals num :
  is_number num = true ->
  (exists x k, py_float num = Ok x /\ nearest_hundredth x k /\
     let r := of_ratio (sign x) k 100 in
     round_number num 2 =
       Ok (if is_whole r then py_str (PInt (trunc r)) else py_str (PFloat r)))
  /\ round_number (PFloat (of_decimal 10 (-1))) 2 = Ok "1"
  /\ (round_number (PFloat (of_decimal 1005 (-3))) 2 = Ok "1"
      \/ round_number (PFloat (of_decimal 1005 (-3))) 2 = Ok "1.0")
  /\ round_number (PFloat (of_decimal 123456 (-4))) 2 = Ok "12.35".
Proof.
  intros Hn. split; [by apply round_number_number|].
  split; [by vm_compute|]. split; [left; by vm_compute|by vm_compute].
Qed.

End RoundNumber.

Lemma round_number_two_decimals_witness :
  is_number (PFloat (Float.of_decimal 2675 (-3))) = true
  /\ exists x k,
       @py_float plain_runtime (PFloat (Float.of_decimal 2675 (-3))) = Ok x
       /\ nearest_hundredth x k.
Proof.
  split; [vm_compute; reflexivity|].
  destruct (@round_number_two_decimals plain_runtime
              (PFloat (Float.of_decimal 2675 (-3))))
    as [(x & k & Hx & Hk & _) _]; [vm_compute; reflexivity|].
  exists x, k. split; assumption.
Defined.

(** * The filename codec *)

Section CodecFacts.
Context `{PyRuntime}.

Lemma truthy_str s : truthy (PStr s) = negb (String.eqb s "").
Proof. reflexivity. Qed.

Lemma field_str_Some d key s :
  field_str d key = Some s -> d !! key = Some (PStr s) /\ truthy (PStr s) = true.
Proof.
  unfold field_str. destruct (d !! key) as [v|]; [|done].
  destruct v as [| | | |s'| |]; try done.
  destruct (String.eqb s' "") eqn:He; [done|].
  intros [= ->]. split; [done|]. simpl. by rewrite He.
Qed.

Lemma field_str_None d key :
  optional_str d key = true -> field_str d key = None ->
  truthy (dict_get d key PNone) = false.
Proof.
  unfold field_str, optional_str, dict_get.
  destruct (d !! key) as [[]|]; try done.
  simpl. by destruct (String.eqb s "").
Qed.

Lemma dict_get_extra t :
  extra_is_object t = true -> dict_get t "extra" (PDict ∅) = PDict (extra_of t).
Proof.
  unfold extra_is_object, dict_get, extra_of.
  by destruct (t !! "extra") as [[]|].
Qed.

Lemma lookup_pano_id_typed t pano_id :
  optional_str t "panoId" = true -> extra_is_object t = true ->
  record_pano_id t = Some pano_id ->
  lookup_pano_id t = Ok (PStr pano_id) /\ truthy (PStr pano_id) = true.
Proof.
  intros Hopt Hextra. unfold record_pano_id, lookup_pano_id.
  destruct (field_str t "panoId") as [s|] eqn:Htop.
  - intros [= ->]. apply field_str_Some in Htop as [Hlook Htruthy].
    unfold dict_get. rewrite Hlook. simpl default. by rewrite Htruthy.
  - intros Hsub. rewrite (field_str_None t "panoId" Hopt Htop).
    rewrite (dict_get_extra t Hextra). simpl.
    apply field_str_Some in Hsub as [Hlook Htruthy].
    unfold dict_get. by rewrite Hlook.
Qed.

Lemma pano_date_typed t :
  extra_is_object t = true -> optional_str (extra_of t) "panoDate" = true ->
  exists date,
    py_get (dict_get t "extra" (PDict ∅)) "panoDate" (PStr fallback_date) = Ok date
    /\ py_str (if negb (truthy date) then PStr fallback_date else date) = record_date t.
Proof.
  intros Hextra Hopt. rewrite (dict_get_extra t Hextra). simpl.
  eexists. split; [reflexivity|].
  unfold record_date, field_str, dict_get, optional_str in *.
  destruct (extra_of t !! "panoDate") as [[]|]; try done.
  simpl. by destruct (String.eqb s "").
Qed.

Lemma py_int_number num :
  is_number num = true -> exists z, py_int num = Ok z.
Proof.
  destruct num as [| |z|x| | |]; try done; simpl.
  - by exists z.
  - rewrite andb_true_iff. intros [_ Hf]. destruct x; try done; by eexists.
Qed.

Lemma round_number_returns num :
  is_number num = true -> exists s, round_number num 2 = Ok s.
Proof.
  intros Hn. destruct (round_number_number num Hn) as (x & k & _ & _ & Hr).
  eexists. exact Hr.
Qed.

Lemma number_value_float num x :
  is_number num = true -> py_float num = Ok x -> number_value num = Some x.
Proof.
  destruct num as [| |z|y| | |]; try done; simpl.
  - intros _. by destruct (Float.is_finite (Float.of_Z z)); intros [= <-].
  - by intros _ [= <-].
Qed.

Lemma integer_part_int num z :
  is_number num = true -> py_int num = Ok z -> integer_part num = Some z.
Proof.
  destruct num as [| |n|y| | |]; try done; simpl.
  - by intros _ [= <-].
  - intros _. destruct y; try done; by intros [= <-].
Qed.

Lemma round_number_printed num :
  is_number num = true ->
  exists x k, number_value num = Some x /\ nearest_hundredth x k
              /\ round_number num 2 = Ok (printed_hundredths x k).
Proof.
  intros Hn. destruct (round_number_number num Hn) as (x & k & Hx & Hk & Hr).
  exists x, k. split; [by apply number_value_float|]. split; [done|].
  rewrite Hr. unfold printed_hundredths. by destruct (Float.is_whole _).
Qed.

(** C1: for every well-typed tile record with a panorama identifier the
    codec returns [{panoId}~d{date}~h{heading}~p{pitch}~z{zoom}.jpg],
    where heading and pitch (0 when missing) are printed rounded to two
    decimals, zoom is its integer part and the date is [extra.panoDate],
    or [2024-01] when that is absent ([null] and the empty string count
    as absent).  The scenario tile encodes to
    [ABC123~d2023-05~h90~p0~z1.jpg]; a tile without a date, with heading
    12.3456, pitch -0.499 and zoom 2.7, to
    [XYZ~d2024-01~h12.35~p-0.5~z2.jpg]. *)
Theorem create_new_filename_format t pano_id :
  well_typed t = true ->
  record_pano_id t = Some pano_id ->
  (exists heading h pitch p zoom,
     number_value (dict_get t "heading" (PInt 0)) = Some heading
     /\ nearest_hundredth heading h
     /\ number_value (dict_get t "pitch" (PInt 0)) = Some pitch
     /\ nearest_hundredth pitch p
     /\ integer_part (dict_get t "zoom" (PInt 0)) = Some zoom
     /\ create_new_filename t =
          Ok (pano_id +:+ "~d" +:+ default "2024-01" (field_str (extra_of t) "panoDate")
              +:+ "~h" +:+ printed_hundredths heading h
              +:+ "~p" +:+ printed_hundredths pitch p
              +:+ "~z" +:+ Float.str_of_Z zoom +:+ ".jpg"))
  /\ create_new_filename scenario_tile = Ok "ABC123~d2023-05~h90~p0~z1.jpg"
  /\ create_new_filename undated_tile = Ok "XYZ~d2024-01~h12.35~p-0.5~z2.jpg".
Proof.
  intros Hwt Hid. split; [|split; by vm_compute].
  unfold well_typed in Hwt. rewrite !andb_true_iff in Hwt.
  destruct Hwt as ((((((Htop & Hextra) & Hsub) & Hdate) & Hh) & Hp) & Hz).
  destruct (lookup_pano_id_typed t pano_id Htop Hextra Hid) as [Hlook Htruthy].
  destruct (pano_date_typed t Hextra Hdate) as (date & Hget & Hstr).
  destruct (round_number_printed _ Hh) as (heading & h & Hhv & Hhk & Hheading).
  destruct (round_number_printed _ Hp) as (pitch & p & Hpv & Hpk & Hpitch).
  destruct (py_int_number _ Hz) as (zoom & Hzoom).
  exists heading, h, pitch, p, zoom.
  split; [done|]. split; [done|]. split; [done|]. split; [done|].
  split; [by apply integer_part_int|].
  unfold create_new_filename.
  rewrite Hlook. cbn [mbind result_bind]. rewrite Htruthy. cbn [negb].
  rewrite Hget. cbn [mbind result_bind].
  rewrite Hheading, Hpitch, Hzoom. cbn [mbind result_bind].
  by rewrite Hstr.
Qed.

Lemma lacks_falsy d key :
  lacks d key = true -> truthy (dict_get d key PNone) = false.
Proof.
  unfold lacks, dict_get. destruct (d !! key) as [v|]; [|done].
  simpl. by destruct (truthy v).
Qed.

Lemma no_pano_id_raises t :
  no_pano_id t = true ->
  create_new_filename t =
    Raise (if extra_is_object t then ValueError else AttributeError).
Proof.
  unfold no_pano_id. rewrite andb_true_iff. intros [Htop Hsub].
  unfold create_new_filename, lookup_pano_id.
  rewrite (lacks_falsy t "panoId" Htop).
  destruct (extra_is_object t) eqn:Hextra.
  - rewrite (dict_get_extra t Hextra). simpl.
    by rewrite (lacks_falsy _ "panoId" Hsub).
  - unfold extra_is_object, dict_get in *.
    by destruct (t !! "extra") as [[]|].
Qed.

End CodecFacts.

Lemma create_new_filename_format_witness :
  well_typed undated_tile = true
  /\ record_pano_id undated_tile = Some "XYZ"
  /\ exists heading h pitch p,
       nearest_hundredth heading h /\ nearest_hundredth pitch p
       /\ @create_new_filename plain_runtime undated_tile =
            Ok ("XYZ" +:+ "~d" +:+ "2024-01"
                +:+ "~h" +:+ printed_hundredths heading h
                +:+ "~p" +:+ printed_hundredths pitch p +:+ "~z" +:+ "2" +:+ ".jpg").
Proof.
  split; [vm_compute; reflexivity|]. split; [vm_compute; reflexivity|].
  destruct (@create_new_filename_format plain_runtime undated_tile "XYZ")
    as [(heading & h & pitch & p & zoom & _ & Hh & _ & Hp & Hzoom & Hname) _];
    [vm_compute; reflexivity..|].
  exists heading, h, pitch, p. split; [exact Hh|]. split; [exact Hp|].
  vm_compute in Hzoom. injection Hzoom as <-. exact Hname.
Defined.

(** * The thumbnail name *)

Section ThumbFacts.
Context `{PyRuntime}.

Lemma prefix_cons a s1 b s2 :
  String.prefix (String a s1) (String b s2)
  = if Ascii.ascii_dec a b then String.prefix s1 s2 else false.
Proof. reflexivity. Qed.

Lemma prefix_nil s : String.prefix "" s = true.
Proof. by destruct s. Qed.

Lemma append_cons c s1 s2 : String c s1 +:+ s2 = String c (s1 +:+ s2).
Proof. reflexivity. Qed.

Lemma append_assoc s1 s2 s3 : (s1 +:+ s2) +:+ s3 = s1 +:+ (s2 +:+ s3).
Proof. induction s1 as [|c s1 IH]; [done|]. rewrite !append_cons. by f_equal. Qed.

Lemma prefix_jpg_app c s :
  String.prefix ".jpg" (String c s) = false ->
  String.prefix ".jpg" (String c (s +:+ ".jpg")) = false.
Proof.
  destruct s as [|c1 [|c2 [|c3 s3]]]; rewrite ?append_cons;
    change ("" +:+ ".jpg") with ".jpg".
  4: { rewrite !prefix_cons, !prefix_nil. done. }
  all: intros _;
    repeat (rewrite prefix_cons;
            match goal with
            | |- context [Ascii.ascii_dec ?a ?b] =>
                destruct (Ascii.ascii_dec a b); [try done|done]
            end).
Qed.

(** When [.jpg] does not occur in the stem, replacing [.jpg] touches
    the extension only. *)
Lemma thumb_filename_stem stem :
  contains ".jpg" stem = false ->
  thumb_filename (stem +:+ ".jpg") = stem +:+ "~thumb.jpg".
Proof.
  unfold thumb_filename, py_replace.
  induction stem as [|c s IH]; [done|].
  cbn [contains]. rewrite orb_false_iff. intros [Hpre Hrest].
  change (String c s +:+ ".jpg") with (String c (s +:+ ".jpg")).
  cbn [replace_go]. rewrite (prefix_jpg_app c s Hpre).
  change (String c s +:+ "~thumb.jpg") with (String c (s +:+ "~thumb.jpg")).
  f_equal. by apply IH.
Qed.

Lemma create_new_filename_extension t base :
  create_new_filename t = Ok base -> exists stem, base = stem +:+ ".jpg".
Proof.
  unfold create_new_filename.
  destruct (lookup_pano_id t) as [pano_id|]; cbn [mbind result_bind]; [|intros ?; discriminate].
  destruct (negb (truthy pano_id)); [intros ?; discriminate|].
  destruct (py_get (dict_get t "extra" (PDict ∅)) "panoDate" (PStr fallback_date)) as [date|]; cbn [mbind result_bind]; [|intros ?; discriminate].
  destruct (round_number (dict_get t "heading" (PInt 0)) 2) as [heading|]; cbn [mbind result_bind]; [|intros ?; discriminate].
  destruct (round_number (dict_get t "pitch" (PInt 0)) 2) as [pitch|]; cbn [mbind result_bind]; [|intros ?; discriminate].
  destruct (py_int (dict_get t "zoom" (PInt 0))) as [zoom|]; cbn [mbind result_bind]; [|intros ?; discriminate].
  intros [= <-]. eexists.
  rewrite <- !append_assoc. reflexivity.
Qed.

(** C2 (amended): the thumbnail name is the full name with every
    occurrence of [.jpg] replaced by [~thumb.jpg]; the full name ends in
    [.jpg], and when [.jpg] occurs nowhere else in it the thumbnail name
    is the full name with [~thumb] inserted just before that extension. *)
Theorem thumb_filename_inserts_suffix t base :
  create_new_filename t = Ok base ->
  thumb_filename base = py_replace base ".jpg" "~thumb.jpg"
  /\ exists stem,
       base = stem +:+ ".jpg"
       /\ (contains ".jpg" stem = false ->
           thumb_filename base = stem +:+ "~thumb.jpg").
Proof.
  intros Hname. split; [done|].
  destruct (create_new_filename_extension t base Hname) as [stem ->].
  exists stem. split; [done|]. apply thumb_filename_stem.
Qed.

End ThumbFacts.

Lemma thumb_filename_inserts_suffix_witness :
  @create_new_filename plain_runtime scenario_tile = Ok "ABC123~d2023-05~h90~p0~z1.jpg"
  /\ thumb_filename "ABC123~d2023-05~h90~p0~z1.jpg"
     = py_replace "ABC123~d2023-05~h90~p0~z1.jpg" ".jpg" "~thumb.jpg".
Proof.
  split; [vm_compute; reflexivity|].
  apply (@thumb_filename_inserts_suffix plain_runtime scenario_tile).
  vm_compute; reflexivity.
Defined.

(** C2 as stated fails for an identifier that contains [.jpg]: both
    occurrences are replaced, so the thumbnail name is not the full name
    with [~thumb] before its extension. *)
Lemma thumb_filename_inner_jpg :
  @create_new_filename plain_runtime dotted_tile
    = Ok ("a.jpg~d2024-01~h0~p0~z0" +:+ ".jpg")
  /\ thumb_filename ("a.jpg~d2024-01~h0~p0~z0" +:+ ".jpg")
     = "a~thumb.jpg~d2024-01~h0~p0~z0~thumb.jpg"
  /\ thumb_filename ("a.jpg~d2024-01~h0~p0~z0" +:+ ".jpg")
     <> "a.jpg~d2024-01~h0~p0~z0" +:+ "~thumb.jpg".
Proof.
  split; [vm_compute; reflexivity|]. split; [vm_compute; reflexivity|].
  vm_compute. discriminate.
Qed.

(** * Reconciliation *)

Section ReconciliationFacts.
Context `{PyRuntime}.

Lemma add_expected_sound tiles expected name :
  name ∈ (add_expected tiles expected).1 ->
  name ∈ expected \/ exists t, t ∈ tiles /\ names_of t name.
Proof.
  revert expected. induction tiles as [|t rest IH]; intros expected; simpl; [by left|].
  destruct (lookup_pano_id t) as [pano_id|]; [|by left].
  destruct (negb (truthy pano_id)).
  { intros Hin. destruct (IH _ Hin) as [|(t' & Ht' & Hn)]; [by left|].
    right. exists t'. split; [by right|done]. }
  destruct (create_new_filename t) as [base|] eqn:Hbase.
  - intros Hin. destruct (IH _ Hin) as [Hold|(t' & Ht' & Hn)].
    + apply elem_of_union in Hold as [Hthumb|Hold].
      * right. exists t. split; [by left|]. exists base.
        split; [done|]. right. set_solver.
      * apply elem_of_union in Hold as [Hfull|Hold]; [|by left].
        right. exists t. split; [by left|]. exists base.
        split; [done|]. left. set_solver.
    + right. exists t'. split; [by right|done].
  - intros Hin. destruct (IH _ Hin) as [|(t' & Ht' & Hn)]; [by left|].
    right. exists t'. split; [by right|done].
Qed.

Lemma add_expected_mono tiles expected :
  expected ⊆ (add_expected tiles expected).1.
Proof.
  revert expected. induction tiles as [|t rest IH]; intros expected; simpl; [done|].
  destruct (lookup_pano_id t) as [pano_id|]; [|done].
  destruct (negb (truthy pano_id)); [apply IH|].
  destruct (create_new_filename t); [|apply IH].
  etrans; [|apply IH]. set_solver.
Qed.

Lemma add_expected_complete tiles expected t name :
  Forall (fun t' => is_ok (lookup_pano_id t') = true) tiles ->
  t ∈ tiles -> names_of t name ->
  name ∈ (add_expected tiles expected).1.
Proof.
  intros Hall Hin (base & Hbase & Hname). revert expected.
  induction Hall as [|t' rest Hok Hall IH]; intros expected; [by apply elem_of_nil in Hin|].
  simpl. destruct (lookup_pano_id t') as [pano_id|] eqn:Hlook; [|done].
  apply elem_of_cons in Hin as [<-|Hin].
  - assert (negb (truthy pano_id) = false) as ->.
    { unfold create_new_filename in Hbase. rewrite Hlook in Hbase.
      cbn [mbind result_bind] in Hbase. by destruct (negb (truthy pano_id)). }
    rewrite Hbase. apply add_expected_mono. set_solver.
  - destruct (negb (truthy pano_id)); [by apply IH|].
    destruct (create_new_filename t'); by apply IH.
Qed.

Lemma scan_puzzles_mono puzzles expected :
  expected ⊆ scan_puzzles puzzles expected.
Proof.
  revert expected. induction puzzles as [|[data|e] rest IH]; intros expected; simpl;
    [done| |apply IH].
  etrans; [apply add_expected_mono|apply IH].
Qed.

Lemma scan_puzzles_sound puzzles expected name :
  name ∈ scan_puzzles puzzles expected ->
  name ∈ expected
  \/ exists data tiles t,
       Ok data ∈ puzzles /\ extract_tiles data = Some tiles
       /\ t ∈ tiles /\ names_of t name.
Proof.
  revert expected. induction puzzles as [|[data|e] rest IH]; intros expected; simpl.
  - by left.
  - intros Hin. destruct (IH _ Hin) as [Hold|(d & ts & t & Hd & Hts & Ht & Hn)].
    + apply add_expected_sound in Hold as [|(t & Ht & Hn)]; [by left|].
      destruct (extract_tiles data) as [tiles|] eqn:Hex;
        [|by apply elem_of_nil in Ht].
      right. exists data, tiles, t. split; [by left|done].
    + right. exists d, ts, t. split; [by right|done].
  - intros Hin. destruct (IH _ Hin) as [|(d & ts & t & Hd & Hts & Ht & Hn)]; [by left|].
    right. exists d, ts, t. split; [by right|done].
Qed.

Lemma scan_puzzles_complete puzzles expected data tiles t name :
  Ok data ∈ puzzles -> extract_tiles data = Some tiles ->
  Forall (fun t' => is_ok (lookup_pano_id t') = true) tiles ->
  t ∈ tiles -> names_of t name ->
  name ∈ scan_puzzles puzzles expected.
Proof.
  intros Hin Hex Hall Ht Hn. revert expected.
  induction puzzles as [|p rest IH]; intros expected; [by apply elem_of_nil in Hin|].
  apply elem_of_cons in Hin as [<-|Hin].
  - simpl. rewrite Hex. simpl. apply scan_puzzles_mono.
    by apply (add_expected_complete tiles expected t).
  - destruct p; simpl; by apply IH.
Qed.

Lemma prune_orphans_set actual expected orphaned :
  list_to_set (C := gset string) (prune_orphans actual expected orphaned)
  = list_to_set orphaned ∪ (list_to_set actual ∖ expected).
Proof.
  revert orphaned. induction actual as [|name rest IH]; intros orphaned; simpl.
  - set_solver.
  - case_bool_decide as Hin; rewrite IH.
    + set_solver.
    + rewrite list_to_set_app_L. set_solver.
Qed.

(** C5: reconciliation computes [missing = expected − actual] and
    [orphaned = actual − expected], where [expected] holds the full and
    thumbnail names of the tile records; the two sets are disjoint,
    [missing] is disjoint from [actual] and [orphaned] from [expected].
    The loop of [prune_orphaned_images] finds the same orphans. *)
Theorem reconciliation_disjoint puzzles (actual : gset string) :
  let expected := scan_puzzles puzzles ∅ in
  let missing := missing_files expected actual in
  let orphaned := orphaned_files expected actual in
  (forall name, name ∈ expected ->
     exists data tiles t, Ok data ∈ puzzles /\ extract_tiles data = Some tiles
                          /\ t ∈ tiles /\ names_of t name)
  /\ (forall data tiles t name,
        Ok data ∈ puzzles -> extract_tiles data = Some tiles ->
        Forall (fun t' => is_ok (lookup_pano_id t') = true) tiles ->
        t ∈ tiles -> names_of t name -> name ∈ expected)
  /\ (forall name, name ∈ missing <-> name ∈ expected /\ name ∉ actual)
  /\ (forall name, name ∈ orphaned <-> name ∈ actual /\ name ∉ expected)
  /\ missing ## orphaned
  /\ missing ## actual
  /\ orphaned ## expected
  /\ list_to_set (prune_orphans (elements actual) expected []) = orphaned.
Proof.
  intros expected missing orphaned.
  split.
  { intros name Hin. apply scan_puzzles_sound in Hin as [Hin|Hin]; [|done].
    by apply elem_of_empty in Hin. }
  split; [intros; by eapply scan_puzzles_complete|].
  unfold missing, orphaned, missing_files, orphaned_files.
  repeat split; try set_solver.
  rewrite prune_orphans_set, list_to_set_elements_L. set_solver.
Qed.

End ReconciliationFacts.

(** * Running the acquisition *)

Section CodecParts.
Context `{PyRuntime}.

(** What the codec computed, when it returned a name: the same values
    make the address of the direct download. *)
Lemma create_new_filename_parts t name :
  create_new_filename t = Ok name ->
  exists pano_id heading pitch zoom date,
    lookup_pano_id t = Ok pano_id /\ truthy pano_id = true
    /\ round_number (dict_get t "heading" (PInt 0)) 2 = Ok heading
    /\ round_number (dict_get t "pitch" (PInt 0)) 2 = Ok pitch
    /\ py_int (dict_get t "zoom" (PInt 0)) = Ok zoom
    /\ py_get (dict_get t "extra" (PDict ∅)) "panoDate" (PStr fallback_date) = Ok date
    /\ direct_url pano_id heading pitch zoom
         (if negb (truthy date) then PStr fallback_date else date)
       = pano_img_url name.
Proof.
  unfold create_new_filename.
  destruct (lookup_pano_id t) as [pano_id|]; cbn [mbind result_bind];
    [|intros ?; discriminate].
  destruct (truthy pano_id) eqn:Htruthy; cbn [negb]; [|intros ?; discriminate].
  destruct (py_get (dict_get t "extra" (PDict ∅)) "panoDate" (PStr fallback_date))
    as [date|]; cbn [mbind result_bind]; [|intros ?; discriminate].
  destruct (round_number (dict_get t "heading" (PInt 0)) 2) as [heading|];
    cbn [mbind result_bind]; [|intros ?; discriminate].
  destruct (round_number (dict_get t "pitch" (PInt 0)) 2) as [pitch|];
    cbn [mbind result_bind]; [|intros ?; discriminate].
  destruct (py_int (dict_get t "zoom" (PInt 0))) as [zoom|];
    cbn [mbind result_bind]; [|intros ?; discriminate].
  intros [= <-]. exists pano_id, heading, pitch, zoom, date.
  repeat split; try done.
Qed.

Lemma present_and_truthy_Some d key :
  truthy (dict_get d key PNone) = true ->
  present_and_truthy d key = Some (dict_get d key PNone).
Proof.
  unfold present_and_truthy, dict_get.
  destruct (d !! key) as [v|]; simpl; [|done].
  destruct v; simpl; try done; by intros ->.
Qed.

Lemma present_and_truthy_None d key :
  truthy (dict_get d key PNone) = false -> present_and_truthy d key = None.
Proof.
  unfold present_and_truthy, dict_get.
  destruct (d !! key) as [v|]; simpl; [|done].
  destruct v; simpl; try done; by intros ->.
Qed.

(** An identifier that the codec finds is one that the careful lookup
    of the download functions finds. *)
Lemma lookup_pano_id_careful t pano_id :
  lookup_pano_id t = Ok pano_id -> truthy pano_id = true ->
  careful_pano_id t = Some pano_id.
Proof.
  unfold lookup_pano_id, careful_pano_id.
  destruct (truthy (dict_get t "panoId" PNone)) eqn:Htop.
  - intros [= <-] _. by rewrite present_and_truthy_Some.
  - rewrite (present_and_truthy_None _ _ Htop).
    unfold dict_get at 1. destruct (t !! "extra") as [extra|]; simpl.
    + destruct extra; simpl; try (intros ?; discriminate).
      intros [= <-] Htruthy. by rewrite present_and_truthy_Some.
    + intros [= <-]. done.
Qed.

Lemma careful_pano_id_None t :
  careful_pano_id t = None ->
  is_ok (create_new_filename t) = false.
Proof.
  intros Hnone. destruct (create_new_filename t) as [name|] eqn:Hname; [|done].
  destruct (create_new_filename_parts t name Hname)
    as (pano_id & heading & pitch & zoom & date & Hlook & Htruthy & _).
  by rewrite (lookup_pano_id_careful t pano_id Hlook Htruthy) in Hnone.
Qed.

End CodecParts.

Ltac unfold_ops :=
  unfold mbind, M_bind, mret, M_ret, lift, print, try_except, try_finally, throw,
    perform, exists_file, get_browser, return_browser.

Ltac reduce := cbn -[thumb_filename pano_img_url direct_url truthy contains Z.eqb].

Ltac case_reply :=
  match goal with
  | |- context [reply ?E ?h ?c] =>
      let r := fresh "r" in
      let Hr := fresh "Hr" in
      destruct (reply E h c) as [r|?] eqn:Hr
  end.

Ltac case_response :=
  match goal with
  | r : http_response |- _ => destruct r as [?status ?ct ?content]
  end.

Ltac case_if :=
  match goal with
  | |- context [if ?b then _ else _] => destruct b eqn:?
  end.

Ltac run :=
  repeat first [progress unfold_ops | progress reduce | case_reply
               | case_response | case_if].

(** Read the calls made off a final trace [e1 :: ... :: en :: base]. *)
Ltac new_events l base :=
  lazymatch l with
  | base => constr:(@nil event)
  | ?e :: ?l' => let r := new_events l' base in constr:(e :: r)
  end.

Ltac solve_trace :=
  lazymatch goal with
  | |- ?l = ?evs ++ ?base =>
      let evs' := new_events l base in unify evs evs'; reflexivity
  end.

Ltac solve_no_retry :=
  unfold no_retry; cbn; apply (bool_decide_unpack _); vm_compute; reflexivity.

Ltac solve_all_ok := unfold all_ok; repeat constructor.

Ltac solve_all_ok_but_wait :=
  unfold all_ok_but_wait;
  repeat (apply Forall_cons; split; [first [left; reflexivity | right; reflexivity]|]);
  by apply Forall_nil.

Ltac solve_page_failed :=
  unfold page_failed;
  repeat first
    [ apply Exists_cons_hd;
      solve [split; [reflexivity | first [left; reflexivity | right; reflexivity]]]
    | apply Exists_cons_tl ].

Ltac solve_answered_by :=
  unfold answered_by;
  repeat (apply Forall_cons; split; [eexists; symmetry; eassumption|]);
  by apply Forall_nil.

Section Tiers.
Context `{PyRuntime} (E : env).

Lemma download_pano_image_direct_run t name w :
  create_new_filename t = Ok name ->
  exists o w' out evs,
    download_pano_image_direct E t w = (o, w', out)
    /\ trace w' = evs ++ trace w
    /\ available w' = available w
    /\ requests evs = [pano_img_url name]
    /\ page_requests evs = []
    /\ loads evs = []
    /\ no_retry evs
    /\ answered_by E evs
    /\ (o = Done None
        \/ o = Done (Some [name; thumb_filename name])
           /\ (exists ct content,
                 reply E (trace w) (HttpGet (pano_img_url name))
                 = Ok (HttpResponse 200 ct content)
                 /\ contains "image" ct = true)
           /\ all_ok evs).
Proof.
  intros Hname.
  destruct (create_new_filename_parts t name Hname)
    as (pano_id & heading & pitch & zoom & date & Hlook & Htruthy & Hh & Hp & Hz & Hd & Hurl).
  unfold download_pano_image_direct, try_direct_download.
  rewrite Hlook, Hh, Hp, Hz, Hd, Hname.
  unfold_ops. reduce. rewrite Htruthy. reduce.
  destruct (truthy date) eqn:Hdate; cbn [negb] in *; reduce; rewrite Hurl.
  all: run.
  all: eexists _, _, _, _; split; [reflexivity|]; cbn [trace available].
  all: split; [solve_trace|]; split; [reflexivity|]; split; [reflexivity|].
  all: split; [reflexivity|]; split; [reflexivity|]; split; [solve_no_retry|].
  all: split; [solve_answered_by|].
  all: try (left; reflexivity).
  all: right; split; [reflexivity|]; split; [|solve_all_ok].
  all: match goal with Hs : (_ =? 200) = true |- _ => apply Z.eqb_eq in Hs as -> end.
  all: by eexists _, _.
Qed.


Lemma browser_method_run t name api_key http_port w b rest :
  create_new_filename t = Ok name ->
  available w = b :: rest ->
  exists o w' out evs,
    browser_method E t api_key http_port w = (o, w', out)
    /\ trace w' = evs ++ trace w
    /\ page_requests evs = [b]
    /\ requests evs = []
    /\ loads evs = []
    /\ no_retry evs
    /\ answered_by E evs
    /\ out <> []
    /\ ((exists res,
           o = Done res /\ available w' = rest ++ [b]
           /\ (res = None
               \/ res = Some [name; thumb_filename name] /\ all_ok_but_wait evs))
        \/ (exists e,
              o = Throw e /\ available w' = rest
              /\ page_failed evs)).
Proof.
  intros Hname Havail.
  destruct (create_new_filename_parts t name Hname)
    as (pano_id & heading & pitch & zoom & date & Hlook & Htruthy & _).
  pose proof (lookup_pano_id_careful t pano_id Hlook Htruthy) as Hcareful.
  unfold browser_method, render_and_capture, release, on_download_error.
  rewrite Hcareful, Hname.
  unfold_ops. rewrite Havail. reduce.
  run.
  all: eexists _, _, _, _; split; [reflexivity|]; cbn [trace available].
  all: split; [solve_trace|]; split; [reflexivity|]; split; [reflexivity|].
  all: split; [reflexivity|].
  all: split; [solve_no_retry|]; split; [solve_answered_by|]; split; [discriminate|].
  all: first
    [ left; eexists; split; [reflexivity|]; split; [reflexivity|];
      first [ left; reflexivity
            | right; split; [reflexivity|solve_all_ok_but_wait] ]
    | right; eexists; split; [reflexivity|]; split; [reflexivity|];
      solve_page_failed ].
Qed.

Lemma run_bind {A B} (m : M A) (f : A -> M B) w o w1 out1 :
  m w = (o, w1, out1) ->
  (m ≫= f) w =
    match o with
    | Done a => let '(o2, w2, out2) := f a w1 in (o2, w2, out1 ++ out2)
    | Throw e => (Throw e, w1, out1)
    | Hang => (Hang, w1, out1)
    end.
Proof. intros Hm. unfold mbind, M_bind. by rewrite Hm. Qed.

Lemma answered_by_app evs1 evs2 :
  answered_by E evs1 -> answered_by E evs2 -> answered_by E (evs1 ++ evs2).
Proof. unfold answered_by. intros. by apply Forall_app. Qed.

Lemma pages_work_not_failed evs :
  pages_work E -> answered_by E evs -> page_failed evs -> False.
Proof.
  unfold answered_by, page_failed. intros Hwork Hans Hfail.
  apply Exists_exists in Hfail as ([R c r] & Hin & Hbad & Hkind).
  rewrite Forall_forall in Hans. destruct (Hans _ Hin) as [h ->].
  destruct (Hwork h) as [Hnew Hclose].
  destruct c; simpl in Hkind; destruct Hkind as [|]; try done.
  - by rewrite Hnew in Hbad.
  - by rewrite Hclose in Hbad.
Qed.

(** The two tiers of [download_pano_image], one after the other. *)
Lemma download_pano_image_run t name api_key http_port skip_direct_download w b rest :
  create_new_filename t = Ok name ->
  available w = b :: rest ->
  exists o w' out direct browser,
    download_pano_image E t api_key http_port skip_direct_download w = (o, w', out)
    /\ trace w' = browser ++ direct ++ trace w
    /\ requests direct = (if skip_direct_download then [] else [pano_img_url name])
    /\ page_requests direct = []
    /\ no_retry direct
    /\ requests browser = []
    /\ no_retry browser
    /\ loads (browser ++ direct) = []
    /\ answered_by E (browser ++ direct)
    /\ (skip_direct_download = false
         /\ o = Done (Some [name; thumb_filename name])
         /\ browser = []
         /\ available w' = b :: rest
         /\ (exists ct content,
               reply E (trace w) (HttpGet (pano_img_url name))
               = Ok (HttpResponse 200 ct content)
               /\ contains "image" ct = true)
         /\ all_ok direct
        \/ page_requests browser = [b]
           /\ out <> []
           /\ (skip_direct_download = false -> MsgDirectFailed ∈ out)
           /\ (o = Done (Some [name; thumb_filename name])
               /\ available w' = rest ++ [b] /\ all_ok_but_wait browser
               \/ o = Done None /\ available w' = rest ++ [b]
               \/ exists e, o = Throw e /\ available w' = rest /\ page_failed browser)).
Proof.
  intros Hname Havail. unfold download_pano_image.
  destruct skip_direct_download; cbn [negb].
  - destruct (browser_method_run t name api_key http_port w b rest Hname Havail)
      as (o & w' & out & evs & Hrun & Htrace & Hpages & Hreq & Hld & Hnr & Hans & Hout & Hres).
    unfold mbind, M_bind, mret, M_ret. rewrite Hrun.
    exists o, w', out, [], evs. rewrite !app_nil_r.
    repeat split; try done; try apply NoDup_nil_2.
    right. split; [done|]. split; [done|]. split; [done|].
    destruct Hres as [(res & -> & Hav & [->|[-> Hok]])|(e & -> & Hav & Hfail)];
      [by right; left|by left|right; right; by exists e].
  - destruct (download_pano_image_direct_run t name w Hname)
      as (od & wd & outd & direct & Hdirect & Htrd & Havd & Hreqd & Hpgd & Hldd & Hnrd & Hansd & Hresd).
    rewrite (run_bind _ _ w od wd outd Hdirect).
    destruct Hresd as [->|(-> & Hreply & Hok)].
    + rewrite Havail in Havd.
      destruct (browser_method_run t name api_key http_port wd b rest Hname Havd)
        as (o & w' & out & evs & Hrun & Htrace & Hpages & Hreq & Hld & Hnr & Hans & Hout & Hres).
      unfold mbind, M_bind, print. rewrite Hrun.
      exists o, w', (outd ++ [MsgDirectFailed] ++ out), direct, evs.
      rewrite Htrace, Htrd.
      repeat split; try done;
      [unfold loads in *; rewrite omap_app; by rewrite Hld, Hldd|by apply answered_by_app|].
      right. split; [done|]. split; [by destruct outd|]. split; [intros _; set_solver|].
      destruct Hres as [(res & -> & Hav & [->|[-> Hokb]])|(e & -> & Hav & Hfail)];
        [by right; left|by left|right; right; by exists e].
    + unfold mret, M_ret.
      exists (Done (Some [name; thumb_filename name])), wd, (outd ++ []), direct, [].
      rewrite app_nil_l.
      repeat split; try done; try apply NoDup_nil_2.
      left. repeat split; try done. by rewrite Havd.
Qed.

End Tiers.

(** C10 fails when [browser.new_page()] raises: the [finally] clause
    reads the unbound [page], raises in turn, and the browser is never
    put back; after two such tiles a third waits for ever. *)
Lemma new_page_failure_loses_browser :
  (exists w' out,
     @download_pano_image plain_runtime page_crash_env scenario_tile "key" 8000 false
       start_world
     = (Throw UnboundLocalError, w', out)
     /\ available w' = [1%nat])
  /\ (@process_all plain_runtime page_crash_env "key" 8000 false
        ["1.json"; "2.json"; "3.json"] [] start_world).1.1 = Hang.
Proof.
  split; [eexists _, _; split; [vm_compute; reflexivity|reflexivity]|].
  vm_compute. reflexivity.
Qed.

(** * Processing a puzzle file *)

Section Processing.
Context `{PyRuntime} (E : env).
Context (api_key : string) (http_port : Z) (skip_direct_download : bool).

Lemma name_of_Some t name : name_of t = Some name <-> create_new_filename t = Ok name.
Proof.
  unfold name_of. destruct (create_new_filename t); split; intros Heq; by simplify_eq.
Qed.

Lemma needs_careful fs t :
  careful_pano_id t = None -> needs_download fs t = false /\ needs_thumb fs t = false.
Proof.
  intros Hnone. apply careful_pano_id_None in Hnone.
  unfold needs_download, needs_thumb, name_of.
  by destruct (create_new_filename t).
Qed.

Lemma run_bind_pure {A B} (m : M A) (f : A -> M B) w a w1 :
  m w = (Done a, w1, []) -> (m ≫= f) w = f a w1.
Proof.
  intros Hm. unfold mbind, M_bind. rewrite Hm.
  by destruct (f a w1) as [[o2 w2] out2].
Qed.

Lemma exists_file_present name w :
  name ∈ files w -> exists_file E name w = (Done true, w, []).
Proof. intros Hin. unfold exists_file. by rewrite bool_decide_eq_true_2. Qed.

Lemma exists_file_absent name w :
  name ∉ files w -> exists_error E name = None ->
  exists_file E name w = (Done false, w, []).
Proof. intros Hin Herr. unfold exists_file. by rewrite bool_decide_eq_false_2, Herr. Qed.

Lemma exists_file_raises name w e :
  name ∉ files w -> exists_error E name = Some e ->
  exists_file E name w = (Throw e, w, []).
Proof. intros Hin Herr. unfold exists_file. by rewrite bool_decide_eq_false_2, Herr. Qed.

(** The first loop sorts the tiles by what is on disk and leaves the
    world as it is; it stops at the first existence check that raises. *)
Lemma classify_outcome tiles : forall needed_tiles thumb_only_tiles w,
  exists out,
    classify E tiles needed_tiles thumb_only_tiles w
    = (Done (needed_tiles ++ List.filter (needs_download (files w)) tiles,
             thumb_only_tiles ++ List.filter (needs_thumb (files w)) tiles), w, out)
    \/ exists e t name,
         classify E tiles needed_tiles thumb_only_tiles w = (Throw e, w, out)
         /\ t ∈ tiles /\ create_new_filename t = Ok name
         /\ ((name ∉ files w) /\ exists_error E name = Some e
             \/ (thumb_filename name ∉ files w)
                /\ exists_error E (thumb_filename name) = Some e).
Proof.
  induction tiles as [|t rest IH]; intros needed_tiles thumb_only_tiles w.
  { exists []. left. cbn. by rewrite !app_nil_r. }
  assert (forall n th,
            n ++ List.filter (needs_download (files w)) rest
            = needed_tiles ++ List.filter (needs_download (files w)) (t :: rest) ->
            th ++ List.filter (needs_thumb (files w)) rest
            = thumb_only_tiles ++ List.filter (needs_thumb (files w)) (t :: rest) ->
            exists out,
              classify E rest n th w
              = (Done (needed_tiles ++ List.filter (needs_download (files w)) (t :: rest),
                       thumb_only_tiles ++ List.filter (needs_thumb (files w)) (t :: rest)),
                 w, out)
              \/ exists e t' name,
                   classify E rest n th w = (Throw e, w, out)
                   /\ t' ∈ t :: rest /\ create_new_filename t' = Ok name
                   /\ ((name ∉ files w) /\ exists_error E name = Some e
                       \/ (thumb_filename name ∉ files w)
                          /\ exists_error E (thumb_filename name) = Some e)) as Hrest.
  { intros n th <- <-.
    destruct (IH n th w) as [out [->|(e & t' & name & -> & Hin & Hname & Hwhy)]].
    - exists out. by left.
    - exists out. right. exists e, t', name. split; [done|]. split; [by right|done]. }
  assert (forall n th m,
            n ++ List.filter (needs_download (files w)) rest
            = needed_tiles ++ List.filter (needs_download (files w)) (t :: rest) ->
            th ++ List.filter (needs_thumb (files w)) rest
            = thumb_only_tiles ++ List.filter (needs_thumb (files w)) (t :: rest) ->
            exists out,
              (_ ← print m; classify E rest n th) w
              = (Done (needed_tiles ++ List.filter (needs_download (files w)) (t :: rest),
                       thumb_only_tiles ++ List.filter (needs_thumb (files w)) (t :: rest)),
                 w, out)
              \/ exists e t' name,
                   (_ ← print m; classify E rest n th) w = (Throw e, w, out)
                   /\ t' ∈ t :: rest /\ create_new_filename t' = Ok name
                   /\ ((name ∉ files w) /\ exists_error E name = Some e
                       \/ (thumb_filename name ∉ files w)
                          /\ exists_error E (thumb_filename name) = Some e)) as Hprint.
  { intros n th m Hn Hth. unfold mbind, M_bind, print.
    destruct (Hrest n th Hn Hth) as [out [->|(e & t' & name & -> & Hrest')]].
    - eexists. by left.
    - eexists. right. by exists e, t', name. }
  cbn [classify].
  destruct (careful_pano_id t) as [pano_id|] eqn:Hcareful.
  2: { destruct (needs_careful (files w) t Hcareful) as [Hnd Hnt].
       apply Hprint; cbn [List.filter]; by rewrite ?Hnd, ?Hnt. }
  destruct (create_new_filename t) as [base|e] eqn:Hbase.
  2: { apply Hprint; cbn [List.filter]; unfold needs_download, needs_thumb, name_of;
       by rewrite Hbase. }
  assert (forall fs, needs_download fs t = negb (bool_decide (base ∈ fs))) as Hdown
    by (intros fs; unfold needs_download, name_of; by rewrite Hbase).
  assert (forall fs, needs_thumb fs t
                     = bool_decide (base ∈ fs) && negb (bool_decide (thumb_filename base ∈ fs)))
    as Hth by (intros fs; unfold needs_thumb, name_of; by rewrite Hbase).
  destruct (decide (base ∈ files w)) as [Hfull|Hfull].
  - rewrite (run_bind_pure _ _ w true w (exists_file_present base w Hfull)).
    destruct (decide (thumb_filename base ∈ files w)) as [Hthumb|Hthumb].
    + rewrite (run_bind_pure _ _ w true w (exists_file_present _ w Hthumb)).
      cbn [negb andb]. apply Hrest; cbn [List.filter]; rewrite ?Hdown, ?Hth;
        by rewrite !bool_decide_eq_true_2.
    + destruct (exists_error E (thumb_filename base)) as [e|] eqn:Herr.
      * rewrite (run_bind _ _ w _ w [] (exists_file_raises _ w e Hthumb Herr)).
        exists []. right. exists e, t, base. repeat split; [by left|done|by right].
      * rewrite (run_bind_pure _ _ w false w (exists_file_absent _ w Hthumb Herr)).
        cbn [negb andb]. apply Hrest; cbn [List.filter]; rewrite ?Hdown, ?Hth;
          rewrite bool_decide_eq_true_2, ?bool_decide_eq_false_2 by done; cbn [negb andb];
          by rewrite <- ?app_assoc.
  - destruct (exists_error E base) as [e|] eqn:Herr.
    { rewrite (run_bind _ _ w _ w [] (exists_file_raises _ w e Hfull Herr)).
      exists []. right. exists e, t, base. repeat split; [by left|done|by left]. }
    rewrite (run_bind_pure _ _ w false w (exists_file_absent _ w Hfull Herr)).
    destruct (decide (thumb_filename base ∈ files w)) as [Hthumb|Hthumb].
    + rewrite (run_bind_pure _ _ w true w (exists_file_present _ w Hthumb)).
      cbn [negb andb]. apply Hrest; cbn [List.filter]; rewrite ?Hdown, ?Hth;
        rewrite bool_decide_eq_false_2 by done; cbn [negb andb];
        by rewrite <- ?app_assoc.
    + destruct (exists_error E (thumb_filename base)) as [e|] eqn:Herr'.
      * rewrite (run_bind _ _ w _ w [] (exists_file_raises _ w e Hthumb Herr')).
        exists []. right. exists e, t, base. repeat split; [by left|done|by right].
      * rewrite (run_bind_pure _ _ w false w (exists_file_absent _ w Hthumb Herr')).
        cbn [negb andb]. apply Hrest; cbn [List.filter]; rewrite ?Hdown, ?Hth;
          rewrite bool_decide_eq_false_2 by done; cbn [negb andb];
          by rewrite <- ?app_assoc.
Qed.

(** When the existence checks return, so does the first loop. *)
Lemma classify_run tiles needed_tiles thumb_only_tiles w :
  checks_return E (files w) tiles ->
  exists out,
    classify E tiles needed_tiles thumb_only_tiles w
    = (Done (needed_tiles ++ List.filter (needs_download (files w)) tiles,
             thumb_only_tiles ++ List.filter (needs_thumb (files w)) tiles), w, out).
Proof.
  intros Hchecks.
  destruct (classify_outcome tiles needed_tiles thumb_only_tiles w)
    as [out [Hd|(e & t & name & _ & Hin & Hname & Hwhy)]]; [by exists out|].
  destruct (Hchecks t name Hin Hname) as [[Hfull|Hfull] [Hthumb|Hthumb]];
    destruct Hwhy as [[Hno Herr]|[Hno Herr]]; congruence.
Qed.

(** However the first loop ends, it calls nothing and changes nothing. *)
Lemma classify_world tiles needed_tiles thumb_only_tiles w :
  (classify E tiles needed_tiles thumb_only_tiles w).1.2 = w
  /\ (classify E tiles needed_tiles thumb_only_tiles w).1.1 <> Hang.
Proof.
  destruct (classify_outcome tiles needed_tiles thumb_only_tiles w)
    as [out [->|(e & t & name & -> & _)]]; by split.
Qed.

Lemma checks_return_present fs tiles :
  (forall t name, t ∈ tiles -> create_new_filename t = Ok name ->
     name ∈ fs /\ thumb_filename name ∈ fs) ->
  checks_return E fs tiles.
Proof.
  intros Hall t name Hin Hname. destruct (Hall t name Hin Hname).
  split; by left.
Qed.


Lemma requests_app evs1 evs2 : requests (evs1 ++ evs2) = requests evs1 ++ requests evs2.
Proof. apply omap_app. Qed.

Lemma page_requests_app evs1 evs2 :
  page_requests (evs1 ++ evs2) = page_requests evs1 ++ page_requests evs2.
Proof. apply omap_app. Qed.

Lemma opened_app evs1 evs2 : opened (evs1 ++ evs2) = opened evs1 ++ opened evs2.
Proof. apply omap_app. Qed.

Lemma loads_app evs1 evs2 : loads (evs1 ++ evs2) = loads evs1 ++ loads evs2.
Proof. apply omap_app. Qed.

Lemma page_failed_app_l evs1 evs2 : page_failed evs1 -> page_failed (evs1 ++ evs2).
Proof. unfold page_failed. intros. apply Exists_app. by left. Qed.

(** What one download leaves behind when pages can be opened and closed:
    it returns, the pool keeps its size, and a failure is printed. *)
Lemma download_pano_image_returns t name w :
  pages_work E ->
  create_new_filename t = Ok name ->
  available w <> [] ->
  exists res w' out evs,
    download_pano_image E t api_key http_port skip_direct_download w = (Done res, w', out)
    /\ trace w' = evs ++ trace w
    /\ length (available w') = length (available w)
    /\ requests evs = (if skip_direct_download then [] else [pano_img_url name])
    /\ (length (page_requests evs) <= 1)%nat
    /\ (skip_direct_download = true -> length (page_requests evs) = 1%nat)
    /\ loads evs = []
    /\ answered_by E evs
    /\ (res = None /\ out <> [] \/ res = Some [name; thumb_filename name]).
Proof.
  intros Hwork Hname Havail.
  destruct (available w) as [|b rest] eqn:Hav; [done|].
  destruct (download_pano_image_run E t name api_key http_port skip_direct_download
              w b rest Hname Hav)
    as (o & w' & out & direct & browser & Hrun & Htrace & Hreq & Hpg & _ & Hreqb & _
        & Hld & Hans & Hres).
  assert (requests (browser ++ direct)
          = if skip_direct_download then [] else [pano_img_url name]) as Hreqs
    by (rewrite requests_app, Hreqb, Hreq; done).
  assert (page_requests (browser ++ direct) = page_requests browser) as Hpgs
    by (rewrite page_requests_app, Hpg; apply app_nil_r).
  destruct Hres as [(Hskip & -> & -> & Hav' & _)
                   |(Hpages & Hout & _ & [(-> & Hav' & _)|[(-> & Hav')|(e & -> & _ & Hfail)]])].
  - exists (Some [name; thumb_filename name]), w', out, ([] ++ direct).
    rewrite Hav'. repeat split; try done.
    + rewrite Hpgs. simpl. lia.
    + by rewrite Hskip.
    + by right.
  - exists (Some [name; thumb_filename name]), w', out, (browser ++ direct).
    rewrite Hav', Hpgs, Hpages, length_app. simpl.
    repeat split; try done; [by rewrite <- app_assoc|lia|by right].
  - exists None, w', out, (browser ++ direct).
    rewrite Hav', Hpgs, Hpages, length_app. simpl.
    repeat split; try done; [by rewrite <- app_assoc|lia|by left].
  - exfalso. apply (pages_work_not_failed E (browser ++ direct)); try done.
    by apply page_failed_app_l.
Qed.

Lemma nonempty_length {A} (l l' : list A) : length l' = length l -> l <> [] -> l' <> [].
Proof. destruct l, l'; try done. Qed.

Lemma omap_name tiles t name :
  name_of t = Some name -> omap name_of (t :: tiles) = name :: omap name_of tiles.
Proof. intros Hname. change (omap name_of (t :: tiles)) with
    (match name_of t with Some y => y :: omap name_of tiles | None => omap name_of tiles end).
  by rewrite Hname.
Qed.

(** The download loop visits every needed tile, in order. *)
Lemma download_needed_run needed_tiles downloaded w :
  pages_work E ->
  Forall (fun t => is_Some (name_of t)) needed_tiles ->
  available w <> [] ->
  exists got w' out evs,
    download_needed E api_key http_port skip_direct_download needed_tiles downloaded w
    = (Done (downloaded ++ got), w', out)
    /\ trace w' = evs ++ trace w
    /\ length (available w') = length (available w)
    /\ requests evs = (if skip_direct_download then []
                       else rev (map pano_img_url (omap name_of needed_tiles)))
    /\ (length (page_requests evs) <= length needed_tiles)%nat
    /\ (skip_direct_download = true ->
        length (page_requests evs) = length needed_tiles)
    /\ loads evs = []
    /\ answered_by E evs
    /\ Forall (fun f => exists t, t ∈ needed_tiles /\ names_of t f) got.
Proof.
  intros Hwork Hall. revert downloaded w.
  induction Hall as [|t rest [name Hname] Hall IH]; intros downloaded w Havail.
  { exists [], w, [], []. cbn. rewrite app_nil_r.
    repeat split; try done; [by destruct skip_direct_download|by apply Forall_nil..]. }
  pose proof (proj1 (name_of_Some t name) Hname) as Hcodec.
  destruct (download_pano_image_returns t name w Hwork Hcodec Havail)
    as (res & w1 & out1 & evs1 & Hrun1 & Htr1 & Hlen1 & Hreq1 & Hpg1 & Hpgskip1
        & Hld1 & Hans1 & Hres1).
  cbn [download_needed]. rewrite (run_bind _ _ w _ w1 out1 Hrun1).
  assert (available w1 <> []) as Havail1 by (by apply (nonempty_length (available w))).
  assert (exists got1,
            (match res with
             | Some (f :: fs) =>
                 download_needed E api_key http_port skip_direct_download rest
                   (downloaded ++ f :: fs)
             | _ => download_needed E api_key http_port skip_direct_download rest downloaded
             end) = download_needed E api_key http_port skip_direct_download rest
                      (downloaded ++ got1)
            /\ Forall (fun f => names_of t f) got1) as (got1 & -> & Hgot1).
  { destruct Hres1 as [[-> _]| ->].
    - exists []. by rewrite app_nil_r.
    - exists [name; thumb_filename name]. split; [done|].
      repeat constructor; exists name; split; auto. }
  destruct (IH (downloaded ++ got1) w1 Havail1)
    as (got & w' & out & evs & Hrun & Htr & Hlen & Hreq & Hpg & Hpgskip & Hld & Hans & Hgot).
  rewrite Hrun. exists (got1 ++ got), w', (out1 ++ out), (evs ++ evs1).
  rewrite app_assoc. split; [done|].
  rewrite Htr, Htr1, Hlen, Hlen1, requests_app, page_requests_app, loads_app, Hreq, Hreq1,
    Hld, Hld1, length_app.
  rewrite (omap_name rest t name Hname). cbn [map rev length].
  repeat split; try done.
  - by rewrite app_assoc.
  - by destruct skip_direct_download.
  - lia.
  - intros Hskip. rewrite (Hpgskip Hskip), (Hpgskip1 Hskip). lia.
  - by apply answered_by_app.
  - apply Forall_app. split.
    + eapply Forall_impl; [exact Hgot1|]. intros f Hf. exists t. split; [by left|done].
    + eapply Forall_impl; [exact Hgot|]. intros f (t' & Hin & Hf). exists t'.
      split; [by right|done].
Qed.

Lemma thumb_error_pano_id t name :
  create_new_filename t = Ok name ->
  exists pano_id,
    (if truthy (dict_get t "panoId" PNone) then Ok (dict_get t "panoId" PNone)
     else py_get (dict_get t "extra" (PDict ∅)) "panoId" (PStr "unknown"))
    = Ok pano_id.
Proof.
  intros Hname.
  destruct (create_new_filename_parts t name Hname)
    as (pano_id & _ & _ & _ & _ & Hlook & _).
  revert Hlook. unfold lookup_pano_id.
  destruct (truthy (dict_get t "panoId" PNone)); [by eexists|].
  destruct (dict_get t "extra" (PDict ∅)); try (intros ?; discriminate).
  by eexists.
Qed.

(** The thumbnail loop opens the full image of every tile, in order, and
    asks for no download. *)
Lemma generate_thumbs_run thumb_only_tiles downloaded w :
  Forall (fun t => is_Some (name_of t)) thumb_only_tiles ->
  exists got w' out evs,
    generate_thumbs E thumb_only_tiles downloaded w = (Done (downloaded ++ got), w', out)
    /\ trace w' = evs ++ trace w
    /\ available w' = available w
    /\ requests evs = []
    /\ page_requests evs = []
    /\ loads evs = []
    /\ opened evs = rev (omap name_of thumb_only_tiles)
    /\ answered_by E evs
    /\ Forall (fun f => exists t, t ∈ thumb_only_tiles /\ names_of t f) got.
Proof.
  intros Hall. revert downloaded w.
  induction Hall as [|t rest [name Hname] Hall IH]; intros downloaded w.
  { exists [], w, [], []. cbn. rewrite app_nil_r.
    repeat split; try done; by apply Forall_nil. }
  pose proof (proj1 (name_of_Some t name) Hname) as Hcodec.
  destruct (thumb_error_pano_id t name Hcodec) as [pano_id Hpid].
  assert (exists got1 w1 out1 evs1,
            (try_except
                 (base_filename ← lift (create_new_filename t);
                  let thumb := thumb_filename base_filename in
                  _ ← perform E (OpenImage base_filename);
                  _ ← perform E (SaveThumb thumb);
                  _ ← print (MsgGenerated thumb);
                  mret (Some thumb))
                 (fun e =>
                    let top := dict_get t "panoId" PNone in
                    _ ← lift (if truthy top then Ok top
                              else py_get (dict_get t "extra" (PDict ∅)) "panoId"
                                     (PStr "unknown"));
                    _ ← print (MsgThumbError e);
                    mret None)) w
               = (Done got1, w1, out1)
            /\ trace w1 = evs1 ++ trace w
            /\ available w1 = available w
            /\ requests evs1 = [] /\ page_requests evs1 = [] /\ loads evs1 = []
            /\ opened evs1 = [name]
            /\ answered_by E evs1
            /\ (got1 = None \/ got1 = Some (thumb_filename name)))
    as (got1 & w1 & out1 & evs1 & Hstep & Htr1 & Hav1 & Hreq1 & Hpg1 & Hld1 & Hop1 & Hans1 & Hgot1).
  { cbv zeta. rewrite Hcodec, Hpid. unfold_ops. reduce. run.
    all: eexists _, _, _, _; split; [reflexivity|]; cbn [trace available].
    all: split; [solve_trace|]; repeat (split; [reflexivity|]).
    all: split; [solve_answered_by|]; auto. }
  cbn [generate_thumbs]. rewrite (run_bind _ _ w _ w1 out1 Hstep).
  assert (exists got2,
            (match got1 with
             | Some thumb => generate_thumbs E rest (downloaded ++ [thumb])
             | None => generate_thumbs E rest downloaded
             end) = generate_thumbs E rest (downloaded ++ got2)
            /\ Forall (fun f => names_of t f) got2) as (got2 & -> & Hgot2).
  { destruct Hgot1 as [->| ->].
    - exists []. by rewrite app_nil_r.
    - exists [thumb_filename name]. split; [done|].
      repeat constructor. exists name. auto. }
  destruct (IH (downloaded ++ got2) w1)
    as (got & w' & out & evs & Hrun & Htr & Hav & Hreq & Hpg & Hld & Hop & Hans & Hgot).
  rewrite Hrun. exists (got2 ++ got), w', (out1 ++ out), (evs ++ evs1).
  rewrite app_assoc. split; [done|].
  rewrite Htr, Htr1, Hav, Hav1, requests_app, page_requests_app, loads_app, opened_app,
    Hreq, Hreq1, Hpg, Hpg1, Hld, Hld1, Hop, Hop1.
  rewrite (omap_name rest t name Hname). cbn [rev].
  repeat split; try done.
  - by rewrite app_assoc.
  - by apply answered_by_app.
  - apply Forall_app. split.
    + eapply Forall_impl; [exact Hgot2|]. intros f Hf. exists t. split; [by left|done].
    + eapply Forall_impl; [exact Hgot|]. intros f (t' & Hin & Hf). exists t'.
      split; [by right|done].
Qed.

Lemma needs_download_name fs t : needs_download fs t = true -> is_Some (name_of t).
Proof. unfold needs_download. by destruct (name_of t). Qed.

Lemma needs_thumb_name fs t : needs_thumb fs t = true -> is_Some (name_of t).
Proof. unfold needs_thumb. by destruct (name_of t). Qed.

Lemma filter_names (f : tile -> bool) tiles :
  (forall t, f t = true -> is_Some (name_of t)) ->
  Forall (fun t => is_Some (name_of t)) (List.filter f tiles).
Proof.
  intros Hf. apply Forall_forall. intros t Hin.
  apply list_elem_of_In, filter_In in Hin as [_ Hin]. by apply Hf.
Qed.

Lemma filter_elem_of (f : tile -> bool) tiles t :
  t ∈ List.filter f tiles <-> t ∈ tiles /\ f t = true.
Proof. rewrite !list_elem_of_In. apply filter_In. Qed.

(** The tiles of a file, once the image directory exists: the needed
    tiles are downloaded, then the missing thumbnails are made. *)
Lemma process_tiles_sorted tiles w outc :
  pages_work E ->
  available w <> [] ->
  reply E (trace w) Mkdir = Ok tt ->
  (let w1 := World (files w) (available w) (Called Mkdir (Ok tt) :: trace w) in
   classify E tiles [] [] w1
   = (Done ([] ++ List.filter (needs_download (files w1)) tiles,
            [] ++ List.filter (needs_thumb (files w1)) tiles), w1, outc)) ->
  exists res w' out downloads regen,
    process_tiles E api_key http_port skip_direct_download tiles w = (Done res, w', out)
    /\ trace w' = regen ++ downloads ++ Called Mkdir (Ok tt) :: trace w
    /\ length (available w') = length (available w)
    /\ requests downloads
       = (if skip_direct_download then []
          else rev (map pano_img_url
                      (omap name_of (List.filter (needs_download (files w)) tiles))))
    /\ (length (page_requests downloads)
        <= length (List.filter (needs_download (files w)) tiles))%nat
    /\ (skip_direct_download = true ->
        length (page_requests downloads)
        = length (List.filter (needs_download (files w)) tiles))
    /\ requests regen = []
    /\ page_requests regen = []
    /\ opened regen = rev (omap name_of (List.filter (needs_thumb (files w)) tiles))
    /\ loads (regen ++ downloads) = []
    /\ answered_by E (regen ++ downloads)
    /\ Forall (fun f => exists t, t ∈ tiles /\ names_of t f) res.
Proof.
  intros Hwork Havail Hmkdir Hclassify. unfold process_tiles.
  set (w1 := World (files w) (available w) (Called Mkdir (Ok tt) :: trace w)) in *.
  assert (perform E Mkdir w = (Done tt, w1, [])) as Hperform
    by (unfold perform; rewrite Hmkdir; reflexivity).
  rewrite (run_bind _ _ w _ w1 [] Hperform). cbv zeta in Hclassify.
  rewrite (run_bind _ _ w1 _ w1 outc Hclassify). cbn [app files w1].
  set (needed := List.filter (needs_download (files w)) tiles) in *.
  set (thumbs := List.filter (needs_thumb (files w)) tiles) in *.
  assert (Forall (fun t => is_Some (name_of t)) needed) as Hneeded
    by (apply filter_names, needs_download_name).
  assert (Forall (fun t => is_Some (name_of t)) thumbs) as Hthumbs
    by (apply filter_names, needs_thumb_name).
  destruct (download_needed_run needed [] w1 Hwork Hneeded Havail)
    as (got1 & w2 & out1 & evs1 & Hrun1 & Htr1 & Hlen1 & Hreq1 & Hpg1 & Hpgs1 & Hld1
        & Hans1 & Hgot1).
  destruct (generate_thumbs_run thumbs ([] ++ got1) w2 Hthumbs)
    as (got2 & w3 & out2 & evs2 & Hrun2 & Htr2 & Hav2 & Hreq2 & Hpg2 & Hld2 & Hop2
        & Hans2 & Hgot2).
  assert (Forall (fun f => exists t, t ∈ tiles /\ names_of t f) (([] ++ got1) ++ got2)) as Hres.
  { cbn [app]. apply Forall_app. split.
    - eapply Forall_impl; [exact Hgot1|]. intros f (t & Hin & Hf). exists t.
      split; [|done]. by apply filter_elem_of in Hin as [Hin _].
    - eapply Forall_impl; [exact Hgot2|]. intros f (t & Hin & Hf). exists t.
      split; [|done]. by apply filter_elem_of in Hin as [Hin _]. }
  assert (exists res w' out downloads regen,
            (downloaded ← download_needed E api_key http_port skip_direct_download needed [];
             generate_thumbs E thumbs downloaded) w1 = (Done res, w', out)
            /\ trace w' = regen ++ downloads ++ trace w1
            /\ length (available w') = length (available w)
            /\ requests downloads
               = (if skip_direct_download then []
                  else rev (map pano_img_url (omap name_of needed)))
            /\ (length (page_requests downloads) <= length needed)%nat
            /\ (skip_direct_download = true -> length (page_requests downloads) = length needed)
            /\ requests regen = [] /\ page_requests regen = []
            /\ opened regen = rev (omap name_of thumbs)
            /\ loads (regen ++ downloads) = []
            /\ answered_by E (regen ++ downloads)
            /\ Forall (fun f => exists t, t ∈ tiles /\ names_of t f) res) as Hboth.
  { rewrite (run_bind _ _ w1 _ w2 out1 Hrun1), Hrun2.
    exists (([] ++ got1) ++ got2), w3, (out1 ++ out2), evs1, evs2.
    rewrite Htr2, Htr1, Hav2, Hlen1, loads_app, Hld1, Hld2.
    repeat split; try done. by apply answered_by_app. }
  destruct needed as [|t1 needed'] eqn:Hn, thumbs as [|t2 thumbs'] eqn:Ht;
    try (destruct Hboth as (res & w' & out & downloads & regen & -> & Hrest);
         exists res, w', (outc ++ out), downloads, regen; split; [reflexivity|exact Hrest]).
  exists [], w1, (outc ++ [MsgAllExist]), [], [].
  unfold_ops. repeat split; try done; try (by destruct skip_direct_download); by apply Forall_nil.
Qed.

Lemma process_tiles_run tiles w :
  pages_work E ->
  available w <> [] ->
  reply E (trace w) Mkdir = Ok tt ->
  checks_return E (files w) tiles ->
  exists res w' out downloads regen,
    process_tiles E api_key http_port skip_direct_download tiles w = (Done res, w', out)
    /\ trace w' = regen ++ downloads ++ Called Mkdir (Ok tt) :: trace w
    /\ length (available w') = length (available w)
    /\ requests downloads
       = (if skip_direct_download then []
          else rev (map pano_img_url
                      (omap name_of (List.filter (needs_download (files w)) tiles))))
    /\ (length (page_requests downloads)
        <= length (List.filter (needs_download (files w)) tiles))%nat
    /\ (skip_direct_download = true ->
        length (page_requests downloads)
        = length (List.filter (needs_download (files w)) tiles))
    /\ requests regen = []
    /\ page_requests regen = []
    /\ opened regen = rev (omap name_of (List.filter (needs_thumb (files w)) tiles))
    /\ loads (regen ++ downloads) = []
    /\ answered_by E (regen ++ downloads)
    /\ Forall (fun f => exists t, t ∈ tiles /\ names_of t f) res.
Proof.
  intros Hwork Havail Hmkdir Hchecks.
  destruct (classify_run tiles [] []
              (World (files w) (available w) (Called Mkdir (Ok tt) :: trace w)) Hchecks)
    as [outc Hclassify].
  by apply (process_tiles_sorted tiles w outc).
Qed.

(** One puzzle file: whatever goes wrong is caught, and the file is read
    once. *)
Lemma process_json_file_async_run json_file w :
  pages_work E ->
  available w <> [] ->
  exists res w' out evs,
    process_json_file_async E api_key http_port skip_direct_download json_file w
    = (Done res, w', out)
    /\ trace w' = evs ++ trace w
    /\ length (available w') = length (available w)
    /\ loads evs = [json_file]
    /\ answered_by E evs.
Proof.
  intros Hwork Havail. unfold process_json_file_async.
  destruct (reply E (trace w) (LoadJson json_file)) as [data|e] eqn:Hload.
  2: { unfold_ops. rewrite Hload. reduce.
       eexists _, _, _, [_]. repeat split; try done. solve_answered_by. }
  set (w1 := World (files w) (available w) (Called (LoadJson json_file) (Ok data) :: trace w)).
  assert (perform E (LoadJson json_file) w = (Done data, w1, [])) as Hperform
    by (unfold perform; rewrite Hload; reflexivity).
  unfold try_except. rewrite (run_bind _ _ w _ w1 [] Hperform).
  assert (answered_by E [Called (LoadJson json_file) (Ok data)]) as Hans0
    by solve_answered_by.
  destruct (extract_tiles data) as [[|t tiles]|].
  - unfold_ops. eexists _, w1, _, [_]. repeat split; done.
  - destruct (reply E (trace w1) Mkdir) as [[]|e] eqn:Hmkdir.
    + set (w2 := World (files w1) (available w1) (Called Mkdir (Ok tt) :: trace w1)).
      destruct (classify_outcome (t :: tiles) [] [] w2)
        as [outc [Hclassify|(e & t' & name & Hclassify & _)]].
      2: { unfold process_tiles, mbind at 1, M_bind at 1, perform at 1. rewrite Hmkdir.
           cbn [is_ok orb written]. fold w2.
           rewrite (run_bind _ _ w2 _ w2 outc Hclassify). unfold_ops. reduce.
           eexists _, _, _, [_; _]. repeat split; try done.
           subst w1. solve_answered_by. }
      destruct (process_tiles_sorted (t :: tiles) w1 outc Hwork Havail Hmkdir Hclassify)
        as (res & w' & out & downloads & regen & -> & Htr & Hlen & _ & _ & _ & _ & _ & _
            & Hld & Hans & _).
      exists res, w', ([] ++ out), (regen ++ downloads ++ [Called Mkdir (Ok tt)] ++ [Called (LoadJson json_file) (Ok data)]).
      rewrite Htr, Hlen. repeat split; try done.
      * by rewrite <- !app_assoc.
      * rewrite app_assoc, loads_app, Hld. done.
      * rewrite app_assoc. apply answered_by_app; [done|].
        subst w1. solve_answered_by.
    + unfold process_tiles, mbind, M_bind, perform. rewrite Hmkdir. reduce.
      unfold_ops. reduce.
      eexists _, _, _, [_; _]. repeat split; try done.
      subst w1. solve_answered_by.
  - unfold_ops. eexists _, w1, _, [_]. repeat split; done.
Qed.

(** The loop over the puzzle files reads every file, in order. *)
Lemma process_all_run json_files all_downloaded w :
  pages_work E ->
  available w <> [] ->
  exists res w' out evs,
    process_all E api_key http_port skip_direct_download json_files all_downloaded w
    = (Done res, w', out)
    /\ trace w' = evs ++ trace w
    /\ length (available w') = length (available w)
    /\ loads evs = rev json_files
    /\ answered_by E evs.
Proof.
  intros Hwork. revert all_downloaded w.
  induction json_files as [|json_file rest IH]; intros all_downloaded w Havail.
  { exists all_downloaded, w, [], []. repeat split; try done. by apply Forall_nil. }
  destruct (process_json_file_async_run json_file w Hwork Havail)
    as (res1 & w1 & out1 & evs1 & Hrun1 & Htr1 & Hlen1 & Hld1 & Hans1).
  assert (available w1 <> []) as Havail1 by (by apply (nonempty_length (available w))).
  destruct (IH (all_downloaded ++ res1) w1 Havail1)
    as (res & w' & out & evs & Hrun & Htr & Hlen & Hld & Hans).
  cbn [process_all].
  assert (try_except
            (process_json_file_async E api_key http_port skip_direct_download json_file)
            (fun e => _ ← print (MsgFileError json_file e); mret []) w
          = (Done res1, w1, out1)) as Htry
    by (unfold try_except at 1; by rewrite Hrun1).
  rewrite (run_bind _ _ w _ w1 out1 Htry), Hrun.
  exists res, w', (out1 ++ out), (evs ++ evs1).
  rewrite Htr, Htr1, Hlen, Hlen1, loads_app, Hld, Hld1.
  repeat split; try done; [by rewrite app_assoc|by apply answered_by_app].
Qed.


Lemma elem_of_rev {A} (l : list A) x : x ∈ rev l <-> x ∈ l.
Proof. rewrite !list_elem_of_In. symmetry. apply in_rev. Qed.


(** X17: when pages can be opened and closed, the errors of a tile (no
    identifier, network, rendering, storage) are caught where they occur
    and printed: a download returns, with the two names or with nothing
    and a message; the tiles of a file whose names can be looked up are
    all visited; and the loop over the puzzle files reads every file,
    whatever happened before. *)
Theorem errors_stay_local :
  pages_work E ->
  (forall t name w,
     create_new_filename t = Ok name -> available w <> [] ->
     exists res w' out,
       download_pano_image E t api_key http_port skip_direct_download w
       = (Done res, w', out)
       /\ (res = None /\ out <> [] \/ res = Some [name; thumb_filename name]))
  /\ (forall tiles w,
        available w <> [] -> reply E (trace w) Mkdir = Ok tt ->
        checks_return E (files w) tiles ->
        exists res w' out downloads regen,
          process_tiles E api_key http_port skip_direct_download tiles w
          = (Done res, w', out)
          /\ trace w' = regen ++ downloads ++ Called Mkdir (Ok tt) :: trace w
          /\ requests downloads
             = (if skip_direct_download then []
                else rev (map pano_img_url
                            (omap name_of (List.filter (needs_download (files w)) tiles))))
          /\ (skip_direct_download = true ->
              length (page_requests downloads)
              = length (List.filter (needs_download (files w)) tiles))
          /\ opened regen
             = rev (omap name_of (List.filter (needs_thumb (files w)) tiles))
          /\ Forall (fun f => exists t, t ∈ tiles /\ names_of t f) res)
  /\ (forall json_files w,
        available w <> [] ->
        exists res w' out evs,
          process_all E api_key http_port skip_direct_download json_files [] w
          = (Done res, w', out)
          /\ trace w' = evs ++ trace w
          /\ loads evs = rev json_files).
Proof.
  intros Hwork. split; [|split].
  - intros t name w Hname Havail.
    destruct (download_pano_image_returns t name w Hwork Hname Havail)
      as (res & w' & out & evs & Hrun & _ & _ & _ & _ & _ & _ & _ & Hres).
    by exists res, w', out.
  - intros tiles w Havail Hmkdir Hchecks.
    destruct (process_tiles_run tiles w Hwork Havail Hmkdir Hchecks)
      as (res & w' & out & downloads & regen & Hrun & Htr & _ & Hreq & _ & Hpgs
          & _ & _ & Hop & _ & _ & Hres).
    by exists res, w', out, downloads, regen.
  - intros json_files w Havail.
    destruct (process_all_run json_files [] w Hwork Havail)
      as (res & w' & out & evs & Hrun & Htr & _ & Hld & _).
    by exists res, w', out, evs.
Qed.

Lemma bind_fst {A B} (m1 m2 : M A) (f : A -> M B) w :
  (m1 w).1 = (m2 w).1 -> ((m1 ≫= f) w).1 = ((m2 ≫= f) w).1.
Proof.
  unfold mbind, M_bind.
  destruct (m1 w) as [[o1 w1] out1], (m2 w) as [[o2 w2] out2]. cbn [fst].
  intros [= -> ->]. destruct o2 as [a| |]; [|done..].
  by destruct (f a w2) as [[o3 w3] out3].
Qed.

Lemma print_fst {B} (msg : message) (m : M B) w :
  ((_ ← print msg; m) w).1 = (m w).1.
Proof. unfold mbind, M_bind, print. by destruct (m w) as [[o2 w2] out2]. Qed.

(** A tile without a name is passed over by the first loop. *)
Lemma classify_skips t pre post :
  name_of t = None ->
  forall needed_tiles thumb_only_tiles w,
    (classify E (pre ++ t :: post) needed_tiles thumb_only_tiles w).1
    = (classify E (pre ++ post) needed_tiles thumb_only_tiles w).1.
Proof.
  intros Hnone. induction pre as [|a pre IH]; intros needed_tiles thumb_only_tiles w.
  - cbn [app classify]. unfold name_of in Hnone.
    destruct (careful_pano_id t); [|apply print_fst].
    destruct (create_new_filename t); [done|apply print_fst].
  - cbn [app classify].
    destruct (careful_pano_id a); [|by rewrite !print_fst].
    destruct (create_new_filename a) as [base|e]; [|by rewrite !print_fst].
    unfold mbind at 1 3, M_bind at 1 3.
    destruct (exists_file E base w) as [[[full_exists| |] w1] out1]; [|done..].
    unfold mbind at 1 2, M_bind at 1 2.
    destruct (exists_file E (thumb_filename base) w1) as [[[thumb_exists| |] w2] out2];
      [|done..].
    assert (forall n th,
              (let '(o2, w3, out3) := classify E (pre ++ t :: post) n th w2 in
               (o2, w3, out2 ++ out3)).1
              = (let '(o2, w3, out3) := classify E (pre ++ post) n th w2 in
                 (o2, w3, out2 ++ out3)).1) as Hstep.
    { intros n th. specialize (IH n th w2).
      destruct (classify E (pre ++ t :: post) n th w2) as [[oa wa] outa],
        (classify E (pre ++ post) n th w2) as [[ob wb] outb]. exact IH. }
    assert (forall (m1 m2 : M (list tile * list tile)),
              (let '(o2, w3, out3) := m1 w2 in (o2, w3, out2 ++ out3)).1
              = (let '(o2, w3, out3) := m2 w2 in (o2, w3, out2 ++ out3)).1 ->
              (let '(o2, w3, out3) :=
                 let '(o2, w3, out3) := m1 w2 in (o2, w3, out2 ++ out3) in
               (o2, w3, out1 ++ out3)).1
              = (let '(o2, w3, out3) :=
                   let '(o2, w3, out3) := m2 w2 in (o2, w3, out2 ++ out3) in
                 (o2, w3, out1 ++ out3)).1) as Hwrap.
    { intros m1 m2. destruct (m1 w2) as [[oa wa] outa], (m2 w2) as [[ob wb] outb].
      cbn [fst]. by intros [= -> ->]. }
    destruct full_exists, thumb_exists; cbn [negb andb]; apply Hwrap, Hstep.
Qed.

(** A tile without a name is left out of both lists, whatever is on
    disk. *)
Lemma process_tiles_skips t pre post w :
  name_of t = None ->
  (process_tiles E api_key http_port skip_direct_download (pre ++ t :: post) w).1
  = (process_tiles E api_key http_port skip_direct_download (pre ++ post) w).1.
Proof.
  intros Hnone. unfold process_tiles.
  destruct (perform E Mkdir w) as [[o w1] out1] eqn:Hperform.
  rewrite !(run_bind _ _ w o w1 out1 Hperform).
  destruct o; [|done..].
  assert (forall (m1 m2 : M (list string)),
            (m1 w1).1 = (m2 w1).1 ->
            (let '(o2, w2, out2) := m1 w1 in (o2, w2, out1 ++ out2)).1
            = (let '(o2, w2, out2) := m2 w1 in (o2, w2, out1 ++ out2)).1) as Hwrap.
  { intros m1 m2. by destruct (m1 w1) as [[oa wa] outa], (m2 w1) as [[ob wb] outb]. }
  apply Hwrap, bind_fst, classify_skips, Hnone.
Qed.

Lemma no_pano_id_careful t : no_pano_id t = true -> careful_pano_id t = None.
Proof.
  unfold no_pano_id. rewrite andb_true_iff. intros [Htop Hsub].
  unfold careful_pano_id.
  rewrite (present_and_truthy_None t "panoId" (lacks_falsy _ _ Htop)).
  unfold extra_of in Hsub. destruct (t !! "extra") as [[]|]; try done.
  by apply present_and_truthy_None, lacks_falsy.
Qed.

(** C4: for a tile record without an identifier at the top level and under
    [extra], the codec raises instead of returning a name
    ([ValueError], the missing-identifier error, when [extra] is an object
    or absent), the lookup of [process_json_file_async] finds nothing, and
    the tiles of the file are processed as if the tile were not there. *)
Theorem missing_identifier_is_skipped t :
  no_pano_id t = true ->
  is_ok (create_new_filename t) = false
  /\ (extra_is_object t = true -> create_new_filename t = Raise ValueError)
  /\ careful_pano_id t = None
  /\ forall pre post w,
       (process_tiles E api_key http_port skip_direct_download (pre ++ t :: post) w).1
       = (process_tiles E api_key http_port skip_direct_download (pre ++ post) w).1.
Proof.
  intros Hnone. pose proof (no_pano_id_raises t Hnone) as Hraise.
  split; [by rewrite Hraise|]. split; [by intros Hextra; rewrite Hraise, Hextra|].
  split; [by apply no_pano_id_careful|].
  intros pre post w. apply process_tiles_skips.
  unfold name_of. by rewrite Hraise.
Qed.

End Processing.

Lemma errors_stay_local_witness :
  pages_work failing_env
  /\ exists w' out evs,
       @process_all plain_runtime failing_env "key" 8000 false ["bad.json"; "1.json"] []
         start_world = (Done [], w', out)
       /\ trace w' = evs ++ trace start_world
       /\ loads evs = rev ["bad.json"; "1.json"].
Proof.
  assert (pages_work failing_env) as Hwork by (intros h; split; reflexivity).
  split; [exact Hwork|].
  destruct (@errors_stay_local plain_runtime failing_env "key" 8000 false Hwork)
    as (_ & _ & Hfiles).
  destruct (Hfiles ["bad.json"; "1.json"] start_world) as (res & w' & out & evs & Hrun & Htr & Hld);
    [discriminate|].
  exists w', out, evs.
  assert (res = []) as ->.
  { pose proof (f_equal (fun x => x.1.1) Hrun) as Ho. vm_compute in Ho. by injection Ho. }
  split; [exact Hrun|]. split; [exact Htr|exact Hld].
Defined.

Lemma missing_identifier_is_skipped_witness :
  no_pano_id (∅ : tile) = true
  /\ is_ok (@create_new_filename plain_runtime ∅) = false.
Proof.
  split; [vm_compute; reflexivity|].
  apply (@missing_identifier_is_skipped plain_runtime healthy_env "key" 8000 false ∅).
  vm_compute; reflexivity.
Defined.

(** * The browser pool *)

Module PoolFacts.
Import Pool.

Lemma holds_set_status q st t x t' :
  holds (State q (set_status st t x)) t'
  = if Nat.eqb t' t then match x with Holding b => Some b | _ => None end
    else holds (State q st) t'.
Proof.
  unfold holds, set_status; simpl. by destruct (Nat.eqb t' t).
Qed.

Lemma holds_queue q q' st t : holds (State q st) t = holds (State q' st) t.
Proof. done. Qed.

Lemma initialize_inv n : pool_inv n (initialize n).
Proof.
  split; simpl.
  - apply NoDup_seq.
  - intros b Hb. apply elem_of_seq in Hb. lia.
  - intros t b Hb. discriminate.
  - intros t t' b Hb. discriminate.
Qed.

Lemma take_inv n t s : pool_inv n s -> pool_inv n (take t s).
Proof.
  intros [Hq Hr Hh Ho]. destruct s as [[its gs] st]. unfold take; simpl in *.
  destruct its as [|b rest]; split; simpl.
  - constructor.
  - intros b Hb. by apply elem_of_nil in Hb.
  - intros t' b. rewrite holds_set_status.
    destruct (Nat.eqb t' t); [discriminate|]. apply Hh.
  - intros t1 t2 b. rewrite !holds_set_status.
    destruct (Nat.eqb t1 t); [discriminate|].
    destruct (Nat.eqb t2 t); [discriminate|]. apply Ho.
  - by apply NoDup_cons in Hq as [_ Hq].
  - intros b' Hb'. apply Hr. by right.
  - apply NoDup_cons in Hq as [Hb Hq].
    intros t' b'. rewrite holds_set_status.
    destruct (Nat.eqb t' t).
    + intros [= <-]. split; [apply Hr; by left|done].
    + intros Hb'. destruct (Hh t' b' Hb') as [Hlt Hnot].
      split; [done|]. intros Hin. apply Hnot. by right.
  - intros t1 t2 b'. rewrite !holds_set_status.
    destruct (Nat.eqb_spec t1 t) as [->|H1], (Nat.eqb_spec t2 t) as [->|H2]; try done.
    + intros [= <-] Hb'. destruct (Hh t2 b Hb') as [_ Hnot]. destruct Hnot. by left.
    + intros Hb' [= <-]. destruct (Hh t1 b Hb') as [_ Hnot]. destruct Hnot. by left.
    + apply Ho.
Qed.

Lemma return_inv n t s s' :
  pool_inv n s -> step (ReturnBrowser t) s = Some s' -> pool_inv n s'.
Proof.
  intros [Hq Hr Hh Ho]. destruct s as [[its gs] st]. simpl in *.
  destruct (st t) as [| | |b] eqn:Hst; try discriminate.
  assert (holds (State (Queue its gs) st) t = Some b) as Ht
    by (unfold holds; simpl; by rewrite Hst).
  destruct (Hh t b Ht) as [Hlt Hnot].
  assert (NoDup (its ++ [b])) as Hq'.
  { apply NoDup_app. split; [done|]. split; [|apply NoDup_singleton].
    intros x Hx Hxb. apply list_elem_of_singleton in Hxb as ->. done. }
  assert (forall x, x ∈ its ++ [b] -> (x < n)%nat) as Hr'.
  { intros x Hx. apply elem_of_app in Hx as [Hx|Hx]; [by apply Hr|].
    by apply list_elem_of_singleton in Hx as ->. }
  assert (forall q t' b', holds (State q (set_status st t Idle)) t' = Some b' ->
            t' <> t /\ holds (State (Queue its gs) st) t' = Some b') as Hidle.
  { intros q t' b'. rewrite holds_set_status.
    destruct (Nat.eqb_spec t' t); [discriminate|]. done. }
  assert (forall q t' b', holds (State q (set_status st t Idle)) t' = Some b' ->
            (b' < n)%nat /\ b' ∉ its ++ [b]) as Hh'.
  { intros q t' b' Hb'. apply Hidle in Hb' as [Hne Hb'].
    destruct (Hh t' b' Hb') as [Hlt' Hnot']. split; [done|].
    intros Hin. apply elem_of_app in Hin as [Hin|Hin]; [done|].
    apply list_elem_of_singleton in Hin as ->. by apply Hne, (Ho t' t b). }
  destruct gs as [|g gs]; intros [= <-]; split; simpl; try done.
  - apply Hh'.
  - intros t1 t2 b' H1 H2. apply Hidle in H1 as [_ H1], H2 as [_ H2].
    by apply (Ho t1 t2 b').
  - intros t' b'. rewrite holds_set_status.
    destruct (Nat.eqb t' g); [discriminate|]. apply Hh'.
  - intros t1 t2 b'. rewrite !(holds_set_status _ _ g).
    destruct (Nat.eqb t1 g); [discriminate|].
    destruct (Nat.eqb t2 g); [discriminate|].
    intros H1 H2. apply Hidle in H1 as [_ H1], H2 as [_ H2].
    by apply (Ho t1 t2 b').
Qed.

Lemma step_inv n a s s' : pool_inv n s -> step a s = Some s' -> pool_inv n s'.
Proof.
  intros Hinv. destruct a as [t|t|t].
  - simpl. destruct (callers s t); try discriminate.
    intros [= <-]. by apply take_inv.
  - by apply return_inv.
  - simpl. destruct (callers s t); try discriminate.
    intros [= <-]. by apply take_inv.
Qed.

Lemma run_inv n acts : forall s s',
  pool_inv n s -> run acts s = Some s' -> pool_inv n s'.
Proof.
  induction acts as [|a acts IH]; intros s s' Hinv; simpl.
  - by intros [= <-].
  - destruct (step a s) as [s1|] eqn:Hstep; [|discriminate].
    apply IH. by apply (step_inv n a s).
Qed.

Lemma run_app acts1 : forall acts2 s,
  run (acts1 ++ acts2) s = s1 ← run acts1 s; run acts2 s1.
Proof.
  induction acts1 as [|a acts1 IH]; intros acts2 s; simpl; [done|].
  destruct (step a s); [apply IH|done].
Qed.

Lemma handed_out_elem s ts b :
  b ∈ handed_out s ts <-> exists t, t ∈ ts /\ holds s t = Some b.
Proof. unfold handed_out. apply list_elem_of_omap. Qed.

Lemma handed_out_distinct n s ts :
  pool_inv n s -> NoDup ts -> NoDup (handed_out s ts ++ items (available s)).
Proof.
  intros [Hq Hr Hh Ho]. induction 1 as [|t ts Hnot Hts IH]; simpl; [done|].
  unfold handed_out in *. simpl.
  destruct (holds s t) as [b|] eqn:Hb; [|done]. simpl.
  apply NoDup_cons. split; [|done].
  intros Hin. apply elem_of_app in Hin as [Hin|Hin].
  - apply list_elem_of_omap in Hin as (t' & Hin & Hb').
    by rewrite (Ho t t' b Hb Hb') in Hnot.
  - by destruct (Hh t b Hb).
Qed.

Lemma handed_out_range n s ts b :
  pool_inv n s -> b ∈ handed_out s ts ++ items (available s) -> b ∈ seq 0 n.
Proof.
  intros [Hq Hr Hh Ho] Hin. apply elem_of_seq. split; [lia|]. simpl.
  apply elem_of_app in Hin as [Hin|Hin]; [|by apply Hr].
  apply handed_out_elem in Hin as (t & _ & Hb). by destruct (Hh t b Hb).
Qed.

Lemma three_acquires_starved s :
  run three_acquires (initialize 2) = Some s -> starved s.
Proof.
  unfold three_acquires, initialize. simpl. unfold take. simpl.
  intros [= <-]. split; simpl; try done.
  - intros t. unfold set_status.
    by destruct (Nat.eqb t 2), (Nat.eqb t 1), (Nat.eqb t 0).
  - intros t b. unfold holds, set_status; simpl.
    destruct (Nat.eqb_spec t 2); [discriminate|].
    destruct (Nat.eqb_spec t 1); [by right|].
    destruct (Nat.eqb_spec t 0); [by left|discriminate].
Qed.

Lemma starved_run acts : forall s s',
  starved s -> run acts s = Some s' ->
  starved s' \/ ReturnBrowser 0%nat ∈ acts \/ ReturnBrowser 1%nat ∈ acts.
Proof.
  induction acts as [|a acts IH]; intros s s' Hs; simpl.
  - intros [= <-]. by left.
  - destruct (step a s) as [s1|] eqn:Hstep; [|discriminate].
    intros Hrun. destruct Hs as [Hi Hw Hh Ht].
    destruct a as [t|t|t]; simpl in Hstep.
    + destruct (callers s t) eqn:Hst; try discriminate.
      injection Hstep as <-. unfold take in Hrun. rewrite Hi in Hrun.
      eapply IH in Hrun as [?|[?|?]];
        [by left|right; left; by right|right; right; by right|].
      split; simpl; [done| | |].
      * intros t'. unfold set_status. destruct (Nat.eqb t' t); [done|apply Hw].
      * intros t' b. rewrite holds_set_status.
        destruct (Nat.eqb t' t); [discriminate|]. destruct s. apply Hh.
      * unfold set_status. by destruct (Nat.eqb 2 t).
    + destruct (callers s t) as [| | |b] eqn:Hst; try discriminate.
      right. destruct (Hh t b) as [->| ->].
      * unfold holds. by rewrite Hst.
      * left. by left.
      * right. by left.
    + destruct (callers s t) eqn:Hst; try discriminate. by destruct (Hw t).
Qed.

End PoolFacts.

Section BrowserPool.
Import Pool PoolFacts.

(** C7: the pool of [BrowserPool] over a queue that suspends a caller at
    an empty queue and wakes the first waiter at a release.  (1) After any
    run from [initialize max_browsers], distinct callers hold distinct
    browsers, none of them queued, so that at most [max_browsers] are
    handed out.  (2) With two browsers and three [get_browser] calls the
    first two callers hold a browser and the third one waits.  (3) The
    third caller leaves the waiting state only in a run where caller 0 or
    caller 1 has returned its browser.  (4) When one of them does, the
    third caller is woken and, resumed, holds the returned browser.
    (5) A returned browser is queued, and the first waiter, if any, is
    woken and takes it from a queue that was empty. *)
Theorem browser_pool_bounded :
  (forall max_browsers acts s ts,
      run acts (initialize max_browsers) = Some s -> NoDup ts ->
      NoDup (handed_out s ts ++ items (available s))
      /\ (length (handed_out s ts) + length (items (available s)) <= max_browsers)%nat)
  /\ (exists s, run three_acquires (initialize 2) = Some s
        /\ holds s 0%nat = Some 0%nat /\ holds s 1%nat = Some 1%nat
        /\ callers s 2%nat = Waiting /\ getters (available s) = [2%nat])
  /\ (forall acts s,
        run (three_acquires ++ acts) (initialize 2) = Some s ->
        callers s 2%nat <> Waiting ->
        ReturnBrowser 0%nat ∈ acts \/ ReturnBrowser 1%nat ∈ acts)
  /\ (forall t, t = 0%nat \/ t = 1%nat ->
        exists s s',
          run (three_acquires ++ [ReturnBrowser t]) (initialize 2) = Some s
          /\ callers s 2%nat = Woken
          /\ step (Resume 2%nat) s = Some s'
          /\ holds s' 2%nat = Some t /\ holds s' t = None)
  /\ (forall s t b,
        holds s t = Some b ->
        exists s', step (ReturnBrowser t) s = Some s'
          /\ items (available s') = items (available s) ++ [b]
          /\ forall g gs, getters (available s) = g :: gs ->
               callers s' g = Woken /\ getters (available s') = gs
               /\ (items (available s) = [] ->
                   exists s'', step (Resume g) s' = Some s'' /\ holds s'' g = Some b)).
Proof.
  split; [|split; [|split; [|split]]].
  - intros n acts s ts Hrun Hts.
    pose proof (run_inv n acts _ _ (initialize_inv n) Hrun) as Hinv.
    pose proof (handed_out_distinct n s ts Hinv Hts) as Hnodup.
    split; [done|].
    assert (length (handed_out s ts ++ items (available s)) <= length (seq 0 n))%nat
      as Hle.
    { apply submseteq_length, NoDup_submseteq; [done|].
      intros b. by apply handed_out_range. }
    by rewrite length_app, length_seq in Hle.
  - eexists. split; [reflexivity|]. by repeat split.
  - intros acts s. rewrite run_app.
    destruct (run three_acquires (initialize 2)) as [s3|] eqn:H3; [|discriminate].
    simpl. intros Hrun Hthird.
    destruct (starved_run acts s3 s (three_acquires_starved s3 H3) Hrun)
      as [Hs|Hret]; [|done].
    by destruct Hs.
  - intros t [-> | ->]; eexists; eexists; by repeat split.
  - intros [[its gs] st] t b. unfold holds at 1. simpl.
    destruct (st t) as [| | |b'] eqn:Hst; try discriminate. intros [= ->].
    destruct gs as [|g gs']; eexists; (split; [reflexivity|]); simpl;
      (split; [done|]); intros g0 gs0; [discriminate|].
    intros [= -> ->]. unfold set_status at 1. rewrite Nat.eqb_refl.
    split; [done|]. split; [done|]. intros ->. simpl.
    unfold set_status at 1. rewrite Nat.eqb_refl.
    eexists. split; [reflexivity|].
    unfold take, holds; simpl. unfold set_status at 1. by rewrite Nat.eqb_refl.
Qed.

End BrowserPool.

Lemma browser_pool_bounded_witness :
  NoDup [0%nat; 1%nat; 2%nat]
  /\ exists s,
       Pool.run (Pool.three_acquires ++ [Pool.ReturnBrowser 0%nat; Pool.Resume 2%nat])
         (Pool.initialize 2) = Some s
       /\ (length (Pool.handed_out s [0%nat; 1%nat; 2%nat])
           + length (Pool.items (Pool.available s)) <= 2)%nat.
Proof.
  assert (NoDup [0%nat; 1%nat; 2%nat]) as Hts by compute_done.
  split; [exact Hts|].
  eexists. split; [reflexivity|].
  apply (proj1 browser_pool_bounded 2%nat
           (Pool.three_acquires ++ [Pool.ReturnBrowser 0%nat; Pool.Resume 2%nat]) _
           [0%nat; 1%nat; 2%nat]); [reflexivity|exact Hts].
Defined.

(** * Numbers that are printed without a fraction *)

Section RoundWhole.
Context `{PyRuntime}.
Import Float FloatFacts.

Lemma rnd_half_even_exact k q : 0 < q -> rnd_half_even (k * q) q = k.
Proof.
  intros Hq. unfold rnd_half_even.
  rewrite Z.div_mul, Z.mod_mul by lia. change (2 * 0) with 0.
  destruct (Z.ltb_spec 0 q); [done|lia].
Qed.

(** A ratio that is a whole number below [2^53] is a float. *)
Lemma of_ratio_exact s c N :
  0 < c -> 0 < N < 2 ^ 53 ->
  exists m e, of_ratio s (N * c) c = S754_finite s m e
              /\ e <= 0 /\ Z.pos m = N * 2 ^ (- e).
Proof.
  intros Hc [HN0 HN]. unfold of_ratio.
  assert (0 < N * c) as Hp by nia.
  destruct (Z.eqb_spec (N * c) 0) as [|_]; [lia|].
  set (p := N * c) in *.
  set (e0 := Z.log2 p - Z.log2 c - 53).
  assert (H53 : 2 ^ 53 = 9007199254740992) by reflexivity.
  assert (e0 <= 0) as He0.
  { pose proof (Z.log2_mul_above N c ltac:(lia) ltac:(lia)) as Hab.
    pose proof (proj1 (Z.log2_lt_pow2 N 53 HN0) HN). unfold e0, p. lia. }
  assert (He1 : lt_pow2 p c
            ((let '(p0, q0) := scale2 p c e0 in
              if 2 ^ 53 * q0 <=? p0 then e0 + 1 else e0) + 53)
          /\ (let '(p0, q0) := scale2 p c e0 in
              if 2 ^ 53 * q0 <=? p0 then e0 + 1 else e0) <= 0).
  { pose proof (lt_pow2_scale2 p c e0 ltac:(lia) Hc) as Hsc.
    destruct (Z.eq_dec e0 0) as [Hz|Hnz].
    - revert Hsc. rewrite Hz. unfold scale2. change (0 <=? 0) with true. cbv iota.
      intros Hsc. destruct (Z.leb_spec (2 ^ 53 * (c * 2 ^ 0)) p); [unfold p in *; simpl in *; nia|].
      split; [|lia]. apply Hsc. lia.
    - destruct (scale2 p c e0) as [p0 q0].
      destruct (Z.leb_spec (2 ^ 53 * q0) p0).
      + split; [|lia].
        replace (e0 + 1 + 53) with (Z.log2 p - Z.log2 c + 1) by (unfold e0; lia).
        by apply lt_pow2_log2.
      + split; [|lia]. apply Hsc. lia. }
  destruct (scale2 p c e0) as [p0 q0].
  set (e1 := if 2 ^ 53 * q0 <=? p0 then e0 + 1 else e0) in *.
  destruct He1 as [Hlt He1].
  set (e := Z.max e1 (-1074)) in *.
  assert (e <= 0) as He by lia.
  assert (lt_pow2 p c (e + 53)) as Hlte
    by (apply (lt_pow2_mono p c (e1 + 53)); [lia..|done]).
  apply lt_pow2_scale2 in Hlte; [|lia|done].
  revert Hlte. rewrite scale2_eq.
  rewrite (Z.max_r 0 (- e)), (Z.max_l 0 e) by lia.
  change (2 ^ 0) with 1. rewrite Z.mul_1_r. intros Hlte.
  pose proof (pow2_gt0 (- e) ltac:(lia)) as Hpow.
  replace (p * 2 ^ (- e)) with ((N * 2 ^ (- e)) * c) in * by (unfold p; ring).
  rewrite rnd_half_even_exact by done.
  set (m := N * 2 ^ (- e)) in *.
  assert (0 < m < 2 ^ 53) as Hm by (unfold m; nia).
  destruct (Z.eqb_spec m (2 ^ 53)); [lia|].
  destruct (Z.eqb_spec m 0); [lia|].
  destruct (Z.ltb_spec 971 e); [lia|].
  exists (Z.to_pos m), e. split; [done|]. split; [done|].
  rewrite Z2Pos.id by lia. done.
Qed.

Lemma abs_ratio_exact s m e N :
  e <= 0 -> Z.pos m = N * 2 ^ (- e) ->
  abs_ratio (S754_finite s m e) = (N * 2 ^ (- e), 2 ^ (- e)).
Proof.
  intros He Hm. unfold abs_ratio. rewrite scale2_eq, Z.opp_involutive.
  rewrite (Z.max_l 0 e), (Z.max_r 0 (- e)) by lia.
  change (2 ^ 0) with 1. rewrite Hm. f_equal; lia.
Qed.

Lemma max_float_large : 2 ^ 53 <= max_float.
Proof.
  unfold max_float.
  assert (2 ^ 1 <= 2 ^ 971) as Hle by (apply Z.pow_le_mono_r; lia).
  change (2 ^ 1) with 2 in Hle.
  assert (H53 : 2 ^ 53 = 9007199254740992) by reflexivity.
  rewrite H53. set (K := 2 ^ 971) in *. lia.
Qed.

(** The float of a Python int below [2^53] is that int. *)
Lemma of_Z_exact n :
  Z.abs n < 2 ^ 53 ->
  is_finite (of_Z n) = true
  /\ sign (of_Z n) = (n <? 0)
  /\ exists q, 0 < q /\ abs_ratio (of_Z n) = (Z.abs n * q, q).
Proof.
  intros Hn. unfold of_Z.
  destruct (Z.eq_dec n 0) as [->|Hne].
  { split; [done|]. split; [done|]. exists 1. by split. }
  destruct (of_ratio_exact (n <? 0) 1 (Z.abs n) ltac:(lia) ltac:(lia))
    as (m & e & Heq & He & Hm).
  rewrite Z.mul_1_r in Heq. rewrite Heq.
  split; [done|]. split; [done|].
  exists (2 ^ (- e)). split; [apply pow2_gt0; lia|].
  by apply abs_ratio_exact.
Qed.

(** A number whose value is the whole number [N] (with the sign of its
    float) is printed as that whole number. *)
Lemma round_number_whole_core num x N q :
  is_number num = true -> py_float num = Ok x ->
  0 <= N < 2 ^ 53 -> 0 < q -> abs_ratio x = (N * q, q) ->
  round_number num 2 = Ok (str_of_Z (if sign x then - N else N)).
Proof.
  intros Hnum Hx [HN0 HN] Hq Hratio.
  destruct (round_number_number num Hnum) as (x' & k & Hx' & Hk & ->).
  rewrite Hx in Hx'. injection Hx' as <-.
  unfold nearest_hundredth in Hk. rewrite Hratio in Hk. destruct Hk as [Hk0 Hk].
  assert (k = N * 100) as -> by nia.
  destruct (Z.eq_dec N 0) as [->|Hne].
  { change (0 * 100) with 0. change (of_ratio (sign x) 0 100) with (S754_zero (sign x)).
    by destruct (sign x). }
  destruct (of_ratio_exact (sign x) 100 N ltac:(lia) ltac:(lia))
    as (m & e & -> & He & Hm).
  unfold is_whole, trunc. rewrite (abs_ratio_exact _ m e N He Hm).
  pose proof (pow2_gt0 (- e) ltac:(lia)) as Hpow.
  rewrite Z.mod_mul, Z.div_mul by lia. simpl. done.
Qed.

(** X1: [round_number] prints a whole number below [2^53], given as an
    int or as a float, as that integer: no fraction, no exponent and no
    [.0]; a negative zero is printed as [0]. *)
Theorem round_number_whole num n :
  is_number num = true ->
  whole_value num = Some n ->
  Z.abs n < 2 ^ 53 ->
  round_number num 2 = Ok (str_of_Z n).
Proof.
  intros Hnum Hwhole Hn. destruct num as [| |z|x| | |]; try done.
  - injection Hwhole as ->.
    destruct (of_Z_exact n Hn) as (Hfin & Hsign & q & Hq & Hratio).
    assert (py_float (PInt n) = Ok (of_Z n)) as Hx by (simpl; by rewrite Hfin).
    rewrite (round_number_whole_core (PInt n) (of_Z n) (Z.abs n) q Hnum Hx
               ltac:(lia) Hq Hratio).
    rewrite Hsign. f_equal. f_equal. destruct (Z.ltb_spec n 0); lia.
  - simpl in Hwhole.
    destruct (is_finite x) eqn:Hfin; [|done].
    destruct (is_whole x) eqn:Hw; [|done]. injection Hwhole as <-.
    simpl in Hnum. apply andb_true_iff in Hnum as [Hv _].
    pose proof (valid_abs_ratio x Hv) as Hr.
    unfold is_whole in Hw. unfold trunc in *.
    destruct (abs_ratio x) as [p q] eqn:Hratio. destruct Hr as (Hp & Hq & _).
    apply Z.eqb_eq in Hw.
    pose proof (Z.div_mod p q ltac:(lia)) as Hdm.
    pose proof (Z.div_pos p q Hp Hq) as Hdiv.
    assert (Hnum' : is_number (PFloat x) = true) by (simpl; by rewrite Hv, Hfin).
    rewrite (round_number_whole_core (PFloat x) x (p / q) q Hnum' eq_refl).
    + done.
    + destruct (sign x); lia.
    + done.
    + rewrite Hratio. f_equal. lia.
Qed.

(** X2: a float nearer to zero than half a hundredth is printed as [0],
    whatever its sign. *)
Theorem round_number_near_zero x :
  valid x = true -> is_finite x = true -> below_half_hundredth x ->
  round_number (PFloat x) 2 = Ok "0".
Proof.
  intros Hv Hfin Hsmall.
  assert (Hnum : is_number (PFloat x) = true) by (simpl; by rewrite Hv, Hfin).
  destruct (round_number_number (PFloat x) Hnum) as (x' & k & Hx' & Hk & ->).
  injection Hx' as <-.
  pose proof (valid_abs_ratio x Hv) as Hr.
  unfold nearest_hundredth in Hk. unfold below_half_hundredth in Hsmall.
  destruct (abs_ratio x) as [p q]. destruct Hr as (Hp & Hq & _). destruct Hk as [Hk0 Hk].
  assert (k = 0) as -> by nia.
  by destruct (sign x).
Qed.

End RoundWhole.

Lemma round_number_whole_witness :
  is_number (PFloat (Float.of_decimal (-90) 0)) = true
  /\ whole_value (PFloat (Float.of_decimal (-90) 0)) = Some (-90)
  /\ @round_number plain_runtime (PFloat (Float.of_decimal (-90) 0)) 2 = Ok "-90".
Proof.
  split; [vm_compute; reflexivity|]. split; [vm_compute; reflexivity|].
  apply (@round_number_whole plain_runtime (PFloat (Float.of_decimal (-90) 0)) (-90));
    vm_compute; reflexivity.
Defined.

Lemma round_number_near_zero_witness :
  Float.valid (Float.of_decimal (-4) (-3)) = true
  /\ below_half_hundredth (Float.of_decimal (-4) (-3))
  /\ @round_number plain_runtime (PFloat (Float.of_decimal (-4) (-3))) 2 = Ok "0".
Proof.
  split; [vm_compute; reflexivity|]. split; [vm_compute; reflexivity|].
  apply (@round_number_near_zero plain_runtime (Float.of_decimal (-4) (-3)));
    vm_compute; reflexivity.
Defined.
(** * Fields that are null, and tiles that stop a scan *)

Section CodecEdges.
Context `{PyRuntime}.

Lemma dict_get_insert t key v d : dict_get (<[key := v]> t) key d = v.
Proof. unfold dict_get. by rewrite lookup_insert_eq. Qed.

Lemma dict_get_insert_ne t key key' v d :
  key <> key' -> dict_get (<[key := v]> t) key' d = dict_get t key' d.
Proof. intros Hne. unfold dict_get. by rewrite lookup_insert_ne. Qed.

Lemma dict_get_delete t key d : dict_get (delete key t) key d = d.
Proof. unfold dict_get. by rewrite lookup_delete_eq. Qed.

Lemma dict_get_delete_ne t key key' d :
  key <> key' -> dict_get (delete key t) key' d = dict_get t key' d.
Proof. intros Hne. unfold dict_get. by rewrite lookup_delete_ne. Qed.

(** The codec once the identifier and the date are found. *)
Lemma create_new_filename_numbers t pano_id date :
  lookup_pano_id t = Ok pano_id -> truthy pano_id = true ->
  py_get (dict_get t "extra" (PDict ∅)) "panoDate" (PStr fallback_date) = Ok date ->
  create_new_filename t =
    (heading ← round_number (dict_get t "heading" (PInt 0)) 2;
     pitch ← round_number (dict_get t "pitch" (PInt 0)) 2;
     zoom ← py_int (dict_get t "zoom" (PInt 0));
     Ok (py_str pano_id +:+ "~d"
         +:+ py_str (if negb (truthy date) then PStr fallback_date else date)
         +:+ "~h" +:+ heading +:+ "~p" +:+ pitch +:+ "~z" +:+ py_str (PInt zoom)
         +:+ ".jpg")).
Proof.
  intros Hlook Htruthy Hdate. unfold create_new_filename.
  rewrite Hlook. cbn [mbind result_bind]. rewrite Htruthy. cbn [negb].
  rewrite Hdate. reflexivity.
Qed.

Lemma number_key key :
  key ∈ ["heading"; "pitch"; "zoom"] -> key <> "panoId" /\ key <> "extra".
Proof.
  intros Hkey. repeat (apply elem_of_cons in Hkey as [->|Hkey]); try done.
  by apply elem_of_nil in Hkey.
Qed.

(** X3: the default [0] of [tile.get('heading', 0)] stands in for a
    missing key only.  In a well-typed record with an identifier, a
    heading, pitch or zoom that is [null] makes the codec raise
    [TypeError], while the record without the key is encoded as the one
    that holds [0] there, and gets a name. *)
Theorem null_field_is_not_defaulted t pano_id key :
  well_typed t = true ->
  record_pano_id t = Some pano_id ->
  key ∈ ["heading"; "pitch"; "zoom"] ->
  create_new_filename (<[key := PNone]> t) = Raise TypeError
  /\ create_new_filename (delete key t) = create_new_filename (<[key := PInt 0]> t)
  /\ is_ok (create_new_filename (delete key t)) = true.
Proof.
  intros Hwt Hid Hkey. destruct (number_key key Hkey) as [Hne1 Hne2].
  unfold well_typed in Hwt. rewrite !andb_true_iff in Hwt.
  destruct Hwt as ((((((Htop & Hextra) & Hsub) & Hdate) & Hh) & Hp) & Hz).
  destruct (lookup_pano_id_typed t pano_id Htop Hextra Hid) as [Hlook Htruthy].
  destruct (pano_date_typed t Hextra Hdate) as (date & Hget & Hstr).
  destruct (round_number_returns _ Hh) as (heading & Hheading).
  destruct (round_number_returns _ Hp) as (pitch & Hpitch).
  destruct (py_int_number _ Hz) as (zoom & Hzoom).
  assert (forall v, lookup_pano_id (<[key := v]> t) = Ok (PStr pano_id)) as Hlook_ins.
  { intros v. unfold lookup_pano_id in *. by rewrite !dict_get_insert_ne. }
  assert (forall v, py_get (dict_get (<[key := v]> t) "extra" (PDict ∅)) "panoDate"
                      (PStr fallback_date) = Ok date) as Hget_ins.
  { intros v. by rewrite dict_get_insert_ne. }
  assert (lookup_pano_id (delete key t) = Ok (PStr pano_id)) as Hlook_del.
  { unfold lookup_pano_id in *. by rewrite !dict_get_delete_ne. }
  assert (py_get (dict_get (delete key t) "extra" (PDict ∅)) "panoDate"
            (PStr fallback_date) = Ok date) as Hget_del.
  { by rewrite dict_get_delete_ne. }
  rewrite (create_new_filename_numbers _ _ _ (Hlook_ins PNone) Htruthy (Hget_ins PNone)).
  rewrite (create_new_filename_numbers _ _ _ (Hlook_ins (PInt 0)) Htruthy (Hget_ins (PInt 0))).
  rewrite (create_new_filename_numbers _ _ _ Hlook_del Htruthy Hget_del).
  assert (exists s, round_number (PInt 0) 2 = Ok s) as [zero Hzero]
    by (by apply round_number_returns).
  repeat (apply elem_of_cons in Hkey as [->|Hkey]); [| | |by apply elem_of_nil in Hkey].
  - rewrite !dict_get_insert, !dict_get_delete.
    rewrite !dict_get_insert_ne, !dict_get_delete_ne by done.
    split; [done|]. split; [done|].
    rewrite Hzero, Hpitch, Hzoom. done.
  - rewrite !dict_get_insert, !dict_get_delete.
    rewrite !dict_get_insert_ne, !dict_get_delete_ne by done.
    rewrite Hheading. split; [done|]. split; [done|].
    cbn [mbind result_bind]. rewrite Hzero, Hzoom. done.
  - rewrite !dict_get_insert, !dict_get_delete.
    rewrite !dict_get_insert_ne, !dict_get_delete_ne by done.
    rewrite Hheading, Hpitch. split; [done|]. split; [done|]. done.
Qed.

Lemma lookup_pano_id_raises t :
  lacks t "panoId" = true -> extra_is_object t = false ->
  lookup_pano_id t = Raise AttributeError.
Proof.
  intros Hlacks Hextra. unfold lookup_pano_id.
  rewrite (lacks_falsy t "panoId" Hlacks).
  unfold extra_is_object, dict_get in *. by destruct (t !! "extra") as [[]|].
Qed.

Lemma add_expected_stops t e post pre : forall expected,
  lookup_pano_id t = Raise e ->
  (add_expected (pre ++ t :: post) expected).1 = (add_expected pre expected).1
  /\ is_Some (add_expected (pre ++ t :: post) expected).2.
Proof.
  induction pre as [|t' pre IH]; intros expected Hraise; simpl.
  - rewrite Hraise. by split.
  - destruct (lookup_pano_id t') as [pano_id|]; [|by split].
    destruct (negb (truthy pano_id)); [by apply IH|].
    destruct (create_new_filename t'); by apply IH.
Qed.

Lemma count_expected_add tiles : forall expected total_tiles,
  (count_expected tiles expected total_tiles).1.1 = (add_expected tiles expected).1.
Proof.
  induction tiles as [|t rest IH]; intros expected total_tiles; simpl; [done|].
  destruct (lookup_pano_id t) as [pano_id|]; [|done].
  destruct (negb (truthy pano_id)); [apply IH|].
  destruct (create_new_filename t); apply IH.
Qed.

Lemma dry_run_scan_expected puzzles : forall expected total_tiles,
  (dry_run_scan puzzles expected total_tiles).1 = scan_puzzles puzzles expected.
Proof.
  induction puzzles as [|[data|e] rest IH]; intros expected total_tiles; simpl;
    [done| |apply IH].
  pose proof (count_expected_add (default [] (extract_tiles data)) expected total_tiles)
    as Hadd.
  destruct (count_expected _ expected total_tiles) as [[expected' total'] err].
  simpl in Hadd. rewrite <- Hadd. apply IH.
Qed.

(** X4: in the scans of [prune_orphaned_images] and [dry_run], a tile
    without a top-level identifier whose [extra] is not an object raises
    [AttributeError] outside the inner [try]: the rest of its puzzle file
    is given up, so the tiles after it add nothing to the expected files,
    while the tiles before it and the other files are scanned as usual. *)
Theorem scan_gives_up_rest_of_file t pre post rest expected total_tiles :
  lacks t "panoId" = true ->
  extra_is_object t = false ->
  lookup_pano_id t = Raise AttributeError
  /\ (add_expected (pre ++ t :: post) expected).1 = (add_expected pre expected).1
  /\ is_Some (add_expected (pre ++ t :: post) expected).2
  /\ scan_puzzles (Ok (JsonList (pre ++ t :: post)) :: rest) expected
     = scan_puzzles (Ok (JsonList pre) :: rest) expected
  /\ (dry_run_scan (Ok (JsonList (pre ++ t :: post)) :: rest) expected total_tiles).1
     = scan_puzzles (Ok (JsonList pre) :: rest) expected
  /\ (forall (actual : gset string) name,
        name ∈ actual ->
        name ∉ scan_puzzles (Ok (JsonList pre) :: rest) expected ->
        name ∈ orphaned_files
                 (scan_puzzles (Ok (JsonList (pre ++ t :: post)) :: rest) expected)
                 actual).
Proof.
  intros Hlacks Hextra.
  pose proof (lookup_pano_id_raises t Hlacks Hextra) as Hraise.
  destruct (add_expected_stops t AttributeError post pre expected Hraise) as [Hfst Hsnd].
  assert (scan_puzzles (Ok (JsonList (pre ++ t :: post)) :: rest) expected
          = scan_puzzles (Ok (JsonList pre) :: rest) expected) as Hscan
    by (simpl; by rewrite Hfst).
  split; [done|]. split; [done|]. split; [done|]. split; [done|].
  split; [by rewrite dry_run_scan_expected|].
  intros actual name Hin Hnot. rewrite Hscan. unfold orphaned_files. set_solver.
Qed.

End CodecEdges.

Lemma null_field_is_not_defaulted_witness :
  well_typed scenario_tile = true
  /\ record_pano_id scenario_tile = Some "ABC123"
  /\ "pitch" ∈ ["heading"; "pitch"; "zoom"]
  /\ @create_new_filename plain_runtime (<["pitch" := PNone]> scenario_tile)
     = Raise TypeError.
Proof.
  split; [vm_compute; reflexivity|]. split; [vm_compute; reflexivity|].
  assert ("pitch" ∈ ["heading"; "pitch"; "zoom"]) as Hkey by (right; left).
  split; [exact Hkey|].
  apply (@null_field_is_not_defaulted plain_runtime scenario_tile "ABC123" "pitch");
    [vm_compute; reflexivity|vm_compute; reflexivity|exact Hkey].
Defined.

Lemma scan_gives_up_rest_of_file_witness :
  lacks ({[ "extra" := PNone ]} : tile) "panoId" = true
  /\ extra_is_object ({[ "extra" := PNone ]} : tile) = false
  /\ @scan_puzzles plain_runtime
       [Ok (JsonList ([] ++ {[ "extra" := PNone ]} :: [scenario_tile]))] ∅
     = @scan_puzzles plain_runtime [Ok (JsonList [])] ∅.
Proof.
  split; [vm_compute; reflexivity|]. split; [vm_compute; reflexivity|].
  apply (@scan_gives_up_rest_of_file plain_runtime {[ "extra" := PNone ]} []
           [scenario_tile] [] ∅ 0%nat); vm_compute; reflexivity.
Defined.
(** * Full names and thumbnail names *)

Section NameSuffix.
Context `{PyRuntime}.

Lemma py_endswith_app pre suffix : py_endswith (pre +:+ suffix) suffix = true.
Proof.
  induction pre as [|c pre IH].
  - destruct suffix; simpl; by rewrite ?String.eqb_refl, ?Ascii.eqb_refl.
  - rewrite append_cons. cbn [py_endswith]. rewrite IH. apply orb_true_r.
Qed.

Lemma py_endswith_inv s suffix :
  py_endswith s suffix = true -> exists pre, s = pre +:+ suffix.
Proof.
  induction s as [|c s IH]; cbn [py_endswith]; rewrite orb_true_iff.
  - intros [Heq|]; [|done]. apply String.eqb_eq in Heq as <-. by exists "".
  - intros [Heq|Hrest].
    + apply String.eqb_eq in Heq as <-. by exists "".
    + destruct (IH Hrest) as [pre ->]. by exists (String c pre).
Qed.

Lemma list_ascii_app s1 s2 :
  list_ascii_of_string (s1 +:+ s2) = list_ascii_of_string s1 ++ list_ascii_of_string s2.
Proof. induction s1 as [|c s1 IH]; [done|]. rewrite append_cons. simpl. by f_equal. Qed.

Lemma string_of_uint_no_b d :
  Forall (fun c => c <> "b"%char) (list_ascii_of_string (NilEmpty.string_of_uint d)).
Proof. induction d; simpl; try (apply Forall_cons; split; [done|]); done. Qed.

Lemma str_of_Z_no_b z :
  Forall (fun c => c <> "b"%char) (list_ascii_of_string (Float.str_of_Z z)).
Proof.
  unfold Float.str_of_Z, NilZero.string_of_int.
  destruct (Z.to_int z) as [d|d]; unfold NilZero.string_of_uint.
  - destruct d; try apply string_of_uint_no_b. by repeat constructor.
  - apply Forall_cons. split; [done|].
    destruct d; try apply string_of_uint_no_b. by repeat constructor.
Qed.

(** The name that the codec returns: what comes before the zoom, the
    zoom and the extension. *)
Lemma create_new_filename_zoom t base :
  create_new_filename t = Ok base ->
  exists front zoom, base = front +:+ "~z" +:+ Float.str_of_Z zoom +:+ ".jpg".
Proof.
  intros Hname.
  destruct (create_new_filename_parts t base Hname)
    as (pano_id & heading & pitch & zoom & date & Hlook & Htruthy & Hh & Hp & Hz & Hd & _).
  rewrite (create_new_filename_numbers t pano_id date Hlook Htruthy Hd) in Hname.
  rewrite Hh, Hp, Hz in Hname. cbn [mbind result_bind] in Hname. injection Hname as <-.
  exists (py_str pano_id +:+ "~d"
          +:+ py_str (if negb (truthy date) then PStr fallback_date else date)
          +:+ "~h" +:+ heading +:+ "~p" +:+ pitch), zoom.
  by rewrite !append_assoc.
Qed.

Lemma full_name_suffix t base :
  create_new_filename t = Ok base -> py_endswith base "~thumb.jpg" = false.
Proof.
  intros Hname. destruct (create_new_filename_zoom t base Hname) as (front & zoom & ->).
  destruct (py_endswith _ "~thumb.jpg") eqn:Hends; [exfalso|done].
  apply py_endswith_inv in Hends as [pre Heq].
  apply (f_equal list_ascii_of_string) in Heq.
  change "~thumb.jpg" with ("~thumb" +:+ ".jpg") in Heq.
  rewrite !list_ascii_app in Heq. rewrite !app_assoc in Heq.
  apply app_inv_tail in Heq.
  apply (f_equal last) in Heq. rewrite <- !app_assoc in Heq.
  rewrite (last_app (list_ascii_of_string pre)) in Heq.
  rewrite (last_app (list_ascii_of_string front)) in Heq.
  rewrite (last_app (list_ascii_of_string "~z")) in Heq.
  pose proof (str_of_Z_no_b zoom) as Hno.
  destruct (last (list_ascii_of_string (Float.str_of_Z zoom))) as [c|] eqn:Hlast.
  - apply last_Some_elem_of in Hlast. rewrite Forall_forall in Hno.
    apply (Hno c Hlast). simpl in Heq. by injection Heq.
  - simpl in Heq. discriminate.
Qed.

Lemma prefix_jpg_inside s :
  String.prefix "jpg" (s +:+ ".jpg") = true -> String.prefix "jpg" s = true.
Proof.
  destruct s as [|c1 [|c2 [|c3 s3]]]; rewrite ?append_cons;
    change ("" +:+ ".jpg") with ".jpg".
  4: { rewrite !prefix_cons, !prefix_nil. done. }
  all: repeat (rewrite prefix_cons;
               match goal with
               | |- context [Ascii.ascii_dec ?a ?b] =>
                   destruct (Ascii.ascii_dec a b); [try done|done]
               end).
Qed.

Lemma replace_go_jpg_end s : forall skip,
  inside_match skip s ->
  exists front,
    replace_go ".jpg" "~thumb.jpg" skip (s +:+ ".jpg") = front +:+ "~thumb.jpg".
Proof.
  induction s as [|c s IH]; intros skip Hinside.
  - destruct skip as [|[|[|[|]]]]; try done. by exists "".
  - rewrite append_cons. destruct skip as [|skip].
    + cbn [replace_go].
      destruct (String.prefix ".jpg" (String c (s +:+ ".jpg"))) eqn:Hpre.
      * rewrite prefix_cons in Hpre.
        destruct (Ascii.ascii_dec "." c); [|done].
        apply prefix_jpg_inside in Hpre.
        destruct (IH 3%nat Hpre) as [front Hfront].
        change (Nat.pred (String.length ".jpg")) with 3%nat. rewrite Hfront.
        exists ("~thumb.jpg" +:+ front). by rewrite append_assoc.
      * destruct (IH 0%nat I) as [front ->]. by exists (String c front).
    + cbn [replace_go]. apply IH.
      destruct skip as [|[|[|]]]; [exact I| | |done].
      * change (String.prefix "pg" (String c s) = true) in Hinside.
        rewrite prefix_cons in Hinside.
        by destruct (Ascii.ascii_dec "p" c).
      * change (String.prefix "jpg" (String c s) = true) in Hinside.
        rewrite prefix_cons in Hinside.
        by destruct (Ascii.ascii_dec "j" c).
Qed.

Lemma thumb_name_suffix t base :
  create_new_filename t = Ok base ->
  py_endswith (thumb_filename base) "~thumb.jpg" = true.
Proof.
  intros Hname. destruct (create_new_filename_extension t base Hname) as [stem ->].
  unfold thumb_filename, py_replace.
  destruct (replace_go_jpg_end stem 0%nat I) as [front ->].
  apply py_endswith_app.
Qed.

(** X5: the thumbnail name of a tile ends in [~thumb.jpg] and its full
    name does not (it ends in the zoom and [.jpg]); so no full name of
    any tile is the thumbnail name of a tile, and the test
    [endswith('~thumb.jpg')] tells the two kinds of names apart. *)
Theorem names_tell_full_from_thumb t base :
  create_new_filename t = Ok base ->
  py_endswith base "~thumb.jpg" = false
  /\ py_endswith (thumb_filename base) "~thumb.jpg" = true
  /\ forall t' base', create_new_filename t' = Ok base' ->
       base <> thumb_filename base' /\ thumb_filename base <> base'.
Proof.
  intros Hname.
  pose proof (full_name_suffix t base Hname) as Hfull.
  pose proof (thumb_name_suffix t base Hname) as Hthumb.
  split; [done|]. split; [done|].
  intros t' base' Hname'.
  pose proof (full_name_suffix t' base' Hname') as Hfull'.
  pose proof (thumb_name_suffix t' base' Hname') as Hthumb'.
  split; intros Heq; congruence.
Qed.

Lemma filter_split {A} (f : A -> bool) l :
  (length (List.filter (fun x => negb (f x)) l) + length (List.filter f l))%nat
  = length l.
Proof.
  induction l as [|x l IH]; [done|]. simpl. destruct (f x); simpl; lia.
Qed.

(** X6: the report of [dry_run].  Its expected files are those of the
    scan of [prune_orphaned_images]; the missing files are the expected
    ones not on disk and the orphaned files the others; and the split of
    the missing files into full images and thumbnails by
    [endswith('~thumb.jpg')] is exact: the two numbers add up to the
    missing files, a missing name that ends in [~thumb.jpg] is the
    thumbnail name of a scanned tile and one that does not is a full
    name. *)
Theorem dry_run_report_split puzzles actual report :
  dry_run puzzles actual = Some report ->
  dr_expected report = scan_puzzles puzzles ∅
  /\ dr_missing report = dr_expected report ∖ actual
  /\ dr_orphaned report = actual ∖ dr_expected report
  /\ (dr_missing_full report + dr_missing_thumb report)%nat = size (dr_missing report)
  /\ forall f, f ∈ dr_missing report ->
       exists data tiles t base,
         Ok data ∈ puzzles /\ extract_tiles data = Some tiles /\ t ∈ tiles
         /\ create_new_filename t = Ok base
         /\ (if py_endswith f "~thumb.jpg" then f = thumb_filename base else f = base).
Proof.
  unfold dry_run. destruct puzzles as [|p puzzles]; [done|].
  pose proof (dry_run_scan_expected (p :: puzzles) ∅ 0) as Hscan.
  destruct (dry_run_scan (p :: puzzles) ∅ 0) as [expected total]. cbn [fst] in Hscan.
  intros [= <-]. cbn [dr_expected dr_missing dr_orphaned dr_missing_full dr_missing_thumb].
  split; [done|]. split; [done|]. split; [done|].
  split; [apply filter_split|].
  intros f Hin. unfold missing_files in Hin. apply elem_of_difference in Hin as [Hin _].
  rewrite Hscan in Hin.
  apply scan_puzzles_sound in Hin as [Hin|(data & tiles & t & Hd & Hts & Ht & base & Hbase & Hf)];
    [by apply elem_of_empty in Hin|].
  exists data, tiles, t, base. repeat split; try done.
  destruct Hf as [-> | ->].
  - by rewrite (full_name_suffix t base Hbase).
  - by rewrite (thumb_name_suffix t base Hbase).
Qed.

End NameSuffix.

Lemma names_tell_full_from_thumb_witness :
  @create_new_filename plain_runtime dotted_tile = Ok "a.jpg~d2024-01~h0~p0~z0.jpg"
  /\ py_endswith "a.jpg~d2024-01~h0~p0~z0.jpg" "~thumb.jpg" = false
  /\ py_endswith (thumb_filename "a.jpg~d2024-01~h0~p0~z0.jpg") "~thumb.jpg" = true.
Proof.
  split; [vm_compute; reflexivity|].
  destruct (@names_tell_full_from_thumb plain_runtime dotted_tile
              "a.jpg~d2024-01~h0~p0~z0.jpg") as (Hfull & Hthumb & _);
    [vm_compute; reflexivity|].
  split; assumption.
Defined.

Lemma dry_run_report_split_witness :
  match @dry_run plain_runtime [Ok (JsonList [scenario_tile])] ∅ with
  | Some report =>
      (dr_missing_full report + dr_missing_thumb report)%nat = size (dr_missing report)
  | None => False
  end.
Proof.
  destruct (@dry_run plain_runtime [Ok (JsonList [scenario_tile])] ∅) as [report|] eqn:Hrun.
  - by apply (@dry_run_report_split plain_runtime [Ok (JsonList [scenario_tile])] ∅ report Hrun).
  - vm_compute in Hrun. discriminate.
Defined.

(** * What is on disk after a download *)

Ltac case_result :=
  match goal with
  | |- context [match ?r with Ok _ => _ | Raise _ => _ end] =>
      let Hr := fresh "Hr" in destruct r eqn:Hr
  end.

Ltac run_any :=
  repeat first [progress unfold_ops | progress reduce | case_reply
               | case_response | case_result | case_if].

(** After a run: the files that were there are there, and the names
    returned, if any, are the two names of the tile, both on disk. *)
Ltac solve_stored :=
  repeat match goal with |- _ /\ _ => split end;
  try reflexivity;
  try set_solver;
  let l := fresh "l" in
  let Hl := fresh "Hl" in
  intros l Hl;
  first [ discriminate Hl
        | injection Hl as <-; eexists; split; [eassumption|]; split; [reflexivity|];
          split; set_solver ].

Section Stored.
Context `{PyRuntime} (E : env).

Lemma download_pano_image_direct_stored t w :
  let '(o, w', out) := download_pano_image_direct E t w in
  files w ⊆ files w'
  /\ available w' = available w
  /\ forall l, o = Done (Some l) ->
       exists name, create_new_filename t = Ok name
                    /\ l = [name; thumb_filename name]
                    /\ name ∈ files w' /\ thumb_filename name ∈ files w'.
Proof.
  unfold download_pano_image_direct, try_direct_download.
  destruct (create_new_filename t) as [name|e] eqn:Hname.
  all: destruct (lookup_pano_id t) as [pano_id|e1].
  all: run_any.
  all: solve_stored.
Qed.


Lemma browser_method_stored t api_key http_port w :
  let '(o, w', out) := browser_method E t api_key http_port w in
  files w ⊆ files w'
  /\ forall l, o = Done (Some l) ->
       exists name, create_new_filename t = Ok name
                    /\ l = [name; thumb_filename name]
                    /\ name ∈ files w' /\ thumb_filename name ∈ files w'.
Proof.
  unfold browser_method, render_and_capture, release, on_download_error, get_browser.
  destruct (create_new_filename t) as [name|e] eqn:Hname.
  all: destruct (careful_pano_id t) as [pano_id|].
  all: destruct w as [fs [|b rest] tr].
  all: run_any.
  all: solve_stored.
Qed.

Lemma download_pano_image_stored t api_key http_port skip_direct_download w :
  let '(o, w', out) := download_pano_image E t api_key http_port skip_direct_download w in
  files w ⊆ files w'
  /\ forall l, o = Done (Some l) ->
       exists name, create_new_filename t = Ok name
                    /\ l = [name; thumb_filename name]
                    /\ name ∈ files w' /\ thumb_filename name ∈ files w'.
Proof.
  unfold download_pano_image. destruct skip_direct_download; cbn [negb].
  - pose proof (browser_method_stored t api_key http_port w) as Hb.
    unfold mbind, M_bind, mret, M_ret.
    destruct (browser_method E t api_key http_port w) as [[o w'] out]. done.
  - pose proof (download_pano_image_direct_stored t w) as Hd.
    destruct (download_pano_image_direct E t w) as [[od wd] outd] eqn:Hrun.
    rewrite (run_bind _ _ w od wd outd Hrun).
    destruct Hd as (Hsub & _ & Hnames).
    assert (let '(o, w', out) := browser_method E t api_key http_port wd in
            files w ⊆ files w'
            /\ forall l, o = Done (Some l) ->
                 exists name, create_new_filename t = Ok name
                              /\ l = [name; thumb_filename name]
                              /\ name ∈ files w' /\ thumb_filename name ∈ files w')
      as Hb.
    { pose proof (browser_method_stored t api_key http_port wd) as Hb.
      destruct (browser_method E t api_key http_port wd) as [[o w'] out].
      destruct Hb as [Hsub' Hnames']. split; [set_solver|done]. }
    destruct od as [[[|f fs]|]| |]; unfold_ops; try done.
    + destruct (browser_method E t api_key http_port wd) as [[o w'] out]. done.
    + destruct (browser_method E t api_key http_port wd) as [[o w'] out]. done.
Qed.

End Stored.
Section StoredBatch.
Context `{PyRuntime} (E : env).
Context (api_key : string) (http_port : Z) (skip_direct_download : bool).

Lemma download_needed_stored needed_tiles : forall downloaded w,
  let '(o, w', out) :=
    download_needed E api_key http_port skip_direct_download needed_tiles downloaded w in
  files w ⊆ files w'
  /\ forall res, o = Done res ->
       exists got, res = downloaded ++ got /\ Forall (fun f => f ∈ files w') got.
Proof.
  induction needed_tiles as [|t rest IH]; intros downloaded w.
  { cbn. split; [done|]. intros res [= <-]. exists []. by rewrite app_nil_r. }
  cbn [download_needed].
  pose proof (download_pano_image_stored E t api_key http_port skip_direct_download w) as Hd.
  destruct (download_pano_image E t api_key http_port skip_direct_download w)
    as [[o1 w1] out1] eqn:Hrun.
  rewrite (run_bind _ _ w o1 w1 out1 Hrun). destruct Hd as [Hsub Hnames].
  destruct o1 as [filenames| |]; [|by split..].
  destruct filenames as [[|f fs]|].
  - specialize (IH downloaded w1).
    destruct (download_needed E _ _ _ rest downloaded w1) as [[o2 w2] out2].
    destruct IH as [Hsub2 Hres2]. split; [set_solver|done].
  - destruct (Hnames (f :: fs) eq_refl) as (name & _ & Hl & Hfull & Hthumb).
    specialize (IH (downloaded ++ f :: fs) w1).
    destruct (download_needed E _ _ _ rest (downloaded ++ f :: fs) w1) as [[o2 w2] out2].
    destruct IH as [Hsub2 Hres2]. split; [set_solver|].
    intros res Hres. destruct (Hres2 res Hres) as (got & -> & Hgot).
    exists ((f :: fs) ++ got). split; [by rewrite app_assoc|].
    apply Forall_app. split; [|done].
    rewrite Hl. repeat constructor; set_solver.
  - specialize (IH downloaded w1).
    destruct (download_needed E _ _ _ rest downloaded w1) as [[o2 w2] out2].
    destruct IH as [Hsub2 Hres2]. split; [set_solver|done].
Qed.

Lemma generate_thumb_stored t w :
  let '(o, w', out) :=
    try_except
      (base_filename ← lift (create_new_filename t);
       let thumb := thumb_filename base_filename in
       _ ← perform E (OpenImage base_filename);
       _ ← perform E (SaveThumb thumb);
       _ ← print (MsgGenerated thumb);
       mret (Some thumb))
      (fun e =>
         let top := dict_get t "panoId" PNone in
         _ ← lift (if truthy top then Ok top
                   else py_get (dict_get t "extra" (PDict ∅)) "panoId" (PStr "unknown"));
         _ ← print (MsgThumbError e);
         mret None) w in
  files w ⊆ files w'
  /\ forall thumb, o = Done (Some thumb) -> thumb ∈ files w'.
Proof.
  cbv zeta. destruct (create_new_filename t) as [name|e].
  all: destruct (py_get (dict_get t "extra" (PDict ∅)) "panoId" (PStr "unknown")).
  all: run_any.
  all: split; [set_solver|]; intros thumb Hthumb;
    first [discriminate Hthumb | injection Hthumb as <-; set_solver].
Qed.

Lemma generate_thumbs_stored thumb_only_tiles : forall downloaded w,
  let '(o, w', out) := generate_thumbs E thumb_only_tiles downloaded w in
  files w ⊆ files w'
  /\ forall res, o = Done res ->
       exists got, res = downloaded ++ got /\ Forall (fun f => f ∈ files w') got.
Proof.
  induction thumb_only_tiles as [|t rest IH]; intros downloaded w.
  { cbn. split; [done|]. intros res [= <-]. exists []. by rewrite app_nil_r. }
  cbn [generate_thumbs].
  pose proof (generate_thumb_stored t w) as Hstep.
  match goal with
  | |- context [mbind ?k ?m0] => set (m := m0) in *
  end.
  destruct (m w) as [[o1 w1] out1] eqn:Hrun.
  rewrite (run_bind m _ w o1 w1 out1 Hrun).
  destruct Hstep as [Hsub Hmade].
  destruct o1 as [made| |]; [|by split..].
  destruct made as [thumb|].
  - specialize (IH (downloaded ++ [thumb]) w1).
    destruct (generate_thumbs E rest (downloaded ++ [thumb]) w1) as [[o2 w2] out2].
    destruct IH as [Hsub2 Hres2]. split; [set_solver|].
    intros res Hres. destruct (Hres2 res Hres) as (got & -> & Hgot).
    exists (thumb :: got). split; [by rewrite <- app_assoc|].
    apply Forall_cons. split; [|done]. specialize (Hmade thumb eq_refl). set_solver.
  - specialize (IH downloaded w1).
    destruct (generate_thumbs E rest downloaded w1) as [[o2 w2] out2].
    destruct IH as [Hsub2 Hres2]. split; [set_solver|done].
Qed.

Lemma process_tiles_stored tiles w :
  let '(o, w', out) :=
    process_tiles E api_key http_port skip_direct_download tiles w in
  files w ⊆ files w'
  /\ forall res, o = Done res -> Forall (fun f => f ∈ files w') res.
Proof.
  unfold process_tiles.
  destruct (reply E (trace w) Mkdir) as [[]|e] eqn:Hmkdir.
  2: { unfold mbind, M_bind, perform. rewrite Hmkdir. cbn. by split. }
  set (w1 := World (files w) (available w) (Called Mkdir (Ok tt) :: trace w)).
  assert (perform E Mkdir w = (Done tt, w1, [])) as Hperform
    by (unfold perform; rewrite Hmkdir; reflexivity).
  rewrite (run_bind _ _ w _ w1 [] Hperform).
  destruct (classify_outcome E tiles [] [] w1)
    as [outc [Hclassify|(e & t' & name & Hclassify & _)]].
  2: { rewrite (run_bind _ _ w1 _ w1 outc Hclassify). by split. }
  rewrite (run_bind _ _ w1 _ w1 outc Hclassify). cbn [app].
  set (needed := List.filter (needs_download (files w1)) tiles).
  set (thumbs := List.filter (needs_thumb (files w1)) tiles).
  assert (let '(o, w', out) :=
            (downloaded ← download_needed E api_key http_port skip_direct_download needed [];
             generate_thumbs E thumbs downloaded) w1 in
          files w ⊆ files w'
          /\ forall res, o = Done res -> Forall (fun f => f ∈ files w') res) as Hboth.
  { pose proof (download_needed_stored needed [] w1) as Hd.
    destruct (download_needed E _ _ _ needed [] w1) as [[o1 w2] out1] eqn:Hrun1.
    rewrite (run_bind _ _ w1 o1 w2 out1 Hrun1). destruct Hd as [Hsub1 Hres1].
    destruct o1 as [downloaded| |]; [|by split..].
    destruct (Hres1 downloaded eq_refl) as (got1 & -> & Hgot1).
    pose proof (generate_thumbs_stored thumbs ([] ++ got1) w2) as Hg.
    destruct (generate_thumbs E thumbs ([] ++ got1) w2) as [[o2 w3] out2].
    destruct Hg as [Hsub2 Hres2]. split; [set_solver|].
    intros res Hres. destruct (Hres2 res Hres) as (got2 & -> & Hgot2).
    apply Forall_app. split; [|done].
    eapply Forall_impl; [exact Hgot1|]. set_solver. }
  destruct needed as [|t1 needed'], thumbs as [|t2 thumbs'];
    try (match goal with
         | |- context [mbind ?k ?m w1] => destruct (mbind k m w1) as [[o w'] out]
         end; exact Hboth).
  unfold_ops. split; [done|]. by intros res [= <-].
Qed.

Lemma process_json_file_async_stored json_file w :
  let '(o, w', out) :=
    process_json_file_async E api_key http_port skip_direct_download json_file w in
  files w ⊆ files w'
  /\ forall res, o = Done res -> Forall (fun f => f ∈ files w') res.
Proof.
  unfold process_json_file_async.
  destruct (reply E (trace w) (LoadJson json_file)) as [data|e] eqn:Hload.
  2: { unfold_ops. rewrite Hload. cbn. split; [done|]. by intros res [= <-]. }
  set (w1 := World (files w) (available w) (Called (LoadJson json_file) (Ok data) :: trace w)).
  assert (perform E (LoadJson json_file) w = (Done data, w1, [])) as Hperform
    by (unfold perform; rewrite Hload; reflexivity).
  unfold try_except. rewrite (run_bind _ _ w _ w1 [] Hperform).
  destruct (extract_tiles data) as [[|t tiles]|].
  - unfold_ops. split; [done|]. by intros res [= <-].
  - pose proof (process_tiles_stored (t :: tiles) w1) as Hp.
    destruct (process_tiles E _ _ _ (t :: tiles) w1) as [[o w'] out].
    destruct Hp as [Hsub Hres].
    destruct o as [res| |]; unfold_ops; (split; [done|]); try done.
    by intros res [= <-].
  - unfold_ops. split; [done|]. by intros res [= <-].
Qed.

Lemma process_all_stored json_files : forall all_downloaded w,
  let '(o, w', out) :=
    process_all E api_key http_port skip_direct_download json_files all_downloaded w in
  files w ⊆ files w'
  /\ forall res, o = Done res ->
       exists got, res = all_downloaded ++ got /\ Forall (fun f => f ∈ files w') got.
Proof.
  induction json_files as [|json_file rest IH]; intros all_downloaded w.
  { cbn. split; [done|]. intros res [= <-]. exists []. by rewrite app_nil_r. }
  cbn [process_all].
  pose proof (process_json_file_async_stored json_file w) as Hf.
  set (m := try_except _ _).
  assert (let '(o, w', out) := m w in
          files w ⊆ files w'
          /\ forall res, o = Done res -> Forall (fun f => f ∈ files w') res) as Hm.
  { unfold m, try_except.
    destruct (process_json_file_async E _ _ _ json_file w) as [[o1 w1] out1].
    destruct Hf as [Hsub Hres]. destruct o1; unfold_ops; (split; [done|]); try done.
    by intros res [= <-]. }
  destruct (m w) as [[o1 w1] out1] eqn:Hrun.
  rewrite (run_bind m _ w o1 w1 out1 Hrun). destruct Hm as [Hsub Hres].
  destruct o1 as [result| |]; [|by split..].
  specialize (IH (all_downloaded ++ result) w1).
  destruct (process_all E _ _ _ rest (all_downloaded ++ result) w1) as [[o2 w2] out2].
  destruct IH as [Hsub2 Hres2]. split; [set_solver|].
  intros res Hdone. destruct (Hres2 res Hdone) as (got & -> & Hgot).
  exists (result ++ got). split; [by rewrite app_assoc|].
  apply Forall_app. split; [|done].
  eapply Forall_impl; [exact (Hres result eq_refl)|]. set_solver.
Qed.

(** X7: every name that the batch reports as downloaded is a file of the
    image directory when the batch ends, and no file that was there
    before is gone. *)
Theorem downloaded_names_are_stored json_files w res w' out :
  process_all E api_key http_port skip_direct_download json_files [] w
  = (Done res, w', out) ->
  files w ⊆ files w' /\ Forall (fun f => f ∈ files w') res.
Proof.
  intros Hrun. pose proof (process_all_stored json_files [] w) as Hs.
  rewrite Hrun in Hs. destruct Hs as [Hsub Hres]. split; [done|].
  by destruct (Hres res eq_refl) as (got & -> & Hgot).
Qed.

Lemma filter_nil {A} (f : A -> bool) l :
  (forall x, x ∈ l -> f x = false) -> List.filter f l = [].
Proof.
  induction l as [|x l IH]; intros Hall; [done|]. simpl.
  rewrite (Hall x) by (by left). apply IH. intros y Hy. apply Hall. by right.
Qed.

(** X8: a pass over the tiles of a file that returned, or found on disk,
    both names of every tile leaves nothing to do: the next pass creates
    the directory and stops, without a request, a page, an image opened
    or a file written. *)
Theorem second_pass_is_idle tiles w res w' out :
  process_tiles E api_key http_port skip_direct_download tiles w = (Done res, w', out) ->
  (forall t name, t ∈ tiles -> create_new_filename t = Ok name ->
     (name ∈ files w \/ name ∈ res)
     /\ (thumb_filename name ∈ files w \/ thumb_filename name ∈ res)) ->
  reply E (trace w') Mkdir = Ok tt ->
  exists out2,
    process_tiles E api_key http_port skip_direct_download tiles w'
    = (Done [], World (files w') (available w') (Called Mkdir (Ok tt) :: trace w'), out2)
    /\ MsgAllExist ∈ out2.
Proof.
  intros Hrun Hall Hmkdir.
  pose proof (process_tiles_stored tiles w) as Hs. rewrite Hrun in Hs.
  destruct Hs as [Hsub Hres]. specialize (Hres res eq_refl).
  rewrite Forall_forall in Hres.
  unfold process_tiles.
  set (w1 := World (files w') (available w') (Called Mkdir (Ok tt) :: trace w')).
  assert (perform E Mkdir w' = (Done tt, w1, [])) as Hperform
    by (unfold perform; rewrite Hmkdir; reflexivity).
  rewrite (run_bind _ _ w' _ w1 [] Hperform).
  assert (forall t name, t ∈ tiles -> create_new_filename t = Ok name ->
            name ∈ files w' /\ thumb_filename name ∈ files w') as Hstored.
  { intros t name Hin Hname. destruct (Hall t name Hin Hname) as [[?|?] [?|?]];
      split; auto. }
  destruct (classify_run E tiles [] [] w1 (checks_return_present E _ _ Hstored))
    as [outc Hclassify].
  rewrite (run_bind _ _ w1 _ w1 outc Hclassify). cbn [app files w1].
  rewrite (filter_nil (needs_download (files w')) tiles),
    (filter_nil (needs_thumb (files w')) tiles).
  - unfold_ops. eexists. split; [reflexivity|]. set_solver.
  - intros t Hin. unfold needs_thumb, name_of.
    destruct (create_new_filename t) as [name|] eqn:Hname; [|done].
    destruct (Hstored t name Hin Hname) as [Hfull Hthumb].
    by rewrite !bool_decide_eq_true_2.
  - intros t Hin. unfold needs_download, name_of.
    destruct (create_new_filename t) as [name|] eqn:Hname; [|done].
    destruct (Hstored t name Hin Hname) as [Hfull Hthumb].
    by rewrite bool_decide_eq_true_2.
Qed.

End StoredBatch.
Lemma downloaded_names_are_stored_witness :
  match @process_all plain_runtime healthy_env "key" 8000 false ["1.json"] [] start_world with
  | (Done res, w', _) => length res = 2%nat /\ Forall (fun f => f ∈ files w') res
  | _ => False
  end.
Proof.
  destruct (@process_all plain_runtime healthy_env "key" 8000 false ["1.json"] []
              start_world) as [[o w'] out] eqn:Hrun.
  pose proof (f_equal (fun x => x.1.1) Hrun) as Ho. vm_compute in Ho. subst o.
  split; [reflexivity|].
  apply (@downloaded_names_are_stored plain_runtime healthy_env "key" 8000 false
           ["1.json"] start_world _ w' out Hrun).
Defined.

Lemma second_pass_is_idle_witness :
  match @process_tiles plain_runtime healthy_env "key" 8000 false [scenario_tile]
          start_world with
  | (Done res, w', _) =>
      exists out2,
        @process_tiles plain_runtime healthy_env "key" 8000 false [scenario_tile] w'
        = (Done [], World (files w') (available w') (Called Mkdir (Ok tt) :: trace w'), out2)
        /\ MsgAllExist ∈ out2
  | _ => False
  end.
Proof.
  destruct (@process_tiles plain_runtime healthy_env "key" 8000 false [scenario_tile]
              start_world) as [[o w'] out] eqn:Hrun.
  pose proof (f_equal (fun x => x.1.1) Hrun) as Ho. vm_compute in Ho. subst o.
  apply (@second_pass_is_idle plain_runtime healthy_env "key" 8000 false
           [scenario_tile] start_world _ w' out Hrun); [|reflexivity].
  intros t name Hin Hname. apply list_elem_of_singleton in Hin. subst t.
  vm_compute in Hname. injection Hname as <-.
  split; right; [left|right; left].
Defined.
(** * The calls of each part *)

Section Footprint.
Context `{PyRuntime} (E : env).

Lemma calls_only_ret {A} ks (a : A) : calls_only ks (mret a).
Proof. intros w. exists []. by split. Qed.

Lemma calls_only_print ks msg : calls_only ks (print msg).
Proof. intros w. exists []. by split. Qed.

Lemma calls_only_throw {A} ks e : calls_only ks (@throw A e).
Proof. intros w. exists []. by split. Qed.

Lemma calls_only_lift {A} ks (r : result A) : calls_only ks (lift r).
Proof. destruct r; [apply calls_only_ret|apply calls_only_throw]. Qed.

Lemma calls_only_exists_file ks name : calls_only ks (exists_file E name).
Proof.
  intros w. exists []. unfold exists_file.
  destruct (bool_decide (name ∈ files w)); [by split|].
  by destruct (exists_error E name).
Qed.

Lemma calls_only_get_browser ks : calls_only ks get_browser.
Proof. intros w. exists []. unfold get_browser. by destruct (available w). Qed.

Lemma calls_only_return_browser ks b : calls_only ks (return_browser b).
Proof. intros w. exists []. by split. Qed.

Lemma calls_only_perform {R} ks (c : call R) :
  kind_of c ∈ ks -> calls_only ks (perform E c).
Proof.
  intros Hin w. exists [Called c (reply E (trace w) c)].
  split; [done|]. by repeat constructor.
Qed.

Lemma calls_only_bind {A B} ks (m : M A) (f : A -> M B) :
  calls_only ks m -> (forall a, calls_only ks (f a)) -> calls_only ks (m ≫= f).
Proof.
  intros Hm Hf w. destruct (Hm w) as (evs1 & Htr1 & Hks1).
  unfold mbind, M_bind. destruct (m w) as [[o w1] out1]. cbn [fst snd] in *.
  destruct o as [a| |]; [|by exists evs1..].
  destruct (Hf a w1) as (evs2 & Htr2 & Hks2).
  destruct (f a w1) as [[o2 w2] out2]. cbn [fst snd] in *.
  exists (evs2 ++ evs1). rewrite Htr2, Htr1, app_assoc. split; [done|].
  unfold kinds in *. rewrite map_app. by apply Forall_app.
Qed.

Lemma calls_only_try_except {A} ks (body : M A) handler :
  calls_only ks body -> (forall e, calls_only ks (handler e)) ->
  calls_only ks (try_except body handler).
Proof.
  intros Hm Hf w. destruct (Hm w) as (evs1 & Htr1 & Hks1).
  unfold try_except. destruct (body w) as [[o w1] out1]. cbn [fst snd] in *.
  destruct o as [a|e|]; [by exists evs1| |by exists evs1].
  destruct (Hf e w1) as (evs2 & Htr2 & Hks2).
  destruct (handler e w1) as [[o2 w2] out2]. cbn [fst snd] in *.
  exists (evs2 ++ evs1). rewrite Htr2, Htr1, app_assoc. split; [done|].
  unfold kinds in *. rewrite map_app. by apply Forall_app.
Qed.

Lemma calls_only_try_finally {A} ks (body : M A) fin :
  calls_only ks body -> calls_only ks fin -> calls_only ks (try_finally body fin).
Proof.
  intros Hm Hf w. destruct (Hm w) as (evs1 & Htr1 & Hks1).
  unfold try_finally. destruct (body w) as [[o w1] out1]. cbn [fst snd] in *.
  destruct (Hf w1) as (evs2 & Htr2 & Hks2).
  destruct o as [a|e|]; [| |by exists evs1].
  all: destruct (fin w1) as [[o2 w2] out2]; cbn [fst snd] in *.
  all: exists (evs2 ++ evs1); rewrite Htr2, Htr1, app_assoc; (split; [done|]).
  all: unfold kinds in *; rewrite map_app; by apply Forall_app.
Qed.

Lemma calls_only_mono {A} ks ks' (m : M A) :
  ks ⊆ ks' -> calls_only ks m -> calls_only ks' m.
Proof.
  intros Hsub Hm w. destruct (Hm w) as (evs & Htr & Hks).
  exists evs. split; [done|]. eapply Forall_impl; [exact Hks|]. intros k Hk. by apply Hsub.
Qed.

End Footprint.

Ltac footprint E :=
  repeat first
    [ assumption | apply calls_only_ret | apply calls_only_print | apply calls_only_throw
    | apply calls_only_lift | apply calls_only_exists_file
    | apply calls_only_get_browser | apply calls_only_return_browser
    | apply (calls_only_perform E); compute_done
    | apply calls_only_bind; [|intros ?]
    | apply calls_only_try_except; [|intros ?]
    | apply calls_only_try_finally
    | match goal with
      | |- calls_only _ (match ?x with _ => _ end) => destruct x
      end ].

Section FootprintOf.
Context `{PyRuntime} (E : env).

Lemma try_urls_calls test_urls : calls_only direct_kinds (try_urls E test_urls).
Proof. induction test_urls as [|url rest IH]; cbn [try_urls]; footprint E. Qed.

Lemma download_pano_image_direct_calls t :
  calls_only direct_kinds (download_pano_image_direct E t).
Proof.
  unfold download_pano_image_direct, try_direct_download.
  footprint E; try apply try_urls_calls; footprint E.
Qed.

Lemma browser_method_calls t api_key http_port :
  calls_only page_kinds (browser_method E t api_key http_port).
Proof.
  unfold browser_method, render_and_capture, release, on_download_error.
  footprint E.
Qed.

Lemma download_pano_image_calls t api_key http_port skip_direct_download :
  calls_only (direct_kinds ++ page_kinds)
    (download_pano_image E t api_key http_port skip_direct_download).
Proof.
  unfold download_pano_image. apply calls_only_bind.
  - destruct skip_direct_download; cbn [negb]; [apply calls_only_ret|].
    eapply calls_only_mono; [|apply download_pano_image_direct_calls].
    intros k Hk. apply elem_of_app. by left.
  - intros direct_result.
    assert (calls_only (direct_kinds ++ page_kinds)
              (_ ← (if negb skip_direct_download then print MsgDirectFailed else mret ());
               browser_method E t api_key http_port)) as Hb.
    { apply calls_only_bind; [destruct (negb skip_direct_download); footprint E|].
      intros _. eapply calls_only_mono; [|apply browser_method_calls].
      intros k Hk. apply elem_of_app. by right. }
    destruct direct_result as [[|]|]; try done. apply calls_only_ret.
Qed.

End FootprintOf.

Section FootprintBatch.
Context `{PyRuntime} (E : env).
Context (api_key : string) (http_port : Z) (skip_direct_download : bool).

Lemma classify_calls tiles : forall needed_tiles thumb_only_tiles,
  calls_only [] (classify E tiles needed_tiles thumb_only_tiles).
Proof.
  induction tiles as [|t rest IH]; intros needed_tiles thumb_only_tiles;
    cbn [classify]; footprint E; apply IH.
Qed.

Lemma download_needed_calls needed_tiles : forall downloaded,
  calls_only (direct_kinds ++ page_kinds)
    (download_needed E api_key http_port skip_direct_download needed_tiles downloaded).
Proof.
  induction needed_tiles as [|t rest IH]; intros downloaded; cbn [download_needed].
  - apply calls_only_ret.
  - apply calls_only_bind; [apply download_pano_image_calls|].
    intros [[|]|]; apply IH.
Qed.

Lemma generate_thumbs_calls thumb_only_tiles : forall downloaded,
  calls_only thumb_kinds (generate_thumbs E thumb_only_tiles downloaded).
Proof.
  induction thumb_only_tiles as [|t rest IH]; intros downloaded; cbn [generate_thumbs].
  - apply calls_only_ret.
  - apply calls_only_bind; [footprint E|]. intros [|]; apply IH.
Qed.

Lemma processing_kinds_direct_page : direct_kinds ++ page_kinds ⊆ processing_kinds.
Proof. intros k Hk. unfold processing_kinds. apply elem_of_app. by right. Qed.

Lemma processing_kinds_thumb : thumb_kinds ⊆ processing_kinds.
Proof. unfold thumb_kinds, processing_kinds, direct_kinds, page_kinds. set_solver. Qed.

Lemma process_tiles_calls tiles :
  calls_only processing_kinds
    (process_tiles E api_key http_port skip_direct_download tiles).
Proof.
  unfold process_tiles.
  apply calls_only_bind; [apply (calls_only_perform E); compute_done|]. intros _.
  apply calls_only_bind.
  { eapply calls_only_mono; [|apply classify_calls]. set_solver. }
  intros [needed_tiles thumb_only_tiles].
  assert (calls_only processing_kinds
            (downloaded ← download_needed E api_key http_port skip_direct_download
                             needed_tiles [];
             generate_thumbs E thumb_only_tiles downloaded)) as Hboth.
  { apply calls_only_bind.
    - eapply calls_only_mono; [apply processing_kinds_direct_page|].
      apply download_needed_calls.
    - intros downloaded. eapply calls_only_mono; [apply processing_kinds_thumb|].
      apply generate_thumbs_calls. }
  destruct needed_tiles, thumb_only_tiles; try done; footprint E.
Qed.

Lemma process_json_file_async_calls json_file :
  calls_only processing_kinds
    (process_json_file_async E api_key http_port skip_direct_download json_file).
Proof.
  unfold process_json_file_async.
  apply calls_only_try_except; [|intros e; footprint E].
  apply calls_only_bind; [apply (calls_only_perform E); compute_done|].
  intros data.
  destruct (extract_tiles data) as [[|t tiles]|];
    [footprint E|apply process_tiles_calls|footprint E].
Qed.

Lemma process_all_calls json_files : forall all_downloaded,
  calls_only processing_kinds
    (process_all E api_key http_port skip_direct_download json_files all_downloaded).
Proof.
  induction json_files as [|json_file rest IH]; intros all_downloaded; cbn [process_all].
  - apply calls_only_ret.
  - apply calls_only_bind; [|intros ?; apply IH].
    apply calls_only_try_except; [apply process_json_file_async_calls|].
    intros e. footprint E.
Qed.

(** X9: each part of the program makes the calls of its tier only.  The
    direct download asks for no page; the browser fallback makes no
    request; the sorting of the tiles by what is on disk makes no call;
    missing thumbnails are made without a request and without a page; and
    the processing of the puzzle files never launches or closes a
    browser. *)
Theorem each_part_calls_its_own :
  (forall t, calls_only direct_kinds (download_pano_image_direct E t))
  /\ (forall t, calls_only page_kinds (browser_method E t api_key http_port))
  /\ (forall tiles needed_tiles thumb_only_tiles,
        calls_only [] (classify E tiles needed_tiles thumb_only_tiles))
  /\ (forall thumb_only_tiles downloaded,
        calls_only thumb_kinds (generate_thumbs E thumb_only_tiles downloaded))
  /\ (forall json_files all_downloaded,
        calls_only processing_kinds
          (process_all E api_key http_port skip_direct_download json_files all_downloaded))
  /\ (KNewPage ∉ direct_kinds) /\ (KHttpGet ∉ page_kinds)
  /\ (KHttpGet ∉ thumb_kinds) /\ (KNewPage ∉ thumb_kinds)
  /\ (KLaunch ∉ processing_kinds) /\ (KCloseBrowser ∉ processing_kinds).
Proof.
  split; [apply download_pano_image_direct_calls|].
  split; [intros; apply browser_method_calls|].
  split; [apply classify_calls|].
  split; [apply generate_thumbs_calls|].
  split; [apply process_all_calls|].
  repeat split; compute_done.
Qed.

End FootprintBatch.
(** * The life of the browser pool *)

Section Lifecycle.
Context `{PyRuntime} (E : env).
Context (api_key : string) (http_port : Z) (skip_direct_download : bool).

Lemma launched_app evs1 evs2 : launched (evs1 ++ evs2) = launched evs1 ++ launched evs2.
Proof. apply omap_app. Qed.

Lemma closed_app evs1 evs2 : closed (evs1 ++ evs2) = closed evs1 ++ closed evs2.
Proof. apply omap_app. Qed.

(** [initialize] launches the browsers one after the other and queues
    each one; it stops at the first launch that raises. *)
Lemma initialize_run max_browsers : forall w,
  let '(o, w', out) := initialize E max_browsers w in
  exists evs,
    trace w' = evs ++ trace w
    /\ Forall (.∈ [KLaunch]) (kinds evs)
    /\ available w' = available w ++ rev (launched evs)
    /\ files w' = files w
    /\ match o with
       | Done bs =>
           bs = rev (launched evs) /\ length bs = max_browsers
           /\ evs = rev (map (fun b => Called Launch (Ok b)) bs)
       | Throw e =>
           (length (launched evs) < max_browsers)%nat
           /\ exists h, reply E h Launch = Raise e
       | Hang => False
       end.
Proof.
  induction max_browsers as [|n IH]; intros w.
  { cbn. exists []. rewrite app_nil_r. by repeat split. }
  cbn [initialize]. unfold mbind at 1, M_bind at 1, perform at 1.
  destruct (reply E (trace w) Launch) as [b|e] eqn:Hlaunch.
  2: { cbn. exists [Called Launch (Raise e)]. split; [done|].
       split; [by repeat constructor|]. split; [by rewrite app_nil_r|].
       split; [done|]. cbn. split; [lia|by eexists]. }
  unfold mbind at 1, M_bind at 1, return_browser at 1; cbn [written files available trace].
  set (w1 := World _ _ _).
  specialize (IH w1).
  unfold mbind, M_bind. destruct (initialize E n w1) as [[o2 w2] out2].
  destruct IH as (evs & Htr & Hks & Hav & Hfs & Hres).
  assert (Forall (.∈ [KLaunch]) (kinds (evs ++ [Called Launch (Ok b)]))) as Hks'.
  { unfold kinds. rewrite map_app. apply Forall_app. split; [done|by repeat constructor]. }
  destruct o2 as [bs| |]; [|..|done]; unfold mret, M_ret; cbn beta iota;
    exists (evs ++ [Called Launch (Ok b)]);
    rewrite Htr, Hav, Hfs, launched_app, rev_app_distr; cbn [w1 trace available files].
  - split; [by rewrite <- app_assoc|]. split; [done|].
    split; [by rewrite <- app_assoc|]. split; [done|].
    destruct Hres as (-> & Hlen & Hevs). cbn.
    split; [done|]. split; [lia|]. by rewrite <- Hevs.
  - split; [by rewrite <- app_assoc|]. split; [done|].
    split; [by rewrite <- app_assoc|]. split; [done|].
    destruct Hres as [Hlt Hfail]. split; [|done]. rewrite length_app. cbn. lia.
Qed.

Lemma close_all_run browsers : forall w,
  (forall h b, is_ok (reply E h (CloseBrowser b)) = true) ->
  close_all E browsers w
  = (Done tt,
     World (files w) (available w)
       (rev (map (fun b => Called (CloseBrowser b) (Ok tt)) browsers) ++ trace w), []).
Proof.
  induction browsers as [|b rest IH]; intros w Hclose; [by destruct w|].
  cbn [close_all]. unfold mbind, M_bind, perform.
  pose proof (Hclose (trace w) b) as Hb.
  destruct (reply E (trace w) (CloseBrowser b)) as [[]|]; [|done].
  cbn [written]. rewrite IH by done. cbn [files available trace map rev].
  by rewrite <- app_assoc.
Qed.

Lemma processing_events evs :
  Forall (.∈ processing_kinds) (kinds evs) -> launched evs = [] /\ closed evs = [].
Proof.
  induction evs as [|[R c r] evs IH]; [done|].
  cbn [kinds map]. intros Hks. apply Forall_cons in Hks as [Hk Hks].
  destruct (IH Hks) as [Hl Hc].
  destruct c; cbn [launched closed omap]; try (by rewrite ?Hl, ?Hc);
    exfalso; revert Hk; cbn; compute_done.
Qed.

Lemma launch_events evs :
  Forall (.∈ [KLaunch]) (kinds evs) -> closed evs = [] /\ loads evs = [].
Proof.
  induction evs as [|[R c r] evs IH]; [done|].
  cbn [kinds map]. intros Hks. apply Forall_cons in Hks as [Hk Hks].
  destruct (IH Hks) as [Hc Hl].
  destruct c; cbn [closed loads omap]; try (by rewrite ?Hl, ?Hc);
    exfalso; revert Hk; cbn; compute_done.
Qed.

(** X10: the life of the pool in a batch.  When browsers can be launched
    and closed and pages opened and closed, [main_async] launches
    [max_browsers] browsers, reads every puzzle file, and then closes the
    browsers it launched, each one once and in the order of their launch;
    in between no browser is launched or closed. *)
Theorem batch_closes_every_browser max_browsers json_files w :
  pages_work E -> browsers_work E -> max_browsers <> 0%nat -> available w = [] ->
  exists res w' out bs evs,
    run_batch E api_key http_port skip_direct_download max_browsers json_files w
    = (Done res, w', out)
    /\ length bs = max_browsers
    /\ trace w'
       = rev (map (fun b => Called (CloseBrowser b) (Ok tt)) bs)
         ++ evs ++ rev (map (fun b => Called Launch (Ok b)) bs) ++ trace w
    /\ launched evs = [] /\ closed evs = []
    /\ loads evs = rev json_files
    /\ length (available w') = max_browsers.
Proof.
  intros Hwork Hbw Hn Hav.
  pose proof (initialize_run max_browsers w) as Hi.
  destruct (initialize E max_browsers w) as [[o1 w1] out1] eqn:Hinit.
  destruct Hi as (levs & Htr1 & Hks1 & Hav1 & Hfs1 & Hres1).
  destruct o1 as [bs|e|]; [| |done].
  2: { destruct Hres1 as [_ [h Hfail]]. destruct (Hbw h) as [Hl _].
       by rewrite Hfail in Hl. }
  destruct Hres1 as (Hbs & Hlen & Hlevs).
  rewrite Hav in Hav1. cbn [app] in Hav1. rewrite <- Hbs in Hav1.
  assert (available w1 <> []) as Hne.
  { rewrite Hav1. intros ->. cbn in Hlen. lia. }
  destruct (process_all_run E api_key http_port skip_direct_download json_files [] w1
              Hwork Hne)
    as (res & w2 & out2 & evs & Hrun & Htr2 & Hlen2 & Hld & Hans).
  destruct (process_all_calls E api_key http_port skip_direct_download json_files [] w1)
    as (evs' & Htr' & Hks').
  rewrite Hrun in Htr'. cbn [fst snd] in Htr'. rewrite Htr2 in Htr'.
  apply app_inv_tail in Htr'. subst evs'.
  destruct (processing_events evs Hks') as [Hl Hc].
  unfold run_batch. rewrite (run_bind _ _ w _ w1 out1 Hinit).
  unfold try_finally. rewrite Hrun.
  rewrite (close_all_run bs w2) by (intros h b; by destruct (Hbw h) as [_ Hcl]).
  eexists res, _, _, bs, evs. split; [reflexivity|]. cbn [trace available].
  rewrite Htr2, Htr1, Hlevs, Hlen2, Hav1. done.
Qed.

(** X11: when a launch raises in [initialize], [main_async] raises
    before its [try]: no puzzle file is read and none of the browsers
    launched so far is closed; they are left in the pool. *)
Theorem failed_launch_closes_nothing max_browsers json_files w e w1 out :
  initialize E max_browsers w = (Throw e, w1, out) ->
  run_batch E api_key http_port skip_direct_download max_browsers json_files w
  = (Throw e, w1, out)
  /\ closed (trace w1) = closed (trace w)
  /\ loads (trace w1) = loads (trace w)
  /\ exists bs,
       launched (trace w1) = rev bs ++ launched (trace w)
       /\ available w1 = available w ++ bs
       /\ (length bs < max_browsers)%nat.
Proof.
  intros Hinit. pose proof (initialize_run max_browsers w) as Hi.
  rewrite Hinit in Hi. destruct Hi as (evs & Htr & Hks & Hav & _ & Hlt & _).
  destruct (launch_events evs Hks) as [Hc Hl].
  split; [unfold run_batch; by rewrite (run_bind _ _ w _ w1 out Hinit)|].
  rewrite Htr, closed_app, loads_app, launched_app, Hc, Hl.
  split; [done|]. split; [done|].
  exists (rev (launched evs)). rewrite rev_involutive, length_rev. done.
Qed.

End Lifecycle.

Lemma batch_closes_every_browser_witness :
  pages_work healthy_env /\ browsers_work healthy_env
  /\ exists res w' out,
       @run_batch plain_runtime healthy_env "key" 8000 false 2 ["1.json"] (World ∅ [] [])
       = (Done res, w', out)
       /\ length (available w') = 2%nat.
Proof.
  assert (pages_work healthy_env) as Hwork by (intros h; split; reflexivity).
  assert (browsers_work healthy_env) as Hbw by (intros h; split; reflexivity).
  split; [exact Hwork|]. split; [exact Hbw|].
  destruct (@batch_closes_every_browser plain_runtime healthy_env "key" 8000 false
              2 ["1.json"] (World ∅ [] []) Hwork Hbw)
    as (res & w' & out & bs & evs & Hrun & _ & _ & _ & _ & _ & Hlen);
    [discriminate|reflexivity|].
  exists res, w', out. split; [exact Hrun|exact Hlen].
Defined.

Lemma failed_launch_closes_nothing_witness :
  exists w1 out,
    initialize second_launch_fails_env 2 (World ∅ [] [])
    = (Throw PlaywrightError, w1, out)
    /\ closed (trace w1) = []
    /\ available w1 = [0%nat].
Proof.
  eexists _, _. split; [vm_compute; reflexivity|].
  destruct (@failed_launch_closes_nothing plain_runtime second_launch_fails_env
              "key" 8000 false 2 ["1.json"] (World ∅ [] []) PlaywrightError _ _
              ltac:(vm_compute; reflexivity))
    as (_ & Hclosed & _).
  split; [exact Hclosed|reflexivity].
Defined.
(** * A single panorama *)

Section SingleFacts.
Context `{PyRuntime} (E : env).

Lemma named_tile_truthy t name : create_new_filename t = Ok name -> truthy (PDict t) = true.
Proof.
  intros Hname. cbn [truthy]. case_bool_decide as Hempty; [|done].
  subst t. vm_compute in Hname. discriminate.
Qed.

Lemma tier_events evs :
  Forall (.∈ direct_kinds ++ page_kinds) (kinds evs) -> launched evs = [] /\ closed evs = [].
Proof.
  intros Hks. apply processing_events.
  eapply Forall_impl; [exact Hks|]. apply processing_kinds_direct_page.
Qed.

(** X12: [process_single_pano], called without [--no-direct], tries the
    direct download itself and, when that fails, hands the tile to
    [download_pano_image] with the same flag: the address that has just
    failed is requested a second time before a page is opened.  One
    browser is launched for this, and closed at the end. *)
Theorem single_mode_repeats_direct_download
    json_files pano_id api_key port w t name w0 out0 :
  pages_work E -> browsers_work E ->
  find_tile E json_files pano_id None w = (Done (Some t), w0, out0) ->
  create_new_filename t = Ok name ->
  api_key <> "" -> available w0 = [] -> reply E (trace w0) Mkdir = Ok tt ->
  exists o w' out evs,
    process_single_pano E json_files pano_id api_key false port w = (o, w', out)
    /\ trace w' = evs ++ trace w0
    /\ (o = Done (ViaDirect [name; thumb_filename name])
        /\ requests evs = [pano_img_url name]
        /\ page_requests evs = [] /\ launched evs = []
        \/ requests evs = [pano_img_url name; pano_img_url name]
           /\ (exists b, launched evs = [b] /\ closed evs = [b])
           /\ (length (page_requests evs) <= 1)%nat
           /\ (o = Done (ViaBrowser [name; thumb_filename name]) \/ o = Done BothFailed)).
Proof.
  intros Hwork Hbw Hfind Hname Hkey Hpool Hmkdir.
  unfold process_single_pano. rewrite (run_bind _ _ w _ w0 out0 Hfind).
  rewrite (named_tile_truthy t name Hname). cbn [negb].
  set (w1 := World (files w0) (available w0) (Called Mkdir (Ok tt) :: trace w0)).
  assert (perform E Mkdir w0 = (Done tt, w1, [])) as Hperform
    by (unfold perform; rewrite Hmkdir; reflexivity).
  rewrite (run_bind _ _ w0 _ w1 [] Hperform).
  destruct (download_pano_image_direct_run E t name w1 Hname)
    as (od & wd & outd & direct & Hdirect & Htrd & Havd & Hreqd & Hpgd & _ & _ & _ & Hresd).
  destruct (download_pano_image_direct_calls E t w1) as (direct' & Htrd' & Hksd).
  rewrite Hdirect in Htrd'. cbn [fst snd] in Htrd'. rewrite Htrd in Htrd'.
  apply app_inv_tail in Htrd'. subst direct'.
  destruct (tier_events direct) as [Hld Hcd].
  { eapply Forall_impl; [exact Hksd|]. intros k Hk. apply elem_of_app. by left. }
  rewrite (run_bind _ _ w1 _ wd outd Hdirect).
  destruct Hresd as [->|(-> & _)].
  2: { unfold mret, M_ret. eexists _, _, _, (direct ++ [Called Mkdir (Ok tt)]).
       split; [reflexivity|].
       split; [rewrite Htrd; cbn [w1 trace]; by rewrite <- app_assoc|].
       left. rewrite requests_app, page_requests_app, launched_app, Hreqd, Hpgd, Hld.
       done. }
  assert (truthy (PStr api_key) = true) as ->.
  { cbn [truthy]. destruct (String.eqb_spec api_key ""); done. }
  pose proof (initialize_run E 1 wd) as Hi.
  destruct (initialize E 1 wd) as [[o2 w2] out2] eqn:Hinit.
  destruct Hi as (levs & Htr2 & _ & Hav2 & _ & Hres2).
  destruct o2 as [bs|e|]; [| |done].
  2: { destruct Hres2 as [_ [h Hfail]]. destruct (Hbw h) as [Hl _]. by rewrite Hfail in Hl. }
  destruct Hres2 as (Hbs & Hlen & Hlevs).
  destruct bs as [|b [|]]; try done.
  rewrite Havd in Hav2. cbn [w1 available] in Hav2. rewrite Hpool, <- Hbs in Hav2.
  cbn [app] in Hav2. cbn [map rev app] in Hlevs. subst levs.
  rewrite (run_bind _ _ wd _ w2 out2 Hinit).
  destruct (download_pano_image_returns E api_key port false t name w2 Hwork Hname)
    as (res & w3 & out3 & evs3 & Hrun3 & Htr3 & _ & Hreq3 & Hpg3 & _ & _ & _ & Hres3);
    [by rewrite Hav2|].
  destruct (download_pano_image_calls E t api_key port false w2) as (evs3' & Htr3' & Hks3).
  rewrite Hrun3 in Htr3'. cbn [fst snd] in Htr3'. rewrite Htr3 in Htr3'.
  apply app_inv_tail in Htr3'. subst evs3'.
  destruct (tier_events evs3 Hks3) as [Hl3 Hc3].
  unfold try_finally. rewrite (run_bind _ _ w2 _ w3 out3 Hrun3).
  unfold mret, M_ret.
  rewrite (close_all_run E [b] w3) by (intros h b'; by destruct (Hbw h) as [_ Hcl]).
  cbn [map rev app files available trace].
  eexists _, _, _,
    (Called (CloseBrowser b) (Ok tt) :: evs3 ++ [Called Launch (Ok b)] ++ direct
     ++ [Called Mkdir (Ok tt)]).
  split; [reflexivity|].
  split.
  { rewrite Htr3, Htr2, Htrd. cbn [w1 trace app].
    repeat (rewrite <- app_assoc; cbn [app]). done. }
  right.
  change (Called (CloseBrowser b) (Ok tt) :: evs3 ++ [Called Launch (Ok b)] ++ direct
          ++ [Called Mkdir (Ok tt)])
    with ([Called (CloseBrowser b) (Ok tt)] ++ evs3 ++ [Called Launch (Ok b)] ++ direct
          ++ [Called Mkdir (Ok tt)]).
  rewrite !requests_app, !page_requests_app, !launched_app, !closed_app.
  rewrite Hreq3, Hreqd, Hpgd, Hl3, Hc3, Hld, Hcd. cbn.
  split; [done|]. split; [by exists b|]. split; [rewrite app_nil_r; exact Hpg3|].
  destruct Hres3 as [[-> _]| ->]; [by right|by left].
Qed.

End SingleFacts.

Lemma single_mode_repeats_direct_download_witness :
  pages_work no_direct_env /\ browsers_work no_direct_env
  /\ exists o w' out,
       @process_single_pano plain_runtime no_direct_env ["1.json"] "ABC123" "key"
         false 8000 (World ∅ [] []) = (o, w', out)
       /\ requests (trace w')
          = ["https://geonections.com/pano/img/ABC123~d2023-05~h90~p0~z1.jpg";
             "https://geonections.com/pano/img/ABC123~d2023-05~h90~p0~z1.jpg"].
Proof.
  assert (pages_work no_direct_env) as Hwork by (intros h; split; reflexivity).
  assert (browsers_work no_direct_env) as Hbw by (intros h; split; reflexivity).
  split; [exact Hwork|]. split; [exact Hbw|].
  destruct (@single_mode_repeats_direct_download plain_runtime no_direct_env
              ["1.json"] "ABC123" "key" 8000 (World ∅ [] []) scenario_tile
              "ABC123~d2023-05~h90~p0~z1.jpg"
              (World ∅ [] [Called (LoadJson "1.json") (Ok (JsonList [scenario_tile]))])
              [] Hwork Hbw)
    as (o & w' & out & evs & Hrun & Htr & Hres);
    [vm_compute; reflexivity|vm_compute; reflexivity|discriminate|reflexivity
    |reflexivity|].
  exists o, w', out. split; [exact Hrun|].
  pose proof (f_equal (fun x => requests (trace x.1.2)) Hrun) as Hreq.
  cbn [fst snd] in Hreq. rewrite <- Hreq. vm_compute. reflexivity.
Defined.

(** * A full image without its thumbnail *)

Section Unreadable.
Context `{PyRuntime} (E : env).

(** X13: a full image that [Image.open] refuses blocks its tile.  The
    direct download writes the image before it makes the thumbnail; when
    [Image.open] raises on the file, nothing is returned but the file
    stays.  From then on the tile counts as having its full image: every
    later pass asks for no download of it, opens the same file for the
    thumbnail, fails, and leaves the directory as it is. *)
Theorem unreadable_image_is_kept t name api_key http_port skip_direct_download w :
  create_new_filename t = Ok name ->
  unreadable_image E name ->
  pages_work E ->
  available w <> [] ->
  (thumb_filename name ∉ files w) ->
  exists w' out,
    download_pano_image E t api_key http_port false w = (Done None, w', out)
    /\ name ∈ files w'
    /\ (thumb_filename name ∉ files w')
    /\ forall w1, files w1 = files w' ->
         exists w2 out2 evs,
           process_tiles E api_key http_port skip_direct_download [t] w1
           = (Done [], w2, out2)
           /\ trace w2 = evs ++ trace w1
           /\ requests evs = [] /\ page_requests evs = [] /\ opened evs = [name]
           /\ files w2 = files w1.
Proof.
  intros Hname
    ((ct & content & Himage & Hcontent & Hget) & Hwrite & (e & Hopen) & Hmkdir & Hlookup)
    Hwork Havail Hthumb.
  assert (name <> thumb_filename name) as Hne.
  { intros Heq. pose proof (full_name_suffix t name Hname) as Hfull.
    pose proof (thumb_name_suffix t name Hname) as Hth. congruence. }
  assert (forall h b, exists u, reply E h (NewPage b) = Ok u) as Hnew.
  { intros h b. destruct (Hwork h) as [Hn _]. specialize (Hn b).
    destruct (reply E h (NewPage b)); [by eexists|done]. }
  assert (forall h, exists u, reply E h ClosePage = Ok u) as Hclose.
  { intros h. destruct (Hwork h) as [_ Hc].
    destruct (reply E h ClosePage); [by eexists|done]. }
  destruct (create_new_filename_parts t name Hname)
    as (pano_id & heading & pitch & zoom & date & Hlook & Htruthy & Hh & Hp & Hz & Hd & Hurl).
  pose proof (lookup_pano_id_careful t pano_id Hlook Htruthy) as Hcareful.
  assert (truthy (PStr content) = true) as Hnonempty.
  { cbn [truthy]. by destruct (String.eqb_spec content ""). }
  assert (exists w' out,
            download_pano_image E t api_key http_port false w = (Done None, w', out)
            /\ name ∈ files w' /\ thumb_filename name ∉ files w') as (w' & out & Hrun & Hin & Hnot).
  { unfold download_pano_image, download_pano_image_direct, try_direct_download,
      browser_method, render_and_capture, release, on_download_error.
    rewrite Hlook, Hh, Hp, Hz, Hd, Hname, Hcareful.
    destruct w as [fs [|b rest] tr]; [done|].
    unfold_ops. reduce. rewrite Htruthy. reduce.
    destruct (truthy date) eqn:Hdate; cbn [negb] in *; reduce; rewrite Hurl.
    all: assert (truthy (PStr (pano_img_url name)) = true) as Hurl_truthy by reflexivity.
    all: repeat first
           [ progress unfold_ops | progress reduce
           | rewrite Hget | rewrite Himage | rewrite Hurl_truthy | rewrite Hnonempty
           | rewrite Hopen | rewrite Hwrite
           | match goal with
             | |- context [reply E ?h (NewPage ?b)] =>
                 let u := fresh "u" in
                 let Hu := fresh "Hu" in
                 destruct (Hnew h b) as [u Hu]; rewrite Hu
             | |- context [reply E ?h ClosePage] =>
                 let u := fresh "u" in
                 let Hu := fresh "Hu" in
                 destruct (Hclose h) as [u Hu]; rewrite Hu
             end
           | case_reply | case_if ].
    all: eexists _, _; (split; [reflexivity|]); cbn [files] in *; set_solver. }
  exists w', out. split; [done|]. split; [done|]. split; [done|].
  intros w1 Hfiles.
  destruct (thumb_error_pano_id t name Hname) as [pid Hpid].
  unfold process_tiles.
  set (w1' := World (files w1) (available w1) (Called Mkdir (Ok tt) :: trace w1)).
  assert (perform E Mkdir w1 = (Done tt, w1', [])) as Hperform
    by (unfold perform; rewrite Hmkdir; reflexivity).
  rewrite (run_bind _ _ w1 _ w1' [] Hperform).
  assert (checks_return E (files w1') [t]) as Hchecks.
  { intros t' name' Hin' Hname'. apply list_elem_of_singleton in Hin' as ->.
    rewrite Hname in Hname'. injection Hname' as <-.
    split; [left; cbn [files w1']; by rewrite Hfiles|by right]. }
  destruct (classify_run E [t] [] [] w1' Hchecks) as [outc Hclassify].
  rewrite (run_bind _ _ w1' _ w1' outc Hclassify). cbn [app files w1' List.filter].
  assert (needs_download (files w1) t = false) as ->.
  { unfold needs_download, name_of. rewrite Hname, Hfiles.
    by rewrite bool_decide_eq_true_2. }
  assert (needs_thumb (files w1) t = true) as ->.
  { unfold needs_thumb, name_of. rewrite Hname, Hfiles.
    by rewrite bool_decide_eq_true_2, bool_decide_eq_false_2. }
  cbn [download_needed generate_thumbs]. cbv zeta.
  rewrite Hname, Hpid. unfold_ops. reduce. rewrite Hopen. reduce.
  eexists _, _, [_; _]. split; [reflexivity|]. done.
Qed.

End Unreadable.

Lemma unreadable_image_is_kept_witness :
  unreadable_image corrupt_image_env "ABC123~d2023-05~h90~p0~z1.jpg"
  /\ exists w' out,
       @download_pano_image plain_runtime corrupt_image_env scenario_tile "key" 8000
         false start_world = (Done None, w', out)
       /\ "ABC123~d2023-05~h90~p0~z1.jpg" ∈ files w'.
Proof.
  assert (unreadable_image corrupt_image_env "ABC123~d2023-05~h90~p0~z1.jpg") as Hbad.
  { split; [|split; [|split; [|split]]].
    - exists "image/jpeg", "JFIF". split; [reflexivity|]. split; [discriminate|reflexivity].
    - reflexivity.
    - exists OSError. reflexivity.
    - reflexivity.
    - reflexivity. }
  split; [exact Hbad|].
  destruct (@unreadable_image_is_kept plain_runtime corrupt_image_env scenario_tile
              "ABC123~d2023-05~h90~p0~z1.jpg" "key" 8000 false start_world)
    as (w' & out & Hrun & Hin & _).
  - vm_compute; reflexivity.
  - exact Hbad.
  - intros h; split; reflexivity.
  - discriminate.
  - apply not_elem_of_empty.
  - exists w', out. split; [exact Hrun|exact Hin].
Defined.

(** * The deletion of orphans *)

Section PruneFacts.
Context `{PyRuntime}.

Lemma unlink_orphans_spec (unlink : string -> result unit) orphaned files n :
  unlink_orphans unlink orphaned files n
  = (files ∖ list_to_set (List.filter (fun f => is_ok (unlink f)) orphaned),
     (n + length (List.filter (fun f => is_ok (unlink f)) orphaned))%nat).
Proof.
  revert files n. induction orphaned as [|f rest IH]; intros files n; simpl.
  - f_equal; [set_solver|lia].
  - destruct (unlink f) as [[]|e]; simpl; rewrite IH; [|done].
    f_equal; [|lia]. apply set_eq. intros x. set_solver.
Qed.

Lemma scan_puzzles_unreadable pre e post expected :
  scan_puzzles (pre ++ Raise e :: post) expected = scan_puzzles (pre ++ post) expected.
Proof.
  revert expected. induction pre as [|[data|e'] pre IH]; intros expected; simpl; by rewrite ?IH.
Qed.

Lemma scan_puzzles_all_unreadable puzzles expected :
  Forall (fun p => is_ok p = false) puzzles -> scan_puzzles puzzles expected = expected.
Proof.
  induction 1 as [|[data|e] rest Hp _ IH]; simpl; done.
Qed.

Lemma elem_of_prune_orphans actual expected f :
  f ∈ prune_orphans actual expected [] <-> f ∈ actual /\ f ∉ expected.
Proof.
  rewrite <- (elem_of_list_to_set (C := gset string)), prune_orphans_set.
  set_solver.
Qed.

Lemma prune_orphans_filter actual expected orphaned :
  prune_orphans actual expected orphaned
  = orphaned ++ List.filter (fun f => negb (bool_decide (f ∈ expected))) actual.
Proof.
  revert orphaned. induction actual as [|f rest IH]; intros orphaned; simpl.
  - by rewrite app_nil_r.
  - case_bool_decide; simpl; rewrite IH; [done|]. by rewrite <- app_assoc.
Qed.

Lemma elem_of_List_filter {A} (f : A -> bool) l x :
  x ∈ List.filter f l <-> x ∈ l /\ f x = true.
Proof. rewrite !list_elem_of_In. apply filter_In. Qed.

Lemma NoDup_List_filter {A} (f : A -> bool) l :
  NoDup l -> NoDup (List.filter f l).
Proof. rewrite !NoDup_ListNoDup. apply List.NoDup_filter. Qed.

End PruneFacts.
Section PruneLaws.
Context `{PyRuntime} `{PyText}.
Variable unlink : string -> result unit.

Lemma prune_orphaned_images_files delete_orphans puzzles actual_files line files :
  (prune_orphaned_images unlink delete_orphans puzzles actual_files line files).2
  = if negb (bool_decide (puzzles = []))
       && (delete_orphans
           || match line with
              | Some l => bool_decide (py_lower (py_strip l) ∈ ["y"; "yes"])
              | None => false
              end)
    then files ∖ list_to_set
                   (List.filter (fun f => is_ok (unlink f))
                      (prune_orphans actual_files (scan_puzzles puzzles ∅) []))
    else files.
Proof.
  unfold prune_orphaned_images. destruct puzzles as [|p rest]; [done|].
  rewrite bool_decide_eq_false_2 by done. cbn [negb andb].
  destruct (prune_orphans actual_files _ []) as [|f orphaned] eqn:Horphans.
  { cbn [List.filter list_to_set]. destruct (_ || _); cbn [snd]; set_solver. }
  destruct delete_orphans; cbn [orb].
  - by rewrite unlink_orphans_spec.
  - destruct line as [l|]; [|done]. case_bool_decide; [|done].
    by rewrite unlink_orphans_spec.
Qed.

Lemma deletion_confirmed_bool delete_orphans line :
  deletion_confirmed delete_orphans line
  <-> delete_orphans
      || match line with
         | Some l => bool_decide (py_lower (py_strip l) ∈ ["y"; "yes"])
         | None => false
         end = true.
Proof.
  unfold deletion_confirmed. rewrite orb_true_iff. split.
  - intros [->|(l & -> & Hin)]; [by left|right]. by apply bool_decide_eq_true_2.
  - intros [->|Hline]; [by left|right]. destruct line as [l|]; [|done].
    exists l. split; [done|]. by apply bool_decide_eq_true_1 in Hline.
Qed.


(** X15: a confirmed prune whose [unlink] calls all return leaves the
    directory without orphans.  What stays is the part of the directory
    that the scan expects; the count of the final message is the number of
    orphans; and pruning again, whatever the flag and the answer, finds no
    orphaned file and changes nothing. *)
Theorem prune_leaves_no_orphans delete_orphans puzzles actual_files line files :
  puzzles <> [] ->
  deletion_confirmed delete_orphans line ->
  NoDup actual_files ->
  list_to_set actual_files = files ->
  (forall f, f ∈ files -> is_ok (unlink f) = true) ->
  let expected := scan_puzzles puzzles ∅ in
  exists fin files',
    prune_orphaned_images unlink delete_orphans puzzles actual_files line files
    = (fin, files')
    /\ files' = files ∩ expected
    /\ orphaned_files expected files' = ∅
    /\ (fin = NoOrphans /\ files ⊆ expected
        \/ fin = Deleted (size (orphaned_files expected files))
           /\ orphaned_files expected files <> ∅)
    /\ forall delete_orphans' line' actual_files',
         list_to_set actual_files' = files' ->
         prune_orphaned_images unlink delete_orphans' puzzles actual_files' line' files'
         = (NoOrphans, files').
Proof.
  intros Hpuzzles Hconfirmed Hnodup Hactual Hunlink expected.
  assert (forall l, (forall f, f ∈ l -> f ∈ files) ->
            List.filter (fun f => is_ok (unlink f)) l = l) as Hall.
  { intros l Hl. induction l as [|f l IH]; [done|]. simpl.
    rewrite (Hunlink f) by (apply Hl; by left). cbn [is_ok]. f_equal.
    apply IH. intros g Hg. apply Hl. by right. }
  assert (forall f, f ∈ prune_orphans actual_files expected [] -> f ∈ files) as Hsub.
  { intros f [Hf _]%elem_of_prune_orphans. rewrite <- Hactual. by apply elem_of_list_to_set. }
  assert (forall actual', list_to_set actual' = files ∩ expected ->
            prune_orphans actual' expected [] = []) as Hclean.
  { intros actual' Hset. destruct (prune_orphans actual' expected []) as [|f l] eqn:Hl; [done|].
    assert (f ∈ prune_orphans actual' expected []) as Hf by (rewrite Hl; by left).
    apply elem_of_prune_orphans in Hf as [Hf Hnot].
    apply (elem_of_list_to_set (C := gset string)) in Hf. rewrite Hset in Hf. set_solver. }
  assert (list_to_set (prune_orphans actual_files expected [])
          = orphaned_files expected files) as Hset.
  { rewrite prune_orphans_set, Hactual. unfold orphaned_files. set_solver. }
  assert (length (prune_orphans actual_files expected [])
          = size (orphaned_files expected files)) as Hlen.
  { rewrite <- Hset, size_list_to_set; [done|].
    rewrite prune_orphans_filter. cbn [app]. by apply NoDup_List_filter. }
  assert (forall delete_orphans' line' actual_files',
            list_to_set actual_files' = files ∩ expected ->
            prune_orphaned_images unlink delete_orphans' puzzles actual_files' line'
              (files ∩ expected) = (NoOrphans, files ∩ expected)) as Hagain.
  { intros d l actual' Hset'. unfold prune_orphaned_images.
    destruct puzzles as [|p rest]; [done|]. fold expected. by rewrite (Hclean actual' Hset'). }
  assert (orphaned_files expected (files ∩ expected) = ∅) as Hnone
    by (unfold orphaned_files; set_solver).
  apply deletion_confirmed_bool in Hconfirmed.
  unfold prune_orphaned_images. destruct puzzles as [|p rest]; [done|]. fold expected.
  destruct (prune_orphans actual_files expected []) as [|f orphaned] eqn:Horphans.
  - assert (files ⊆ expected) as Hin.
    { intros g Hg. destruct (decide (g ∈ expected)) as [|Hnot]; [done|].
      assert (g ∈ orphaned_files expected files) as Hg'
        by (unfold orphaned_files; set_solver).
      rewrite <- Hset in Hg'. by apply elem_of_list_to_set, elem_of_nil in Hg'. }
    assert (files ∩ expected = files) as Heq by set_solver.
    exists NoOrphans, files. rewrite Heq in *. split; [done|]. split; [done|].
    split; [done|]. split; [by left|]. done.
  - assert (orphaned_files expected files <> ∅) as Hsome.
    { rewrite <- Hset. cbn [list_to_set]. set_solver. }
    assert (files ∖ list_to_set (f :: orphaned) = files ∩ expected) as Hrest.
    { rewrite Hset. unfold orphaned_files. apply set_eq. intros x.
      rewrite elem_of_difference, elem_of_intersection, elem_of_difference.
      split; [|intros [? ?]; split; [done|by intros [_ ?]]].
      intros [Hx Hnot]. split; [done|].
      destruct (decide (x ∈ expected)); [done|]. by destruct Hnot. }
    assert (unlink_orphans unlink (f :: orphaned) files 0
            = (files ∩ expected, size (orphaned_files expected files))) as Hloop.
    { rewrite unlink_orphans_spec, (Hall _ Hsub), Hrest, Hlen. done. }
    exists (Deleted (size (orphaned_files expected files))), (files ∩ expected).
    split.
    { destruct delete_orphans; [by rewrite Hloop|]. cbn [orb] in Hconfirmed.
      destruct line as [l|]; [|done]. rewrite Hconfirmed. by rewrite Hloop. }
    split; [done|]. split; [done|]. split; [by right|]. done.
Qed.

(** X16: puzzle files that cannot be read protect nothing.  Without any
    puzzle file [prune_orphaned_images] returns at once and deletes
    nothing; but when there are puzzle files and [json.load] raises on
    every one of them, no file is expected, and a confirmed prune whose
    [unlink] calls return empties the image directory.  One unreadable
    file among others is scanned as if it were not there. *)
Theorem unreadable_puzzles_protect_nothing delete_orphans puzzles actual_files line files :
  puzzles <> [] ->
  Forall (fun p => is_ok p = false) puzzles ->
  deletion_confirmed delete_orphans line ->
  list_to_set actual_files = files ->
  (forall f, f ∈ files -> is_ok (unlink f) = true) ->
  (prune_orphaned_images unlink delete_orphans puzzles actual_files line files).2 = ∅
  /\ prune_orphaned_images unlink delete_orphans [] actual_files line files
     = (NoPuzzleFiles, files)
  /\ forall pre e post,
       pre ++ post <> [] ->
       prune_orphaned_images unlink delete_orphans (pre ++ Raise e :: post)
         actual_files line files
       = prune_orphaned_images unlink delete_orphans (pre ++ post) actual_files line files.
Proof.
  intros Hpuzzles Hall Hconfirmed Hactual Hunlink. split; [|split; [done|]].
  - rewrite prune_orphaned_images_files. apply deletion_confirmed_bool in Hconfirmed.
    rewrite Hconfirmed, bool_decide_eq_false_2 by done. cbn [negb andb].
    rewrite (scan_puzzles_all_unreadable _ _ Hall).
    apply set_eq. intros f. rewrite elem_of_difference, elem_of_list_to_set,
      elem_of_List_filter, elem_of_prune_orphans.
    split; [|set_solver]. intros [Hf Hnot]. destruct Hnot.
    split; [|by apply Hunlink]. split; [|set_solver].
    rewrite <- Hactual in Hf. by apply elem_of_list_to_set in Hf.
  - intros pre e post Hrest. unfold prune_orphaned_images.
    rewrite scan_puzzles_unreadable.
    destruct (pre ++ post) as [|p rest] eqn:Hpp; [done|].
    by destruct pre.
Qed.

End PruneLaws.
Lemma prune_leaves_no_orphans_witness :
  exists fin files',
    @prune_orphaned_images plain_runtime ascii_text (fun _ => Ok tt) false
      [Ok (JsonList [scenario_tile])]
      ["ABC123~d2023-05~h90~p0~z1.jpg"; "old.jpg"] (Some " Yes ")
      (list_to_set ["ABC123~d2023-05~h90~p0~z1.jpg"; "old.jpg"])
    = (fin, files')
    /\ files' = list_to_set ["ABC123~d2023-05~h90~p0~z1.jpg"; "old.jpg"]
                ∩ @scan_puzzles plain_runtime [Ok (JsonList [scenario_tile])] ∅.
Proof.
  destruct (@prune_leaves_no_orphans plain_runtime ascii_text (fun _ => Ok tt) false
              [Ok (JsonList [scenario_tile])]
              ["ABC123~d2023-05~h90~p0~z1.jpg"; "old.jpg"] (Some " Yes ")
              (list_to_set ["ABC123~d2023-05~h90~p0~z1.jpg"; "old.jpg"]))
    as (fin & files' & Hrun & Hfiles & _).
  - discriminate.
  - right. exists " Yes ". split; [reflexivity|]. vm_compute. right. left.
  - compute_done.
  - reflexivity.
  - reflexivity.
  - exists fin, files'. split; [exact Hrun|exact Hfiles].
Defined.

Lemma unreadable_puzzles_protect_nothing_witness :
  (@prune_orphaned_images plain_runtime ascii_text (unlink_except "none") true
     [Raise ValueError] ["a.jpg"; "b.jpg"] None (list_to_set ["a.jpg"; "b.jpg"])).2 = ∅.
Proof.
  apply (@unreadable_puzzles_protect_nothing plain_runtime ascii_text (unlink_except "none")
           true [Raise ValueError] ["a.jpg"; "b.jpg"] None (list_to_set ["a.jpg"; "b.jpg"])).
  - discriminate.
  - repeat constructor.
  - by left.
  - reflexivity.
  - intros f Hf. apply elem_of_list_to_set in Hf.
    apply elem_of_cons in Hf as [->|Hf]; [reflexivity|].
    apply elem_of_cons in Hf as [->|Hf]; [reflexivity|]. by apply elem_of_nil in Hf.
Defined.

(** * The tiers of the acquisition, call by call *)




Section Scripts.
Context `{PyRuntime} (E : env).




End Scripts.


Section ScriptFacts.
Context `{PyRuntime} (E : env).



End ScriptFacts.

Section Acquisition.
Context `{PyRuntime} (E : env).


End Acquisition.


(** * The work that the files on disk leave *)

Section Played.
Context (E : env).







End Played.

Section PerTile.
Context `{PyRuntime} (E : env).




End PerTile.

Section Loops.
Context `{PyRuntime} (E : env).
Context (api_key : string) (http_port : Z) (skip_direct_download : bool).

Lemma names_named (tiles : list tile) t name :
  t ∈ tiles -> create_new_filename t = Ok name -> name ∈ omap name_of tiles.
Proof.
  intros Hin Hname. apply list_elem_of_omap. exists t. split; [done|].
  by apply name_of_Some.
Qed.




End Loops.

Section Working.
Context `{PyRuntime} (E : env).
Context (api_key : string) (http_port : Z) (skip_direct_download : bool).







End Working.

Section Concerns.







End Concerns.

Section Deduplication.
Context `{PyRuntime} (E : env).
Context (api_key : string) (http_port : Z) (skip_direct_download : bool).




End Deduplication.




(** C8 fails when [browser.new_page()] raises for a tile: the error is
    not kept to the tile.  The tile after it in the puzzle file, which
    alone is downloaded, is not even tried: the file is given up with
    nothing downloaded and a browser is lost; and a batch of four such
    files with two browsers reads three of them and then waits for ever,
    without closing a browser. *)
Lemma page_error_is_not_local :
  (exists w' out,
     @process_tiles plain_runtime page_crash_first_env "key" 8000 false [undated_tile]
       start_world
     = (Done ["XYZ~d2024-01~h12.35~p-0.5~z2.jpg"; "XYZ~d2024-01~h12.35~p-0.5~z2~thumb.jpg"],
        w', out))
  /\ (exists w' out,
        @process_json_file_async plain_runtime page_crash_first_env "key" 8000 false
          "1.json" start_world
        = (Done [], w', out)
        /\ MsgFileError "1.json" UnboundLocalError ∈ out
        /\ requests (trace w') = [pano_img_url "ABC123~d2023-05~h90~p0~z1.jpg"]
        /\ files w' = ∅
        /\ available w' = [1%nat])
  /\ (exists w' out,
        @run_batch plain_runtime page_crash_first_env "key" 8000 false 2
          ["1.json"; "2.json"; "3.json"; "4.json"] (World ∅ [] [])
        = (Hang, w', out)
        /\ loads (trace w') = ["3.json"; "2.json"; "1.json"]
        /\ closed (trace w') = []).
Proof.
  split; [eexists _, _; vm_compute; reflexivity|].
  split.
  - eexists _, _. split; [vm_compute; reflexivity|].
    split; [set_solver|]. split; [reflexivity|]. split; reflexivity.
  - eexists _, _. split; [vm_compute; reflexivity|]. split; reflexivity.
Qed.
